(** * Tic-tac-toe: match controller, room repository and local AI

    A shallow embedding of the tic-tac-toe game of the repository:
    - [types]      : games/tic-tac-toe/types.ts
    - [constants]  : constants.ts
    - [js]         : the few JavaScript array and string primitives used
    - [rtdb]       : the shared document store the services talk to
    - [firebase]   : services/firebase.ts (the room repository)
    - [ai]         : services/ai.ts (the local opponent)
    - [App]        : the match controller embedded in the tic-tac-toe App
    - [RootApp]    : [handleMove] of the older App.tsx at the repository root
    followed by the properties proved about them. *)

From Stdlib Require Import ZArith List String Ascii Bool Lia QArith Qround Qabs.
From stdpp Require Import base option list gmap strings.
Import ListNotations.

Local Open Scope string_scope.
Local Open Scope list_scope.
Local Open Scope Z_scope.

(* ===================================================================== *)
(** ** types.ts *)
(* ===================================================================== *)

Module types.

Inductive PlayerSymbol : Set := X | O.

(** [CellValue] is [PlayerSymbol | null] in the source.  A read of a
    JavaScript array outside its bounds (or at a hole) yields [undefined],
    which is a third run-time value a cell expression can have; it is kept
    in the type so that array reads and writes out of range can be written
    out as JavaScript performs them. *)
Inductive CellValue : Set :=
| Sym (s : PlayerSymbol)
| null
| undefined.

Inductive GameMode : Set := SINGLE | LOCAL | ONLINE.
Inductive Difficulty : Set := EASY | MEDIUM | HARD.
Inductive GameStatus : Set := WAITING | PLAYING | FINISHED | DRAW.

(** [PlayerSymbol | 'draw'] : the non-null values of a [winner] field. *)
Inductive Winner : Set := Won (s : PlayerSymbol) | draw.

Record PlayerSlot : Set := mkPlayerSlot {
  name : string;
  symbol : PlayerSymbol;
  joined : bool
}.

Record Players : Set := mkPlayers {
  player1 : PlayerSlot;
  player2 : PlayerSlot
}.

Record RoomData : Set := mkRoomData {
  status : GameStatus;
  players : Players;
  board : list CellValue;
  currentTurn : PlayerSymbol;
  winner : option Winner;
  lastMoveTimestamp : option Z
}.

#[global] Instance PlayerSymbol_eq_dec : EqDecision PlayerSymbol.
Proof. solve_decision. Defined.
#[global] Instance CellValue_eq_dec : EqDecision CellValue.
Proof. solve_decision. Defined.
#[global] Instance GameMode_eq_dec : EqDecision GameMode.
Proof. solve_decision. Defined.
#[global] Instance Difficulty_eq_dec : EqDecision Difficulty.
Proof. solve_decision. Defined.
#[global] Instance GameStatus_eq_dec : EqDecision GameStatus.
Proof. solve_decision. Defined.
#[global] Instance Winner_eq_dec : EqDecision Winner.
Proof. solve_decision. Defined.

End types.

(* ===================================================================== *)
(** ** JavaScript primitives *)
(* ===================================================================== *)

Module js.
Import types.

(** The result of a call that may throw. *)
Inductive Outcome (A : Type) : Type :=
| Returned (a : A)
| Thrown (msg : string).
Arguments Returned {A} a.
Arguments Thrown {A} msg.

(** [arr[i]] : [undefined] outside the array. *)
Definition get (arr : list CellValue) (i : nat) : CellValue :=
  match arr !! i with
  | Some v => v
  | None => undefined
  end.

(** [arr[i] = v] : inside the array the slot is replaced; outside, the
    array grows and the slots in between read as [undefined]. *)
Definition set (arr : list CellValue) (i : nat) (v : CellValue) : list CellValue :=
  if (i <? length arr)%nat then <[i := v]> arr
  else arr ++ replicate (i - length arr) undefined ++ [v].

(** Truthiness of a cell value: only ['X'] and ['O'] are truthy. *)
Definition truthy (v : CellValue) : bool :=
  match v with
  | Sym _ => true
  | _ => false
  end.

(** [a === b] on cell values. *)
Definition strict_eq (a b : CellValue) : bool := bool_decide (a = b).

(** [arr.includes(v)]. *)
Definition includes (arr : list CellValue) (v : CellValue) : bool :=
  existsb (strict_eq v) arr.

(** [s.charAt(k)] : the one-character string at [k], or the empty string
    when [k] is not an index of [s]. *)
Definition charAt (s : string) (k : Z) : string :=
  if k <? 0 then ""
  else match String.get (Z.to_nat k) s with
       | Some c => String c ""
       | None => ""
       end.

(** [Math.floor(r * n)] for a draw [r] of [Math.random()] and an integer
    [n].  Draws are rationals, every double being one, and the product is
    taken exactly: for [n = 32] the double product is exact as well, and
    for the other [n] used (at most 9) its rounding stays below [n]. *)
Definition floor_times (r : Q) (n : nat) : Z :=
  Qfloor (r * inject_Z (Z.of_nat n)).

(** Numbers as [minimax] uses them: integers and the two infinities. *)
Inductive Num : Set := NegInfinity | Fin (z : Z) | Infinity.

Definition gt (a b : Num) : bool :=
  match a, b with
  | NegInfinity, _ => false
  | _, Infinity => false
  | Fin x, Fin y => y <? x
  | Fin _, NegInfinity => true
  | Infinity, _ => true
  end.

(** [Math.max(a, b)] and [Math.min(a, b)]. *)
Definition max (a b : Num) : Num := if gt a b then a else b.
Definition min (a b : Num) : Num := if gt a b then b else a.

End js.

(* ===================================================================== *)
(** ** constants.ts *)
(* ===================================================================== *)

Module constants.
Import types.

Definition Combo : Set := (nat * nat * nat)%type.

Definition WINNING_COMBINATIONS : list Combo :=
  [ (0, 1, 2);   (* Row 1 *)
    (3, 4, 5);   (* Row 2 *)
    (6, 7, 8);   (* Row 3 *)
    (0, 3, 6);   (* Col 1 *)
    (1, 4, 7);   (* Col 2 *)
    (2, 5, 8);   (* Col 3 *)
    (0, 4, 8);   (* Diagonal 1 *)
    (2, 4, 6)    (* Diagonal 2 *)
  ]%nat.

(** [Array(9).fill(null)] *)
Definition EMPTY_BOARD : list CellValue := replicate 9 null.

End constants.

(* ===================================================================== *)
(** ** The shared document store (firebase/database) *)
(* ===================================================================== *)

(** The store is a path-addressed document tree.  The service only ever
    addresses the paths below [rooms/${code}], and the model keeps one
    document per room code whose leaves are each present or absent: an
    absent leaf is what the store holds for a path that was never written,
    and a room none of whose leaves is present does not exist.  A room code
    is taken to be a single path segment.  Store requests always succeed;
    a failing network is not modelled. *)

Module rtdb.
Import types.

Record PlayerDoc : Set := mkPlayerDoc {
  d_name : option string;
  d_symbol : option PlayerSymbol;
  d_joined : option bool
}.

Record RoomDoc : Set := mkRoomDoc {
  d_status : option GameStatus;
  d_player1 : PlayerDoc;
  d_player2 : PlayerDoc;
  d_board : option (list CellValue);
  d_currentTurn : option PlayerSymbol;
  d_winner : option Winner;
  d_lastMoveTimestamp : option Z
}.

(** ['player1'] and ['player2'] as path segments. *)
Inductive PlayerKey : Set := key_player1 | key_player2.

(** One entry of an [updates] object: a path below [rooms/${code}] together
    with the value written there. *)
Inductive Write : Set :=
| W_status (code : string) (s : GameStatus)            (* rooms/${code}/status *)
| W_board (code : string) (b : list CellValue)         (* rooms/${code}/board *)
| W_currentTurn (code : string) (t : PlayerSymbol)     (* rooms/${code}/currentTurn *)
| W_winner (code : string) (w : Winner)                (* rooms/${code}/winner *)
| W_lastMoveTimestamp (code : string) (t : Z)          (* rooms/${code}/lastMoveTimestamp *)
| W_player (code : string) (k : PlayerKey) (p : PlayerSlot)
                                                       (* rooms/${code}/players/${k} *)
| W_joined (code : string) (k : PlayerKey) (b : bool). (* rooms/${code}/players/${k}/joined *)

(** What the service asked the store to commit, in order. *)
Inductive Commit : Set :=
| Commit_set (code : string) (data : RoomData)   (* set(ref(db, `rooms/${code}`), data) *)
| Commit_update (updates : list Write).          (* update(ref(db), updates) *)

(** Capability returned by a subscription. *)
Inductive Unsubscribe : Set :=
| inert                                  (* () => {} *)
| detach (code : string) (id : nat).     (* what onValue returns *)

Record Database : Type := mkDatabase {
  rooms : gmap string RoomDoc;
  onDisconnect : list Write;          (* deferred writes armed by this client *)
  listeners : list (string * nat);    (* attached onValue listeners *)
  journal : list Commit               (* commits issued, oldest first *)
}.

Definition no_player : PlayerDoc :=
  {| d_name := None; d_symbol := None; d_joined := None |}.

Definition no_room : RoomDoc :=
  {| d_status := None; d_player1 := no_player; d_player2 := no_player;
     d_board := None; d_currentTurn := None; d_winner := None;
     d_lastMoveTimestamp := None |}.

#[global] Instance PlayerDoc_eq_dec : EqDecision PlayerDoc.
Proof. solve_decision. Defined.
#[global] Instance RoomDoc_eq_dec : EqDecision RoomDoc.
Proof. solve_decision. Defined.

Definition player_doc (p : PlayerSlot) : PlayerDoc :=
  {| d_name := Some (name p); d_symbol := Some (symbol p);
     d_joined := Some (joined p) |}.

(** The document holding a whole [RoomData] value; a [null] winner and a
    missing timestamp are absent leaves. *)
Definition room_doc (data : RoomData) : RoomDoc :=
  {| d_status := Some (status data);
     d_player1 := player_doc (player1 (players data));
     d_player2 := player_doc (player2 (players data));
     d_board := Some (board data);
     d_currentTurn := Some (currentTurn data);
     d_winner := winner data;
     d_lastMoveTimestamp := lastMoveTimestamp data |}.

(** [get(ref(db, `rooms/${code}`))] : the snapshot of a room. *)
Definition get (d : Database) (code : string) : RoomDoc :=
  default no_room (rooms d !! code).

(** [snapshot.exists()] *)
Definition exists_ (snapshot : RoomDoc) : bool :=
  negb (bool_decide (snapshot = no_room)).

Definition write_player (k : PlayerKey) (f : PlayerDoc -> PlayerDoc)
    (doc : RoomDoc) : RoomDoc :=
  match k with
  | key_player1 =>
      {| d_status := d_status doc; d_player1 := f (d_player1 doc);
         d_player2 := d_player2 doc; d_board := d_board doc;
         d_currentTurn := d_currentTurn doc; d_winner := d_winner doc;
         d_lastMoveTimestamp := d_lastMoveTimestamp doc |}
  | key_player2 =>
      {| d_status := d_status doc; d_player1 := d_player1 doc;
         d_player2 := f (d_player2 doc); d_board := d_board doc;
         d_currentTurn := d_currentTurn doc; d_winner := d_winner doc;
         d_lastMoveTimestamp := d_lastMoveTimestamp doc |}
  end.

Definition write_code (w : Write) : string :=
  match w with
  | W_status code _ | W_board code _ | W_currentTurn code _
  | W_winner code _ | W_lastMoveTimestamp code _
  | W_player code _ _ | W_joined code _ _ => code
  end.

(** The effect of one path write on the document of its room: the subtree
    at the path is replaced, every other leaf is kept. *)
Definition write_doc (w : Write) (doc : RoomDoc) : RoomDoc :=
  match w with
  | W_status _ s =>
      {| d_status := Some s; d_player1 := d_player1 doc;
         d_player2 := d_player2 doc; d_board := d_board doc;
         d_currentTurn := d_currentTurn doc; d_winner := d_winner doc;
         d_lastMoveTimestamp := d_lastMoveTimestamp doc |}
  | W_board _ b =>
      {| d_status := d_status doc; d_player1 := d_player1 doc;
         d_player2 := d_player2 doc; d_board := Some b;
         d_currentTurn := d_currentTurn doc; d_winner := d_winner doc;
         d_lastMoveTimestamp := d_lastMoveTimestamp doc |}
  | W_currentTurn _ t =>
      {| d_status := d_status doc; d_player1 := d_player1 doc;
         d_player2 := d_player2 doc; d_board := d_board doc;
         d_currentTurn := Some t; d_winner := d_winner doc;
         d_lastMoveTimestamp := d_lastMoveTimestamp doc |}
  | W_winner _ w =>
      {| d_status := d_status doc; d_player1 := d_player1 doc;
         d_player2 := d_player2 doc; d_board := d_board doc;
         d_currentTurn := d_currentTurn doc; d_winner := Some w;
         d_lastMoveTimestamp := d_lastMoveTimestamp doc |}
  | W_lastMoveTimestamp _ t =>
      {| d_status := d_status doc; d_player1 := d_player1 doc;
         d_player2 := d_player2 doc; d_board := d_board doc;
         d_currentTurn := d_currentTurn doc; d_winner := d_winner doc;
         d_lastMoveTimestamp := Some t |}
  | W_player _ k p => write_player k (fun _ => player_doc p) doc
  | W_joined _ k b =>
      write_player k
        (fun pd => {| d_name := d_name pd; d_symbol := d_symbol pd;
                      d_joined := Some b |}) doc
  end.

Definition write_rooms (rs : gmap string RoomDoc) (w : Write)
    : gmap string RoomDoc :=
  let code := write_code w in
  <[code := write_doc w (default no_room (rs !! code))]> rs.

(** [set(ref(db, `rooms/${code}`), data)] : whole-subtree overwrite. *)
Definition set (d : Database) (code : string) (data : RoomData) : Database :=
  {| rooms := <[code := room_doc data]> (rooms d);
     onDisconnect := onDisconnect d;
     listeners := listeners d;
     journal := journal d ++ [Commit_set code data] |}.

(** [update(ref(db), updates)] : all paths of [updates] in one commit. *)
Definition update (d : Database) (updates : list Write) : Database :=
  {| rooms := foldl write_rooms (rooms d) updates;
     onDisconnect := onDisconnect d;
     listeners := listeners d;
     journal := journal d ++ [Commit_update updates] |}.

(** [onDisconnect(ref(db, path)).set(value)] : arm a deferred write. *)
Definition onDisconnect_set (d : Database) (w : Write) : Database :=
  {| rooms := rooms d;
     onDisconnect := onDisconnect d ++ [w];
     listeners := listeners d;
     journal := journal d |}.

(** [onValue(ref(db, `rooms/${code}`), ...)] : attach a listener; the
    capability returned detaches it. *)
Definition onValue (d : Database) (code : string) : Unsubscribe * Database :=
  let id := length (listeners d) in
  (detach code id,
   {| rooms := rooms d;
      onDisconnect := onDisconnect d;
      listeners := listeners d ++ [(code, id)];
      journal := journal d |}).

(** [data.players.player2.joined] on [snapshot.val()]: reading a property
    of a missing [players] or [player2] object throws a TypeError; a
    missing [joined] leaf reads [undefined], which is falsy. *)
Definition read_player2_joined (snapshot : RoomDoc) : js.Outcome bool :=
  if bool_decide (d_player2 snapshot = no_player)
  then js.Thrown "TypeError"
  else js.Returned (default false (d_joined (d_player2 snapshot))).

End rtdb.

(* ===================================================================== *)
(** ** services/firebase.ts *)
(* ===================================================================== *)

(** [db] is the module-level store handle: [None] when initialisation
    failed.  Every function takes it and returns it, together with the
    outcome of the call.  [random i] is the value of the [i]-th call of
    [Math.random()] made by the function, and [now] that of [Date.now()]. *)

Module firebase.
Import types js constants rtdb.

Definition chars : string := "ABCDEFGHJKLMNPQRSTUVWXYZ23456789".

(** The body of [for (let i = 0; i < 4; i++)], with [todo] iterations
    left. *)
Fixpoint generateRoomCode_loop (random : nat -> Q) (todo i : nat)
    (code : string) : string :=
  match todo with
  | 0%nat => code
  | S todo' =>
      generateRoomCode_loop random todo' (S i)
        (code +:+ charAt chars (floor_times (random i) (String.length chars)))
  end.

Definition generateRoomCode (random : nat -> Q) : string :=
  generateRoomCode_loop random 4 0 "".

Definition initialData (playerName : string) (now : Z) : RoomData :=
  {| status := WAITING;
     players :=
       {| player1 := {| name := playerName; symbol := X; joined := true |};
          player2 := {| name := ""; symbol := O; joined := false |} |};
     board := EMPTY_BOARD;
     currentTurn := X;
     winner := None;
     lastMoveTimestamp := Some now |}.

Definition createRoom (db : option Database) (random : nat -> Q) (now : Z)
    (playerName : string) : Outcome string * option Database :=
  match db with
  | None => (Thrown "Database not initialized", None)
  | Some d =>
      let code := generateRoomCode random in
      let d := rtdb.set d code (initialData playerName now) in
      (* Handle Disconnect *)
      let d := onDisconnect_set d (W_joined code key_player1 false) in
      (Returned code, Some d)
  end.

Definition joinRoom (db : option Database) (code playerName : string)
    : Outcome bool * option Database :=
  match db with
  | None => (Thrown "Database not initialized", None)
  | Some d =>
      let snapshot := rtdb.get d code in
      if negb (exists_ snapshot) then (Returned false, Some d)
      else
        match read_player2_joined snapshot with
        | Thrown msg => (Thrown msg, Some d)
        | Returned true => (Returned false, Some d)   (* Already full *)
        | Returned false =>
            let updates :=
              [ W_player code key_player2
                  {| name := playerName; symbol := O; joined := true |};
                W_status code PLAYING ] in
            let d := update d updates in
            (* Handle Disconnect *)
            let d := onDisconnect_set d (W_joined code key_player2 false) in
            (Returned true, Some d)
        end
  end.

Definition subscribeToRoom (db : option Database) (code : string)
    : Unsubscribe * option Database :=
  match db with
  | None => (inert, None)
  | Some d => let '(unsubscribe, d) := onValue d code in (unsubscribe, Some d)
  end.

Definition updateGameState (db : option Database) (now : Z) (code : string)
    (board : list CellValue) (nextTurn : PlayerSymbol) (winner : option Winner)
    : Outcome unit * option Database :=
  match db with
  | None => (Returned tt, None)
  | Some d =>
      let updates :=
        [ W_board code board;
          W_currentTurn code nextTurn;
          W_lastMoveTimestamp code now ] in
      let updates :=
        match winner with
        | Some w => updates ++ [ W_winner code w; W_status code FINISHED ]
        | None => updates
        end in
      (Returned tt, Some (update d updates))
  end.

Definition leaveRoom (db : option Database) (code : string) (isPlayer1 : bool)
    : Outcome unit * option Database :=
  match db with
  | None => (Returned tt, None)
  | Some d =>
      let playerKey := if isPlayer1 then key_player1 else key_player2 in
      let updates := [ W_joined code playerKey false ] in
      (Returned tt, Some (update d updates))
  end.

End firebase.

(* ===================================================================== *)
(** ** services/ai.ts *)
(* ===================================================================== *)

Module ai.
Import types js constants.

(** [board[a] && board[a] === board[b] && board[a] === board[c]] *)
Definition three_equal (board : list CellValue) (combo : Combo) : bool :=
  let '(a, b, c) := combo in
  truthy (get board a)
  && strict_eq (get board a) (get board b)
  && strict_eq (get board a) (get board c).

(** The [for (const combo of ...)] loop of [checkWinner]. *)
Fixpoint checkWinner_loop (combos : list Combo) (board : list CellValue)
    : option PlayerSymbol :=
  match combos with
  | [] => None
  | (a, b, c) :: rest =>
      if three_equal board (a, b, c) then
        match get board a with
        | Sym s => Some s
        | _ => checkWinner_loop rest board
        end
      else checkWinner_loop rest board
  end.

(* Check for winner utility *)
Definition checkWinner (board : list CellValue) : option Winner :=
  match checkWinner_loop WINNING_COMBINATIONS board with
  | Some s => Some (Won s)
  | None => if negb (includes board null) then Some draw else None
  end.

(** One of the two [for (let i = 0; i < 9; i++)] loops of [minimax], with
    [todo] iterations left: [mark] is the symbol tried in each empty cell,
    [pick] is [Math.max] or [Math.min] and [rec] is the recursive call.
    The array is updated in place in the source; the board is threaded
    through and returned. *)
Fixpoint minimax_loop (mark : PlayerSymbol) (pick : Num -> Num -> Num)
    (rec : list CellValue -> option (Num * list CellValue))
    (todo i : nat) (bestScore : Num) (board : list CellValue)
    : option (Num * list CellValue) :=
  match todo with
  | 0%nat => Some (bestScore, board)
  | S todo' =>
      if strict_eq (get board i) null then
        let board := set board i (Sym mark) in
        match rec board with
        | None => None
        | Some (score, board) =>
            let board := set board i null in
            minimax_loop mark pick rec todo' (S i) (pick score bestScore) board
        end
      else minimax_loop mark pick rec todo' (S i) bestScore board
  end.

(* Minimax Algorithm *)
(** [fuel] bounds the depth of the recursion; [None] is returned when it
    runs out. *)
Fixpoint minimax (fuel : nat) (board : list CellValue) (depth : Z)
    (isMaximizing : bool) : option (Num * list CellValue) :=
  match fuel with
  | 0%nat => None
  | S fuel' =>
      match checkWinner board with
      | Some (Won O) => Some (Fin (10 - depth), board)  (* AI wins *)
      | Some (Won X) => Some (Fin (depth - 10), board)  (* Player wins *)
      | Some draw => Some (Fin 0, board)
      | None =>
          if isMaximizing then
            minimax_loop O max
              (fun board => minimax fuel' board (depth + 1) false)
              9 0 NegInfinity board
          else
            minimax_loop X min
              (fun board => minimax fuel' board (depth + 1) true)
              9 0 Infinity board
      end
  end.

(** [board.map((val, idx) => (val === null ? idx : null))
         .filter((val) => val !== null)] *)
Definition availableMoves (board : list CellValue) : list nat :=
  omap id (imap (fun idx val => if strict_eq val null then Some idx else None)
             board).

(** [availableMoves[k]] as a number, [None] standing for [undefined]. *)
Definition move_at (moves : list nat) (k : Z) : option Z :=
  if k <? 0 then None else Z.of_nat <$> moves !! Z.to_nat k.

(** The two [for (const move of availableMoves)] loops of the MEDIUM
    branch: the first move with which [mark] wins at once. *)
Fixpoint winning_move (mark : PlayerSymbol) (moves : list nat)
    (board : list CellValue) : option nat :=
  match moves with
  | [] => None
  | move :: rest =>
      let copy := set board move (Sym mark) in
      if bool_decide (checkWinner copy = Some (Won mark)) then Some move
      else winning_move mark rest board
  end.

(** The [for (let i = 0; i < 9; i++)] loop of the HARD branch, with
    [todo] iterations left; [move] is [-1] until a score is kept. *)
Fixpoint hard_loop (fuel : nat) (todo i : nat) (bestScore : Num) (move : Z)
    (board : list CellValue) : option (Z * list CellValue) :=
  match todo with
  | 0%nat => Some (move, board)
  | S todo' =>
      if strict_eq (get board i) null then
        let board := set board i (Sym O) in
        match minimax fuel board 0 false with
        | None => None
        | Some (score, board) =>
            let board := set board i null in
            if gt score bestScore
            then hard_loop fuel todo' (S i) score (Z.of_nat i) board
            else hard_loop fuel todo' (S i) bestScore move board
        end
      else hard_loop fuel todo' (S i) bestScore move board
  end.

(** The result is the number returned ([None] for [undefined]) and the
    board array as the call leaves it; the outer [option] is [None] when
    [fuel] does not suffice for [minimax]. *)
Definition getBestMove (fuel : nat) (board : list CellValue)
    (difficulty : Difficulty) (random : nat -> Q)
    : option (option Z * list CellValue) :=
  let availableMoves := availableMoves board in
  if (length availableMoves =? 0)%nat then Some (Some (-1), board)
  else
    match difficulty with
    | EASY =>
        (* EASY: Random Move *)
        let randomIndex := floor_times (random 0%nat) (length availableMoves) in
        Some (move_at availableMoves randomIndex, board)
    | MEDIUM =>
        (* MEDIUM: Block or Win, else Random *)
        match winning_move O availableMoves board with
        | Some move => Some (Some (Z.of_nat move), board)
        | None =>
            match winning_move X availableMoves board with
            | Some move => Some (Some (Z.of_nat move), board)
            | None =>
                let randomIndex :=
                  floor_times (random 0%nat) (length availableMoves) in
                Some (move_at availableMoves randomIndex, board)
            end
        end
    | HARD =>
        (* HARD: Minimax *)
        if (8 <=? length availableMoves)%nat && strict_eq (get board 4) null
        then Some (Some 4, board)
        else
          match hard_loop fuel 9 0 NegInfinity (-1) board with
          | None => None
          | Some (move, board) =>
              Some (if negb (move =? -1) then Some move
                    else move_at availableMoves 0, board)
          end
    end.

End ai.

(* ===================================================================== *)
(** ** The tic-tac-toe App component: match controller and synchronizer *)
(* ===================================================================== *)

(** The component state is the record [App]: the [useState] cells the
    controller reads or writes and the [hasTransitionedToGameRef] ref.
    Score, visitor counter and modal state play no part in the functions
    below and are left out.  A handler takes the state of the render it was
    created in and returns the state after its updates, the store handle
    and the effects it triggered, in order. *)

Module App.
Import types rtdb constants js.

Inductive View : Set :=
  LANDING | MODE_SELECT | ONLINE_MENU | CREATE_ROOM | JOIN_ROOM | LOBBY | GAME.

#[global] Instance View_eq_dec : EqDecision View.
Proof. solve_decision. Defined.

Record App : Type := mkApp {
  view : View;
  gameMode : GameMode;
  difficulty : Difficulty;
  soundEnabled : bool;
  (* Game State *)
  board : list CellValue;
  currentTurn : PlayerSymbol;
  winner : option Winner;
  winningLine : option Combo;
  (* Players *)
  player1Name : string;
  player2Name : string;
  (* Online Specific *)
  roomCode : string;
  mySymbol : option PlayerSymbol;
  opponentConnected : bool;
  isProcessing : bool;
  errorMsg : string;
  (* Refs *)
  hasTransitionedToGameRef : bool
}.

Inductive Effect : Set :=
| playSound (sound : string)
| alert (msg : string)
| setTimeout_autoTransition (ms : Z).  (* the timer armed by the room listener *)

#[global] Instance Effect_eq_dec : EqDecision Effect.
Proof. solve_decision. Defined.

Definition setView (f : View -> View) (s : App) : App :=
  mkApp (f (view s)) (gameMode s) (difficulty s) (soundEnabled s) (board s)
    (currentTurn s) (winner s) (winningLine s) (player1Name s) (player2Name s)
    (roomCode s) (mySymbol s) (opponentConnected s) (isProcessing s)
    (errorMsg s) (hasTransitionedToGameRef s).

Definition setGameMode (v : GameMode) (s : App) : App :=
  mkApp (view s) v (difficulty s) (soundEnabled s) (board s)
    (currentTurn s) (winner s) (winningLine s) (player1Name s) (player2Name s)
    (roomCode s) (mySymbol s) (opponentConnected s) (isProcessing s)
    (errorMsg s) (hasTransitionedToGameRef s).

Definition setBoard (v : list CellValue) (s : App) : App :=
  mkApp (view s) (gameMode s) (difficulty s) (soundEnabled s) v
    (currentTurn s) (winner s) (winningLine s) (player1Name s) (player2Name s)
    (roomCode s) (mySymbol s) (opponentConnected s) (isProcessing s)
    (errorMsg s) (hasTransitionedToGameRef s).

Definition setCurrentTurn (v : PlayerSymbol) (s : App) : App :=
  mkApp (view s) (gameMode s) (difficulty s) (soundEnabled s) (board s)
    v (winner s) (winningLine s) (player1Name s) (player2Name s)
    (roomCode s) (mySymbol s) (opponentConnected s) (isProcessing s)
    (errorMsg s) (hasTransitionedToGameRef s).

Definition setWinner (v : option Winner) (s : App) : App :=
  mkApp (view s) (gameMode s) (difficulty s) (soundEnabled s) (board s)
    (currentTurn s) v (winningLine s) (player1Name s) (player2Name s)
    (roomCode s) (mySymbol s) (opponentConnected s) (isProcessing s)
    (errorMsg s) (hasTransitionedToGameRef s).

Definition setWinningLine (v : option Combo) (s : App) : App :=
  mkApp (view s) (gameMode s) (difficulty s) (soundEnabled s) (board s)
    (currentTurn s) (winner s) v (player1Name s) (player2Name s)
    (roomCode s) (mySymbol s) (opponentConnected s) (isProcessing s)
    (errorMsg s) (hasTransitionedToGameRef s).

Definition setPlayer1Name (v : string) (s : App) : App :=
  mkApp (view s) (gameMode s) (difficulty s) (soundEnabled s) (board s)
    (currentTurn s) (winner s) (winningLine s) v (player2Name s)
    (roomCode s) (mySymbol s) (opponentConnected s) (isProcessing s)
    (errorMsg s) (hasTransitionedToGameRef s).

Definition setPlayer2Name (v : string) (s : App) : App :=
  mkApp (view s) (gameMode s) (difficulty s) (soundEnabled s) (board s)
    (currentTurn s) (winner s) (winningLine s) (player1Name s) v
    (roomCode s) (mySymbol s) (opponentConnected s) (isProcessing s)
    (errorMsg s) (hasTransitionedToGameRef s).

Definition setRoomCode (v : string) (s : App) : App :=
  mkApp (view s) (gameMode s) (difficulty s) (soundEnabled s) (board s)
    (currentTurn s) (winner s) (winningLine s) (player1Name s) (player2Name s)
    v (mySymbol s) (opponentConnected s) (isProcessing s)
    (errorMsg s) (hasTransitionedToGameRef s).

Definition setMySymbol (v : option PlayerSymbol) (s : App) : App :=
  mkApp (view s) (gameMode s) (difficulty s) (soundEnabled s) (board s)
    (currentTurn s) (winner s) (winningLine s) (player1Name s) (player2Name s)
    (roomCode s) v (opponentConnected s) (isProcessing s)
    (errorMsg s) (hasTransitionedToGameRef s).

Definition setOpponentConnected (v : bool) (s : App) : App :=
  mkApp (view s) (gameMode s) (difficulty s) (soundEnabled s) (board s)
    (currentTurn s) (winner s) (winningLine s) (player1Name s) (player2Name s)
    (roomCode s) (mySymbol s) v (isProcessing s)
    (errorMsg s) (hasTransitionedToGameRef s).

Definition setIsProcessing (v : bool) (s : App) : App :=
  mkApp (view s) (gameMode s) (difficulty s) (soundEnabled s) (board s)
    (currentTurn s) (winner s) (winningLine s) (player1Name s) (player2Name s)
    (roomCode s) (mySymbol s) (opponentConnected s) v
    (errorMsg s) (hasTransitionedToGameRef s).

Definition setErrorMsg (v : string) (s : App) : App :=
  mkApp (view s) (gameMode s) (difficulty s) (soundEnabled s) (board s)
    (currentTurn s) (winner s) (winningLine s) (player1Name s) (player2Name s)
    (roomCode s) (mySymbol s) (opponentConnected s) (isProcessing s)
    v (hasTransitionedToGameRef s).

(** [hasTransitionedToGameRef.current = v] *)
Definition set_hasTransitionedToGameRef (v : bool) (s : App) : App :=
  mkApp (view s) (gameMode s) (difficulty s) (soundEnabled s) (board s)
    (currentTurn s) (winner s) (winningLine s) (player1Name s) (player2Name s)
    (roomCode s) (mySymbol s) (opponentConnected s) (isProcessing s)
    (errorMsg s) v.

(** What [checkGameStatus] returns when it does not return [null]. *)
Record Status : Set := mkStatus {
  st_winner : Winner;
  st_line : option Combo
}.

(** The [for (const combo of WINNING_COMBINATIONS)] loop of
    [checkGameStatus]: the first combination whose three cells are truthy
    and equal, with the symbol found there. *)
Fixpoint checkGameStatus_loop (combos : list Combo)
    (currentBoard : list CellValue) : option Status :=
  match combos with
  | [] => None
  | (a, b, c) :: rest =>
      match get currentBoard a with
      | Sym s =>
          if strict_eq (get currentBoard a) (get currentBoard b)
             && strict_eq (get currentBoard a) (get currentBoard c)
          then Some {| st_winner := Won s; st_line := Some (a, b, c) |}
          else checkGameStatus_loop rest currentBoard
      | _ => checkGameStatus_loop rest currentBoard
      end
  end.

(* Check Win/Draw *)
Definition checkGameStatus (currentBoard : list CellValue) : option Status :=
  match checkGameStatus_loop WINNING_COMBINATIONS currentBoard with
  | Some r => Some r
  | None =>
      if negb (includes currentBoard null)
      then Some {| st_winner := draw; st_line := None |}
      else None
  end.

Definition resetBoard (s : App) : App :=
  setWinningLine None (setWinner None (setCurrentTurn X (setBoard EMPTY_BOARD s))).

Definition handleMove (s : App) (db : option Database) (now : Z) (index : nat)
    : App * option Database * list Effect :=
  if truthy (get (board s) index) || bool_decide (winner s <> None)
  then (s, db, [])
  else
  (* Enforce Turn for Online *)
  if bool_decide (gameMode s = ONLINE)
     && negb (bool_decide (Some (currentTurn s) = mySymbol s))
  then (s, db, [])
  else
  if bool_decide (gameMode s = ONLINE) && negb (opponentConnected s)
  then (s, db, [])
  else
    let sound := if soundEnabled s then [playSound "move"] else [] in
    let newBoard := set (board s) index (Sym (currentTurn s)) in
    (* Check Win *)
    let result := checkGameStatus newBoard in
    let nextTurn := match currentTurn s with X => O | O => X end in
    if bool_decide (gameMode s = ONLINE) then
      (* For online mode, ONLY update Firebase - let the listener update
         local state *)
      let '(_, db) :=
        firebase.updateGameState db now (roomCode s) newBoard nextTurn
          (st_winner <$> result) in
      (s, db, sound)
    else
      (* For local/single player, update state directly *)
      let s := setBoard newBoard s in
      let s :=
        match result with
        | Some r => setWinningLine (st_line r) (setWinner (Some (st_winner r)) s)
        | None => setCurrentTurn nextTurn s
        end in
      (s, db, sound).

Definition handlePlayAgain (s : App) (db : option Database) (now : Z)
    : App * option Database * list Effect :=
  let s' := resetBoard s in
  if bool_decide (gameMode s = ONLINE) then
    (* whoever clicks play again resets the board for both *)
    let '(_, db) :=
      firebase.updateGameState db now (roomCode s) EMPTY_BOARD X None in
    (s', db, [playSound "click"])
  else (s', db, [playSound "click"]).

(** The [for ... break] loop of the room listener: the first combination
    with three equal truthy cells, if any. *)
Fixpoint first_line (combos : list Combo) (board : list CellValue)
    : option Combo :=
  match combos with
  | [] => None
  | (a, b, c) :: rest =>
      if truthy (get board a)
         && strict_eq (get board a) (get board b)
         && strict_eq (get board a) (get board c)
      then Some (a, b, c)
      else first_line rest board
  end.

(** The callback given to [subscribeToRoom], run on one snapshot [data].
    [s] carries the [mySymbol] of the render that subscribed. *)
Definition onRoomData (s : App) (data : RoomData) : App * list Effect :=
  (* data.board || EMPTY_BOARD : an array is truthy *)
  let s := setBoard (types.board data) s in
  let s := setCurrentTurn (types.currentTurn data) s in
  (* Check for player connection status *)
  let isP1 := bool_decide (mySymbol s = Some X) in
  let opponent :=
    if isP1 then player2 (players data) else player1 (players data) in
  let me :=
    if isP1 then player1 (players data) else player2 (players data) in
  let s := setOpponentConnected (joined opponent) s in
  (* Sync player names *)
  let s :=
    if isP1
    then setPlayer2Name (if joined opponent then name opponent
                         else "Waiting...") s
    else setPlayer2Name (name me)
           (setPlayer1Name (name (player1 (players data))) s) in
  (* Sync Winner *)
  let s :=
    match types.winner data with
    | Some w =>
        let s := setWinner (Some w) s in
        match w with
        | Won _ =>
            (* Recalculate line locally for visual *)
            match first_line WINNING_COMBINATIONS (types.board data) with
            | Some combo => setWinningLine (Some combo) s
            | None => s
            end
        | draw => setWinningLine None s
        end
    | None => setWinningLine None (setWinner None s)
    end in
  (* Auto-start game if waiting in lobby and opponent joins;
     only transition once *)
  let '(s, timers) :=
    if negb (hasTransitionedToGameRef s) && joined (player2 (players data))
    then (set_hasTransitionedToGameRef true s, [setTimeout_autoTransition 500])
    else (s, []) in
  (* Handle opponent disconnect during game *)
  let s :=
    setErrorMsg
      (match types.winner data with
       | Some _ => ""
       | None => if negb (joined opponent) then "Opponent disconnected" else ""
       end) s in
  (s, timers).

(** The callback armed by [setTimeout_autoTransition], when its timer fires. *)
Definition autoTransition (s : App) : App :=
  setView (fun currentView =>
             if bool_decide (currentView = LOBBY) then GAME else currentView) s.

Definition handleCreateRoom (s : App) (db : option Database)
    (random : nat -> Q) (now : Z) : App * option Database * list Effect :=
  let s := setIsProcessing true s in
  match firebase.createRoom db random now
          (if bool_decide (player1Name s = "") then "Player 1"
           else player1Name s) with
  | (Returned code, db) =>
      let s := setRoomCode code s in
      let s := setMySymbol (Some X) s in
      let s := setGameMode ONLINE s in
      let s := setPlayer2Name "Waiting..." s in
      let s := resetBoard s in
      let s := set_hasTransitionedToGameRef false s in  (* Reset transition flag *)
      let s := setView (fun _ => LOBBY) s in
      (setIsProcessing false s, db, [])
  | (Thrown _, db) =>
      (setIsProcessing false s, db,
       [alert "Error creating room. Check connection."])
  end.

End App.

(* ===================================================================== *)
(** ** App.tsx at the repository root *)
(* ===================================================================== *)

(** The repository keeps an older copy of the component at its root.  Its
    state cells are those of [App.App]; its [handleMove] differs from the
    one above in the order of its updates. *)

Module RootApp.
Import types rtdb constants js.
Import App.

Definition handleMove (s : App) (db : option Database) (now : Z) (index : nat)
    : App * option Database * list Effect :=
  if truthy (get (board s) index) || bool_decide (winner s <> None)
  then (s, db, [])
  else
  (* Enforce Turn for Online *)
  if bool_decide (gameMode s = ONLINE)
     && negb (bool_decide (Some (currentTurn s) = mySymbol s))
  then (s, db, [])
  else
  if bool_decide (gameMode s = ONLINE) && negb (opponentConnected s)
  then (s, db, [])
  else
    let sound := if soundEnabled s then [playSound "move"] else [] in
    let newBoard := set (board s) index (Sym (currentTurn s)) in
    (* Local Optimistic Update (will be overwritten by DB in online, but
       feels snappier) *)
    let s' := setBoard newBoard s in
    (* Check Win *)
    let result := checkGameStatus newBoard in
    let nextTurn := match currentTurn s with X => O | O => X end in
    match result with
    | Some r =>
        let s' := setWinningLine (st_line r) (setWinner (Some (st_winner r)) s') in
        if bool_decide (gameMode s = ONLINE) then
          let '(_, db) :=
            firebase.updateGameState db now (roomCode s) newBoard nextTurn
              (Some (st_winner r)) in
          (s', db, sound)
        else (s', db, sound)
    | None =>
        let s' := setCurrentTurn nextTurn s' in
        if bool_decide (gameMode s = ONLINE) then
          let '(_, db) :=
            firebase.updateGameState db now (roomCode s) newBoard nextTurn
              None in
          (s', db, sound)
        else (s', db, sound)
    end.

End RootApp.

(* ===================================================================== *)
(** ** Vocabulary of the properties *)
(* ===================================================================== *)

Module Spec.
Import types rtdb constants js.

(** A board as the type [CellValue[]] of the game has it: nine cells, each
    ['X'], ['O'] or [null]. *)
Definition well_formed (board : list CellValue) : Prop :=
  length board = 9%nat /\ Forall (fun v => v <> undefined) board.

(** The three cells of [combo] all hold the symbol [s]. *)
Definition line_of (board : list CellValue) (combo : Combo) (s : PlayerSymbol)
    : Prop :=
  let '(a, b, c) := combo in
  get board a = Sym s /\ get board b = Sym s /\ get board c = Sym s.

(** The three cells of [combo] hold the same non-empty symbol. *)
Definition complete (board : list CellValue) (combo : Combo) : Prop :=
  exists s, line_of board combo s.

Definition occupied (board : list CellValue) (i : nat) : Prop :=
  exists s, get board i = Sym s.

Definition other (t : PlayerSymbol) : PlayerSymbol :=
  match t with X => O | O => X end.

Definition rows : list Combo :=
  map (fun r => (3 * r, 3 * r + 1, 3 * r + 2)%nat) [0; 1; 2]%nat.
Definition columns : list Combo :=
  map (fun c => (c, c + 3, c + 6)%nat) [0; 1; 2]%nat.
Definition diagonals : list Combo := [(0, 4, 8); (2, 4, 6)]%nat.

(** Number of [null] cells of a board. *)
Definition count_null (board : list CellValue) : nat :=
  length (filter (fun v => v = null) board).

(** The fields of a room document other than the [joined] leaf of [k]. *)
Definition same_except_joined (k : PlayerKey) (d d' : RoomDoc) : Prop :=
  d_status d' = d_status d /\ d_board d' = d_board d
  /\ d_currentTurn d' = d_currentTurn d /\ d_winner d' = d_winner d
  /\ d_lastMoveTimestamp d' = d_lastMoveTimestamp d
  /\ d_name (d_player1 d') = d_name (d_player1 d)
  /\ d_symbol (d_player1 d') = d_symbol (d_player1 d)
  /\ d_name (d_player2 d') = d_name (d_player2 d)
  /\ d_symbol (d_player2 d') = d_symbol (d_player2 d)
  /\ match k with
     | key_player1 => d_joined (d_player2 d') = d_joined (d_player2 d)
     | key_player2 => d_joined (d_player1 d') = d_joined (d_player1 d)
     end.

(** The invariant of the data model: a winner implies a finished room. *)
Definition winner_implies_finished (d : RoomDoc) : Prop :=
  d_winner d <> None -> d_status d = Some FINISHED.

(** Number of auto-transition timers among the effects of a handler. *)
Definition signals (effects : list App.Effect) : nat :=
  length (filter (fun e => e = App.setTimeout_autoTransition 500) effects).

(** What can happen to the component while it is subscribed to a room: a
    snapshot arrives, a square or the play-again button is clicked, or an
    auto-transition timer fires. *)
Inductive Event : Set :=
| Snapshot (data : RoomData)
| Click (index : nat) (now : Z)
| PlayAgain (now : Z)
| TimerFired.

Definition step (s : App.App) (db : option Database) (e : Event)
    : App.App * option Database * list App.Effect :=
  match e with
  | Snapshot data =>
      let '(s, effects) := App.onRoomData s data in (s, db, effects)
  | Click index now => App.handleMove s db now index
  | PlayAgain now => App.handlePlayAgain s db now
  | TimerFired => (App.autoTransition s, db, [])
  end.

(** The events of a subscription, oldest first, with the effects
    accumulated in order. *)
Fixpoint run (s : App.App) (db : option Database) (events : list Event)
    : App.App * option Database * list App.Effect :=
  match events with
  | [] => (s, db, [])
  | e :: rest =>
      let '(s, db, effects) := step s db e in
      let '(s, db, effects') := run s db rest in
      (s, db, effects ++ effects')
  end.

(** The event is a snapshot in which [player2.joined] is [true]. *)
Definition reports_joined (e : Event) : bool :=
  match e with
  | Snapshot data => joined (player2 (players data))
  | _ => false
  end.

End Spec.

(* ===================================================================== *)
(** ** Sample states *)
(* ===================================================================== *)

Module Samples.
Import types rtdb constants js.

(** A same-device match in which X is about to complete the top row. *)
Definition local_match : App.App :=
  {| App.view := App.GAME; App.gameMode := LOCAL; App.difficulty := MEDIUM;
     App.soundEnabled := true;
     App.board := [Sym X; Sym X; null; Sym O; Sym O; null; null; null; null];
     App.currentTurn := X; App.winner := None; App.winningLine := None;
     App.player1Name := "Ann"; App.player2Name := "Bob";
     App.roomCode := ""; App.mySymbol := None;
     App.opponentConnected := false; App.isProcessing := false;
     App.errorMsg := ""; App.hasTransitionedToGameRef := false |}.

(** The creator of room ABCD, playing X online, opponent present, before
    the first move. *)
Definition online_match : App.App :=
  {| App.view := App.GAME; App.gameMode := ONLINE; App.difficulty := MEDIUM;
     App.soundEnabled := false;
     App.board := EMPTY_BOARD;
     App.currentTurn := X; App.winner := None; App.winningLine := None;
     App.player1Name := "Ann"; App.player2Name := "Bob";
     App.roomCode := "ABCD"; App.mySymbol := Some X;
     App.opponentConnected := true; App.isProcessing := false;
     App.errorMsg := ""; App.hasTransitionedToGameRef := true |}.

Definition empty_store : Database :=
  {| rooms := ∅; onDisconnect := []; listeners := []; journal := [] |}.

(** Room ABCD as [createRoom] leaves it, then joined by Bob. *)
Definition room_ABCD : RoomData :=
  {| status := PLAYING;
     players :=
       {| player1 := {| name := "Ann"; symbol := X; joined := true |};
          player2 := {| name := "Bob"; symbol := O; joined := true |} |};
     board := EMPTY_BOARD;
     currentTurn := X;
     winner := None;
     lastMoveTimestamp := Some 1000 |}.

Definition store_ABCD : Database :=
  {| rooms := {[ "ABCD" := room_doc room_ABCD ]};
     onDisconnect := []; listeners := []; journal := [] |}.

(** A store holding only room WXYZ, created by Ann and still waiting. *)
Definition store_WXYZ : Database :=
  rtdb.set empty_store "WXYZ" (firebase.initialData "Ann" 1000).

(** Draws of [Math.random()]: 0, 1/4, 1/2, 3/4, then 0 again. *)
Definition draws (i : nat) : Q :=
  match i with
  | 0%nat => 0
  | 1%nat => 1 # 4
  | 2%nat => 1 # 2
  | 3%nat => 3 # 4
  | _ => 0
  end%Q.

End Samples.

(* ===================================================================== *)
(** ** The other handlers of the tic-tac-toe App *)
(* ===================================================================== *)

Module AppHandlers.
Import types rtdb constants js.
Import App.

(** The [disabled] attribute the board gives to the square of cell [idx]. *)
Definition squareDisabled (s : App) (idx : nat) : bool :=
  truthy (get (board s) idx)
  || bool_decide (winner s <> None)
  || (bool_decide (gameMode s = ONLINE)
      && negb (bool_decide (Some (currentTurn s) = mySymbol s)))
  || (bool_decide (gameMode s = SINGLE) && bool_decide (currentTurn s = O)).

(** A click on the square of cell [idx]: the board renders one square per
    cell of [board], and a disabled button dispatches no click. *)
Definition clickSquare (s : App) (db : option Database) (now : Z) (idx : nat)
    : App * option Database * list Effect :=
  if (idx <? length (board s))%nat && negb (squareDisabled s idx)
  then handleMove s db now idx
  else (s, db, []).

(** The AI turn effect: when its condition holds a timer is armed, and this
    is what happens when the timer fires.  [None] when [fuel] does not
    suffice for [getBestMove], and when [getBestMove] yields [undefined],
    which the source would pass on to [handleMove] and the index type of
    [handleMove] here does not represent. *)
Definition aiTurn (fuel : nat) (s : App) (db : option Database) (now : Z)
    (random : nat -> Q) : option (App * option Database * list Effect) :=
  if bool_decide (gameMode s = SINGLE) && bool_decide (currentTurn s = O)
     && bool_decide (winner s = None) && bool_decide (view s = GAME)
  then
    match ai.getBestMove fuel (board s) (difficulty s) random with
    | Some (Some aiMove, board') =>
        let s := setBoard board' s in
        if negb (aiMove =? -1) then Some (handleMove s db now (Z.to_nat aiMove))
        else Some (s, db, [])
    | _ => None
    end
  else Some (s, db, []).

Definition difficulty_name (d : Difficulty) : string :=
  match d with EASY => "EASY" | MEDIUM => "MEDIUM" | HARD => "HARD" end.

Definition startGame (s : App) (mode : GameMode) : App * list Effect :=
  let s' := setGameMode mode s in
  match mode with
  | SINGLE =>
      let s' := setPlayer1Name "You" s' in
      let s' := setPlayer2Name ("AI (" +:+ difficulty_name (difficulty s) +:+ ")") s' in
      let s' := resetBoard s' in
      let s' := setMySymbol (Some X) s' in
      (setView (fun _ => GAME) s', [playSound "click"])
  | LOCAL => (setView (fun _ => MODE_SELECT) s', [playSound "click"])
  | ONLINE => (s', [playSound "click"])
  end.

(** Room codes are typed by the user; their length is counted in
    characters, which for the codes of [generateRoomCode] are bytes. *)
Definition handleJoinRoom (s : App) (db : option Database)
    : App * option Database * list Effect :=
  if negb (String.length (roomCode s) =? 4)%nat
  then (setErrorMsg "Invalid Code" s, db, [])
  else
    let s' := setErrorMsg "" (setIsProcessing true s) in
    match firebase.joinRoom db (roomCode s)
            (if bool_decide (player1Name s = "") then "Player 2"
             else player1Name s) with
    | (Returned true, db) =>
        let s' := setMySymbol (Some O) s' in
        let s' := setGameMode ONLINE s' in
        let s' := resetBoard s' in
        let s' := setView (fun _ => GAME) s' in
        (setIsProcessing false s', db, [])
    | (Returned false, db) =>
        (setIsProcessing false (setErrorMsg "Room not found or full" s'), db, [])
    | (Thrown _, db) =>
        (setIsProcessing false (setErrorMsg "Connection error" s'), db, [])
    end.

Definition goBack (s : App) (db : option Database)
    : App * option Database * list Effect :=
  let db :=
    if (bool_decide (view s = GAME) || bool_decide (view s = LOBBY))
       && bool_decide (gameMode s = ONLINE)
    then (firebase.leaveRoom db (roomCode s)
            (bool_decide (mySymbol s = Some X))).2
    else db in
  let s' := setView (fun _ => LANDING) s in
  let s' := setRoomCode "" s' in
  let s' := setBoard EMPTY_BOARD s' in
  let s' := setWinner None s' in
  (s', db, [playSound "click"]).

(** How a run of the room listener ends: it returns, or it throws, the
    setters called before the throw having taken effect. *)
Inductive Callback : Type :=
| Completed (s : App) (effects : list Effect)
| Threw (s : App).

Definition callback_state (c : Callback) : App :=
  match c with
  | Completed s _ | Threw s => s
  end.

(** [data] with [board] in place of its board. *)
Definition with_board (board : list CellValue) (data : RoomData) : RoomData :=
  mkRoomData (status data) (players data) board (types.currentTurn data)
    (types.winner data) (lastMoveTimestamp data).

(** The room listener on a snapshot whose [board] may be missing:
    [data_board] is [data.board], [None] when it is [undefined], and [data]
    gives the other fields.  With a board the run is [onRoomData].  Without
    one, [data.board || EMPTY_BOARD] is [EMPTY_BOARD]; nothing else reads
    the board unless the winner is a symbol, and then the first
    [data.board[a]] of the line scan throws a TypeError, after
    [setWinner]. *)
Definition onRoomSnapshot (s : App) (data_board : option (list CellValue))
    (data : RoomData) : Callback :=
  match data_board with
  | Some board =>
      let '(s, timers) := onRoomData s (with_board board data) in
      Completed s timers
  | None =>
      match types.winner data with
      | Some (Won w) =>
          let s := setBoard EMPTY_BOARD s in
          let s := setCurrentTurn (types.currentTurn data) s in
          (* Check for player connection status *)
          let isP1 := bool_decide (mySymbol s = Some X) in
          let opponent :=
            if isP1 then player2 (players data) else player1 (players data) in
          let me :=
            if isP1 then player1 (players data) else player2 (players data) in
          let s := setOpponentConnected (joined opponent) s in
          (* Sync player names *)
          let s :=
            if isP1
            then setPlayer2Name (if joined opponent then name opponent
                                 else "Waiting...") s
            else setPlayer2Name (name me)
                   (setPlayer1Name (name (player1 (players data))) s) in
          (* Sync Winner *)
          Threw (setWinner (Some (Won w)) s)
      | _ =>
          let '(s, timers) := onRoomData s (with_board EMPTY_BOARD data) in
          Completed s timers
      end
  end.

End AppHandlers.

(* ===================================================================== *)
(** ** The room listener of App.tsx at the repository root *)
(* ===================================================================== *)

Module RootListener.
Import types rtdb constants js.
Import App.

Inductive Timer : Set :=
| setTimeout_setView_GAME (ms : Z).   (* setTimeout(() => setView('GAME'), ms) *)

(** The callback the older copy gives to [subscribeToRoom], run on one
    snapshot [data]; [s] is the state of the render that subscribed, whose
    [view] and [mySymbol] the callback has captured. *)
Definition onRoomData (s : App) (data : RoomData) : App * list Timer :=
  (* Sync Board & Turn; an array is truthy *)
  let s' := setBoard (types.board data) s in
  let s' := setCurrentTurn (types.currentTurn data) s' in
  (* Check for player connection status *)
  let isP1 := bool_decide (mySymbol s = Some X) in
  let opponent :=
    if isP1 then player2 (players data) else player1 (players data) in
  let s' := setOpponentConnected (joined opponent) s' in
  (* Sync Winner *)
  let s' :=
    match types.winner data with
    | Some w =>
        let s' := setWinner (Some w) s' in
        match w with
        | Won _ =>
            match checkGameStatus (types.board data) with
            | Some res => setWinningLine (st_line res) s'
            | None => s'
            end
        | draw => s'
        end
    | None => setWinningLine None (setWinner None s')
    end in
  (* Auto-start game if waiting in lobby and opponent joins *)
  let timers :=
    if bool_decide (view s = LOBBY) && joined (player2 (players data))
    then [setTimeout_setView_GAME 1000] else [] in
  (* Handle opponent disconnect during game *)
  let s' :=
    if bool_decide (view s = GAME) && negb (joined opponent)
       && bool_decide (types.winner data = None)
    then setErrorMsg "Opponent disconnected" s'
    else setErrorMsg "" s' in
  (s', timers).

End RootListener.

(* ===================================================================== *)
(** ** Offline play: events and invariants *)
(* ===================================================================== *)

Module Play.
Import types rtdb constants js.

(** What drives an offline match: a click on a square, or the timer of the
    AI turn effect firing, with the draws [Math.random] will give it. *)
Inductive Event : Type :=
| HumanClick (idx : nat)
| AiTimer (random : nat -> Q).

Definition step (fuel : nat) (db : option Database) (now : Z) (s : App.App)
    (e : Event) : option App.App :=
  match e with
  | HumanClick idx => Some (AppHandlers.clickSquare s db now idx).1.1
  | AiTimer random =>
      (fun r => r.1.1) <$> AppHandlers.aiTurn fuel s db now random
  end.

(** The events of a match, oldest first; [None] when [fuel] did not
    suffice for one of the AI turns. *)
Fixpoint run (fuel : nat) (db : option Database) (now : Z) (s : App.App)
    (events : list Event) : option App.App :=
  match events with
  | [] => Some s
  | e :: rest =>
      match step fuel db now s e with
      | Some s' => run fuel db now s' rest
      | None => None
      end
  end.

(** The draws of the AI timers all lie in [0, 1). *)
Definition draws_in_range (events : list Event) : Prop :=
  Forall (fun e => match e with
                   | AiTimer random => (0 <= random 0%nat < 1)%Q
                   | HumanClick _ => True
                   end) events.

(** Number of cells holding [sym]. *)
Definition count_sym (sym : PlayerSymbol) (board : list CellValue) : nat :=
  length (filter (fun v => v = Sym sym) board).

(** The match state as [resetBoard] leaves it. *)
Definition fresh (s : App.App) : Prop :=
  App.board s = EMPTY_BOARD /\ App.currentTurn s = X
  /\ App.winner s = None /\ App.winningLine s = None.

(** The recorded result agrees with the board, and the marks are
    balanced: X has as many marks as O or one more, and while the match is
    in progress the difference tells whose turn it is. *)
Definition consistent (s : App.App) : Prop :=
  length (App.board s) = 9%nat
  /\ Forall (fun v => v <> undefined) (App.board s)
  /\ App.winner s = App.st_winner <$> App.checkGameStatus (App.board s)
  /\ App.winningLine s
     = match App.checkGameStatus (App.board s) with
       | Some r => App.st_line r
       | None => None
       end
  /\ (count_sym O (App.board s) <= count_sym X (App.board s)
      <= count_sym O (App.board s) + 1)%nat
  /\ (App.winner s = None ->
      count_sym X (App.board s)
      = (count_sym O (App.board s)
         + match App.currentTurn s with X => 0 | O => 1 end)%nat).

(** [s'] is [s] after the mover's symbol went into the empty cell [i]. *)
Definition moved (s s' : App.App) (i : nat) : Prop :=
  get (App.board s) i = null
  /\ App.winner s = None
  /\ App.board s' = set (App.board s) i (Sym (App.currentTurn s))
  /\ App.winner s' = App.st_winner <$> App.checkGameStatus (App.board s')
  /\ App.winningLine s'
     = match App.checkGameStatus (App.board s') with
       | Some r => App.st_line r
       | None => App.winningLine s
       end
  /\ App.currentTurn s'
     = match App.checkGameStatus (App.board s') with
       | Some _ => App.currentTurn s
       | None => match App.currentTurn s with X => O | O => X end
       end.

(** [s'] has the match state of [s]. *)
Definition idle (s s' : App.App) : Prop :=
  App.board s' = App.board s /\ App.winner s' = App.winner s
  /\ App.winningLine s' = App.winningLine s
  /\ App.currentTurn s' = App.currentTurn s.

Definition same_setup (s s' : App.App) : Prop :=
  App.gameMode s' = App.gameMode s /\ App.view s' = App.view s
  /\ App.difficulty s' = App.difficulty s.

(** Exhaustive look-ahead against the HARD opponent.  [human_to_move n b]
    holds when, X being to move on [b], no choice of empty cells by X leads
    to a win of X within [n] further rounds of X move and HARD reply;
    [reply_then k b] plays the HARD reply on [b] and, if the match goes on,
    continues with [k]. *)
Definition not_won_by_X (r : App.Status) : bool :=
  match App.st_winner r with
  | Won X => false
  | _ => true
  end.

Definition hard_reply (b : list CellValue) : option (list CellValue) :=
  match ai.getBestMove 9 b HARD (fun _ => 0%Q) with
  | Some (Some m, _) =>
      if m =? -1 then None else Some (set b (Z.to_nat m) (Sym O))
  | _ => None
  end.

Definition reply_then (k : list CellValue -> bool) (b1 : list CellValue)
    : bool :=
  match hard_reply b1 with
  | Some b2 =>
      match App.checkGameStatus b2 with
      | Some r => not_won_by_X r
      | None => k b2
      end
  | None => false
  end.

Fixpoint human_to_move (n : nat) (b : list CellValue) : bool :=
  match n with
  | 0%nat => false
  | S n' =>
      forallb
        (fun i =>
           if strict_eq (get b i) null then
             let b1 := set b i (Sym X) in
             match App.checkGameStatus b1 with
             | Some r => not_won_by_X r
             | None => reply_then (human_to_move n') b1
             end
           else true)
        (seq 0 9)
  end.

End Play.

(* ===================================================================== *)
(** ** Calls of the room repository, and room invariants *)
(* ===================================================================== *)

Module Repo.
Import types rtdb constants js.

(** One call of a function of services/firebase.ts, with its arguments
    and the values [Math.random] and [Date.now] give it. *)
Inductive Call : Type :=
| CreateRoom (random : nat -> Q) (now : Z) (playerName : string)
| JoinRoom (code playerName : string)
| SubscribeToRoom (code : string)
| UpdateGameState (now : Z) (code : string) (board : list CellValue)
    (nextTurn : PlayerSymbol) (winner : option Winner)
| LeaveRoom (code : string) (isPlayer1 : bool).

(** The store handle after the call. *)
Definition exec (db : option Database) (c : Call) : option Database :=
  match c with
  | CreateRoom random now playerName =>
      (firebase.createRoom db random now playerName).2
  | JoinRoom code playerName => (firebase.joinRoom db code playerName).2
  | SubscribeToRoom code => (firebase.subscribeToRoom db code).2
  | UpdateGameState now code board nextTurn winner =>
      (firebase.updateGameState db now code board nextTurn winner).2
  | LeaveRoom code isPlayer1 => (firebase.leaveRoom db code isPlayer1).2
  end.

(** A waiting room has no second player, and the slots keep their
    symbols: player1 is never O and player2 never X. *)
Definition room_invariant (doc : RoomDoc) : Prop :=
  (d_status doc = Some WAITING -> d_joined (d_player2 doc) = Some false)
  /\ d_symbol (d_player1 doc) <> Some O
  /\ d_symbol (d_player2 doc) <> Some X.

End Repo.

(* ===================================================================== *)
(** ** Snapshots seen by the listener of the root App.tsx *)
(* ===================================================================== *)

Module RootRun.
Import types rtdb constants js.

(** The listener of the older copy, subscribed in the render of state [s],
    run on successive snapshots, oldest first, no timer firing in between.
    Its state updates leave the captured [view] and [mySymbol] as they
    are, so the subscription is not renewed. *)
Fixpoint timers_armed (s : App.App) (snapshots : list RoomData)
    : list RootListener.Timer :=
  match snapshots with
  | [] => []
  | data :: rest =>
      let '(s', timers) := RootListener.onRoomData s data in
      timers ++ timers_armed s' rest
  end.

End RootRun.

(* ===================================================================== *)
(** ** The snake game: constants, canvas and App *)
(* ===================================================================== *)

(** games/snake/constants.ts, with the types the snake files import from
    a types module that is not among the sources: [Point] is a pair of
    coordinates and [GameStatus] has the four values the code uses. *)
Module snake.

Record Point : Set := mkPoint { x : Z; y : Z }.

#[global] Instance Point_eq_dec : EqDecision Point.
Proof. solve_decision. Defined.

Inductive GameStatus : Set := MENU | PLAYING | PAUSED | GAME_OVER.

#[global] Instance snake_GameStatus_eq_dec : EqDecision GameStatus.
Proof. solve_decision. Defined.

Definition GRID_SIZE : Z := 20.
Definition INITIAL_SPEED : Z := 150.  (* ms per move *)
Definition MIN_SPEED : Z := 50.
Definition SPEED_DECREMENT : Z := 5.
Definition FOOD_SCORE_VALUE : Z := 10.
Definition SPEED_UP_INTERVAL : Z := 5. (* Every 5 food items *)

Definition INITIAL_SNAKE : list Point :=
  [ {| x := 10; y := 10 |}; {| x := 9; y := 10 |}; {| x := 8; y := 10 |} ].

Definition INITIAL_DIRECTION : Point := {| x := 1; y := 0 |}. (* Moving Right *)

End snake.

(** components/GameCanvas.tsx: the refs of the game loop are the record
    [Canvas]; the props [status], [isSoundEnabled] and [difficulty] are
    arguments.  Drawing and scheduling are effects. *)
Module GameCanvas.
Import types js.
Import snake.

(* Difficulty settings *)
Record Settings : Set := mkSettings { S_INITIAL_SPEED : Z; S_MIN_SPEED : Z }.

Definition DIFFICULTY_SETTINGS (difficulty : Difficulty) : Settings :=
  match difficulty with
  | EASY => {| S_INITIAL_SPEED := 200; S_MIN_SPEED := 100 |}
  | MEDIUM => {| S_INITIAL_SPEED := 150; S_MIN_SPEED := 50 |}
  | HARD => {| S_INITIAL_SPEED := 100; S_MIN_SPEED := 30 |}
  end.

Record Canvas : Type := mkCanvas {
  snakeRef : list Point;
  foodRef : Point;
  directionRef : Point;
  nextDirectionRef : Point;
  speedRef : Z;
  scoreRef : Z;
  lastUpdateTimeRef : Q;
  foodEatenCountRef : Z;
  touchStartRef : option (Q * Q)
}.

Inductive Effect : Set :=
| playSound (sound : string)
| onScoreUpdate (score : Z)
| onGameOver (finalScore : Z)
| draw
| requestAnimationFrame
| cancelAnimationFrame.

(** The refs as [useRef] creates them when the component mounts. *)
Definition mount : Canvas :=
  {| snakeRef := INITIAL_SNAKE;
     foodRef := {| x := 15; y := 5 |};
     directionRef := INITIAL_DIRECTION;
     nextDirectionRef := INITIAL_DIRECTION; (* Queue for handling fast inputs *)
     speedRef := INITIAL_SPEED;
     scoreRef := 0;
     lastUpdateTimeRef := 0;
     foodEatenCountRef := 0;
     touchStartRef := None |}.

(** [segment.x === p.x && segment.y === p.y] *)
Definition same_cell (segment p : Point) : bool :=
  (x segment =? x p) && (y segment =? y p).

(** [getRandomPosition]: draws a cell until it is off the snake.  [k] is
    the number of draws made so far and comes back advanced; [None] when
    the loop has not ended after [fuel] rounds. *)
Fixpoint getRandomPosition (fuel : nat) (random : nat -> Q) (k : nat)
    (snake : list Point) : option (Point * nat) :=
  match fuel with
  | 0%nat => None
  | S fuel' =>
      let newPos :=
        {| x := Qfloor (random k * inject_Z GRID_SIZE);
           y := Qfloor (random (S k) * inject_Z GRID_SIZE) |} in
      if existsb (fun segment => same_cell segment newPos) snake
      then getRandomPosition fuel' random (S (S k)) snake
      else Some (newPos, S (S k))
  end.

Definition resetGame (fuel : nat) (random : nat -> Q)
    (difficulty : Difficulty) (c : Canvas) : option (Canvas * list Effect) :=
  match getRandomPosition fuel random 0 INITIAL_SNAKE with
  | None => None
  | Some (food, _) =>
      Some ({| snakeRef := INITIAL_SNAKE;
               foodRef := food;
               directionRef := INITIAL_DIRECTION;
               nextDirectionRef := INITIAL_DIRECTION;
               speedRef := S_INITIAL_SPEED (DIFFICULTY_SETTINGS difficulty);
               scoreRef := 0;
               lastUpdateTimeRef := lastUpdateTimeRef c;
               foodEatenCountRef := 0;
               touchStartRef := touchStartRef c |},
            [onScoreUpdate 0])
  end.

(* Input Handling *)
Definition handleDirectionChange (newDir : Point) (c : Canvas) : Canvas :=
  let currentDir := directionRef c in
  (* Prevent 180 degree turns and duplicates *)
  if (negb (x newDir =? 0) && negb (x currentDir =? 0))
     || (negb (y newDir =? 0) && negb (y currentDir =? 0))
  then c
  else {| snakeRef := snakeRef c; foodRef := foodRef c;
          directionRef := directionRef c; nextDirectionRef := newDir;
          speedRef := speedRef c; scoreRef := scoreRef c;
          lastUpdateTimeRef := lastUpdateTimeRef c;
          foodEatenCountRef := foodEatenCountRef c;
          touchStartRef := touchStartRef c |}.

Definition handleKeyDown (status : GameStatus) (key : string) (c : Canvas)
    : Canvas :=
  if negb (bool_decide (status = PLAYING)) then c
  else if bool_decide (key = "ArrowUp")
       then handleDirectionChange {| x := 0; y := -1 |} c
  else if bool_decide (key = "ArrowDown")
       then handleDirectionChange {| x := 0; y := 1 |} c
  else if bool_decide (key = "ArrowLeft")
       then handleDirectionChange {| x := -1; y := 0 |} c
  else if bool_decide (key = "ArrowRight")
       then handleDirectionChange {| x := 1; y := 0 |} c
  else c.

(* Touch Handling *)
(** A touch is its [clientX] and [clientY]. *)
Definition handleTouchStart (touch : Q * Q) (c : Canvas) : Canvas :=
  {| snakeRef := snakeRef c; foodRef := foodRef c;
     directionRef := directionRef c; nextDirectionRef := nextDirectionRef c;
     speedRef := speedRef c; scoreRef := scoreRef c;
     lastUpdateTimeRef := lastUpdateTimeRef c;
     foodEatenCountRef := foodEatenCountRef c;
     touchStartRef := Some touch |}.

(** [a > b] on numbers. *)
Definition Qgt_bool (a b : Q) : bool := negb (Qle_bool a b).

Definition handleTouchEnd (status : GameStatus) (touchEnd : Q * Q)
    (c : Canvas) : Canvas :=
  match touchStartRef c with
  | None => c
  | Some touchStart =>
      if negb (bool_decide (status = PLAYING)) then c
      else
        let dx := (touchEnd.1 - touchStart.1)%Q in
        let dy := (touchEnd.2 - touchStart.2)%Q in
        let c1 :=
          if Qgt_bool (Qabs dx) (Qabs dy) then
            (* Horizontal swipe *)
            if Qgt_bool (Qabs dx) (inject_Z 30) (* Threshold *)
            then handleDirectionChange
                   (if Qgt_bool dx 0 then {| x := 1; y := 0 |}
                    else {| x := -1; y := 0 |}) c
            else c
          else
            (* Vertical swipe *)
            if Qgt_bool (Qabs dy) (inject_Z 30)
            then handleDirectionChange
                   (if Qgt_bool dy 0 then {| x := 0; y := 1 |}
                    else {| x := 0; y := -1 |}) c
            else c in
        {| snakeRef := snakeRef c1; foodRef := foodRef c1;
           directionRef := directionRef c1;
           nextDirectionRef := nextDirectionRef c1;
           speedRef := speedRef c1; scoreRef := scoreRef c1;
           lastUpdateTimeRef := lastUpdateTimeRef c1;
           foodEatenCountRef := foodEatenCountRef c1;
           touchStartRef := None |}
  end.

(** How one call of [update] ends: the loop is scheduled again, or it
    stops after [onGameOver], or reading the head of an empty snake
    throws. *)
Inductive Frame : Type :=
| Continues (c : Canvas) (effects : list Effect)
| Stops (c : Canvas) (effects : list Effect)
| Throws (c : Canvas).

(* Game Loop *)
(** [None] when [fuel] does not suffice for [getRandomPosition]. *)
Definition update (fuel : nat) (random : nat -> Q) (status : GameStatus)
    (isSoundEnabled : bool) (difficulty : Difficulty) (time : Q) (c : Canvas)
    : option Frame :=
  if negb (bool_decide (status = PLAYING))
  then Some (Continues c [draw; requestAnimationFrame])
  else
    let deltaTime := (time - lastUpdateTimeRef c)%Q in
    if Qle_bool (inject_Z (speedRef c)) deltaTime then
      (* Update Direction *)
      let direction := nextDirectionRef c in
      let c1 :=
        {| snakeRef := snakeRef c; foodRef := foodRef c;
           directionRef := direction; nextDirectionRef := nextDirectionRef c;
           speedRef := speedRef c; scoreRef := scoreRef c;
           lastUpdateTimeRef := time;
           foodEatenCountRef := foodEatenCountRef c;
           touchStartRef := touchStartRef c |} in
      match snakeRef c with
      | [] => Some (Throws c1)
      | head :: _ =>
          let newHead :=
            {| x := x head + x direction; y := y head + y direction |} in
          let die := if isSoundEnabled then [playSound "die"] else [] in
          (* Collision Detection: Walls *)
          if (x newHead <? 0) || (GRID_SIZE <=? x newHead)
             || (y newHead <? 0) || (GRID_SIZE <=? y newHead)
          then Some (Stops c1 (die ++ [onGameOver (scoreRef c)]))
          else
          (* Collision Detection: Self *)
          if existsb (fun segment => same_cell segment newHead) (snakeRef c)
          then Some (Stops c1 (die ++ [onGameOver (scoreRef c)]))
          else
            (* Move Snake *)
            let newSnake := newHead :: snakeRef c in
            (* Check Food *)
            if same_cell newHead (foodRef c) then
              let score := scoreRef c + FOOD_SCORE_VALUE in
              let foodEatenCount := foodEatenCountRef c + 1 in
              (* Increase Speed *)
              let speed :=
                if Z.rem foodEatenCount SPEED_UP_INTERVAL =? 0
                then Z.max (S_MIN_SPEED (DIFFICULTY_SETTINGS difficulty))
                       (speedRef c - SPEED_DECREMENT)
                else speedRef c in
              match getRandomPosition fuel random 0 (snakeRef c) with
              | None => None
              | Some (food, _) =>
                  Some (Continues
                          {| snakeRef := newSnake; foodRef := food;
                             directionRef := direction;
                             nextDirectionRef := nextDirectionRef c;
                             speedRef := speed; scoreRef := score;
                             lastUpdateTimeRef := time;
                             foodEatenCountRef := foodEatenCount;
                             touchStartRef := touchStartRef c |}
                          ((if isSoundEnabled then [playSound "eat"] else [])
                           ++ [onScoreUpdate score; draw;
                               requestAnimationFrame]))
              end
            else
              Some (Continues
                      {| snakeRef := removelast newSnake; (* Remove tail *)
                         foodRef := foodRef c;
                         directionRef := direction;
                         nextDirectionRef := nextDirectionRef c;
                         speedRef := speedRef c; scoreRef := scoreRef c;
                         lastUpdateTimeRef := time;
                         foodEatenCountRef := foodEatenCountRef c;
                         touchStartRef := touchStartRef c |}
                      [draw; requestAnimationFrame])
      end
    else Some (Continues c [draw; requestAnimationFrame]).

(* Lifecycle *)
(** The effect that runs when [status] (or [resetGame]) changes: only the
    menu resets the refs.  In [PAUSED] the pending frame, if any, is
    cancelled. *)
Definition statusEffect (fuel : nat) (random : nat -> Q)
    (status : GameStatus) (difficulty : Difficulty) (c : Canvas)
    : option (Canvas * list Effect) :=
  match status with
  | MENU =>
      match resetGame fuel random difficulty c with
      | None => None
      | Some (c', effects) => Some (c', effects ++ [draw])
      end
  | PLAYING => Some (c, [requestAnimationFrame])
  | PAUSED => Some (c, [cancelAnimationFrame])
  | GAME_OVER => Some (c, [])
  end.

End GameCanvas.

(** games/snake/services/firebase.ts: the two counters.  The store holds a
    number or nothing under each of the two paths; the numbers are taken
    to be integers, as they are when only these functions write them. *)
Module SnakeCounters.
Import js.

(** 2^53: up to it in magnitude every integer is a JavaScript number. *)
Definition EXACT_LIMIT : Z := 9007199254740992.

(** [currentCount + 1] on JavaScript numbers, for a stored count, which is
    a double holding an integer: the exact sum, rounded to the nearest
    double when it is beyond [EXACT_LIMIT], where doubles are [ulp] apart,
    a tie going to the even multiple of [ulp].  The sum stays below the
    largest double, so the result is finite. *)
Definition plus_1 (currentCount : Z) : Z :=
  let z := currentCount + 1 in
  if Z.abs z <=? EXACT_LIMIT then z
  else
    let ulp := 2 ^ (Z.log2 (Z.abs z) - 52) in
    let q := z / ulp in
    let r := z mod ulp in
    if 2 * r <? ulp then q * ulp
    else if ulp <? 2 * r then (q + 1) * ulp
    else if Z.even q then q * ulp else (q + 1) * ulp.

Record Database : Set := mkDatabase {
  snake_visitorCount : option Z;
  snake_gamesPlayed : option Z
}.

(** [snapshot.exists() ? snapshot.val() : 0] *)
Definition val_or_0 (snapshot : option Z) : Z :=
  match snapshot with
  | Some n => n
  | None => 0
  end.

Definition incrementVisitorCount (db : option Database)
    : Outcome unit * option Database :=
  match db with
  | None => (Thrown "Database not initialized", None)
  | Some d =>
      let currentCount := val_or_0 (snake_visitorCount d) in
      (Returned tt,
       Some {| snake_visitorCount := Some (plus_1 currentCount);
               snake_gamesPlayed := snake_gamesPlayed d |})
  end.

Definition getVisitorCount (db : option Database) : Outcome Z :=
  match db with
  | None => Thrown "Database not initialized"
  | Some d => Returned (val_or_0 (snake_visitorCount d))
  end.

Definition incrementGamesPlayed (db : option Database)
    : Outcome unit * option Database :=
  match db with
  | None => (Thrown "Database not initialized", None)
  | Some d =>
      let currentCount := val_or_0 (snake_gamesPlayed d) in
      (Returned tt,
       Some {| snake_visitorCount := snake_visitorCount d;
               snake_gamesPlayed := Some (plus_1 currentCount) |})
  end.

Definition getGamesPlayed (db : option Database) : Outcome Z :=
  match db with
  | None => Thrown "Database not initialized"
  | Some d => Returned (val_or_0 (snake_gamesPlayed d))
  end.

End SnakeCounters.

(** games/snake/App.tsx: the state of the component and its handlers.
    [localStorage] is the item [snake_highscore], which only
    [handleGameOver] writes (as the decimal form of a score), so it is
    kept as the number it spells. *)
Module SnakeApp.
Import types js.
Import snake.

Record App : Set := mkApp {
  status : GameStatus;
  score : Z;
  highScore : Z;
  isSoundEnabled : bool;
  difficulty : Difficulty;
  visitorCount : option Z;
  gamesPlayedCount : option Z;
  localStorage : option Z
}.

Inductive Effect : Set :=
| playSound (sound : string)
| console_error (message : string).

Definition setStatus (v : GameStatus) (s : App) : App :=
  {| status := v; score := score s; highScore := highScore s;
     isSoundEnabled := isSoundEnabled s; difficulty := difficulty s;
     visitorCount := visitorCount s; gamesPlayedCount := gamesPlayedCount s;
     localStorage := localStorage s |}.

Definition setScore (v : Z) (s : App) : App :=
  {| status := status s; score := v; highScore := highScore s;
     isSoundEnabled := isSoundEnabled s; difficulty := difficulty s;
     visitorCount := visitorCount s; gamesPlayedCount := gamesPlayedCount s;
     localStorage := localStorage s |}.

Definition setHighScore (v : Z) (s : App) : App :=
  {| status := status s; score := score s; highScore := v;
     isSoundEnabled := isSoundEnabled s; difficulty := difficulty s;
     visitorCount := visitorCount s; gamesPlayedCount := gamesPlayedCount s;
     localStorage := localStorage s |}.

Definition setIsSoundEnabled (v : bool) (s : App) : App :=
  {| status := status s; score := score s; highScore := highScore s;
     isSoundEnabled := v; difficulty := difficulty s;
     visitorCount := visitorCount s; gamesPlayedCount := gamesPlayedCount s;
     localStorage := localStorage s |}.

Definition setDifficulty (v : Difficulty) (s : App) : App :=
  {| status := status s; score := score s; highScore := highScore s;
     isSoundEnabled := isSoundEnabled s; difficulty := v;
     visitorCount := visitorCount s; gamesPlayedCount := gamesPlayedCount s;
     localStorage := localStorage s |}.

Definition setVisitorCount (v : Z) (s : App) : App :=
  {| status := status s; score := score s; highScore := highScore s;
     isSoundEnabled := isSoundEnabled s; difficulty := difficulty s;
     visitorCount := Some v; gamesPlayedCount := gamesPlayedCount s;
     localStorage := localStorage s |}.

Definition setGamesPlayedCount (v : Z) (s : App) : App :=
  {| status := status s; score := score s; highScore := highScore s;
     isSoundEnabled := isSoundEnabled s; difficulty := difficulty s;
     visitorCount := visitorCount s; gamesPlayedCount := Some v;
     localStorage := localStorage s |}.

Definition localStorage_setItem (v : Z) (s : App) : App :=
  {| status := status s; score := score s; highScore := highScore s;
     isSoundEnabled := isSoundEnabled s; difficulty := difficulty s;
     visitorCount := visitorCount s; gamesPlayedCount := gamesPlayedCount s;
     localStorage := Some v |}.

(** The state of a freshly mounted component over what the browser
    stored. *)
Definition mount (stored : option Z) : App :=
  {| status := MENU; score := 0; highScore := 0; isSoundEnabled := true;
     difficulty := MEDIUM; visitorCount := None; gamesPlayedCount := None;
     localStorage := stored |}.

(* Load high score *)
Definition loadHighScore (s : App) : App :=
  match localStorage s with
  | Some saved => setHighScore saved s
  | None => s
  end.

(* Load counters on mount *)
Definition initCounters (s : App) (db : option SnakeCounters.Database)
    : App * option SnakeCounters.Database * list Effect :=
  let failed := [console_error "Failed to load counters:"] in
  (* Increment visitor count *)
  match SnakeCounters.incrementVisitorCount db with
  | (Thrown _, db1) => (s, db1, failed)
  | (Returned _, db1) =>
      match SnakeCounters.getVisitorCount db1 with
      | Thrown _ => (s, db1, failed)
      | Returned visitors =>
          let s1 := setVisitorCount visitors s in
          (* Load games played count (don't increment yet) *)
          match SnakeCounters.getGamesPlayed db1 with
          | Thrown _ => (s1, db1, failed)
          | Returned gamesPlayed =>
              (setGamesPlayedCount gamesPlayed s1, db1, [])
          end
      end
  end.

Definition handleGameOver (finalScore : Z) (s : App) : App :=
  let s1 := setStatus GAME_OVER s in
  if highScore s <? finalScore
  then localStorage_setItem finalScore (setHighScore finalScore s1)
  else s1.

Definition toggleSound (s : App) : App * list Effect :=
  (setIsSoundEnabled (negb (isSoundEnabled s)) s,
   if negb (isSoundEnabled s) then [playSound "click"] else []).

Definition startGame (s : App) (db : option SnakeCounters.Database)
    : App * option SnakeCounters.Database * list Effect :=
  let click := if isSoundEnabled s then [playSound "click"] else [] in
  let s1 := setStatus PLAYING (setScore 0 s) in
  let failed := [console_error "Failed to increment games played:"] in
  (* Increment games played counter *)
  match SnakeCounters.incrementGamesPlayed db with
  | (Thrown _, db1) => (s1, db1, click ++ failed)
  | (Returned _, db1) =>
      match SnakeCounters.getGamesPlayed db1 with
      | Thrown _ => (s1, db1, click ++ failed)
      | Returned count => (setGamesPlayedCount count s1, db1, click)
      end
  end.

Definition pauseGame (s : App) : App * list Effect :=
  if bool_decide (status s = PLAYING)
  then (setStatus PAUSED s,
        if isSoundEnabled s then [playSound "click"] else [])
  else (s, []).

Definition resumeGame (s : App) : App * list Effect :=
  (setStatus PLAYING s, if isSoundEnabled s then [playSound "click"] else []).

Definition goToMenu (s : App) : App * list Effect :=
  (setStatus MENU s, if isSoundEnabled s then [playSound "click"] else []).

End SnakeApp.

(** Vocabulary of the snake properties. *)
Module SnakeSpec.
Import types js.
Import snake GameCanvas.

Definition in_grid (p : Point) : Prop :=
  0 <= x p < GRID_SIZE /\ 0 <= y p < GRID_SIZE.

(** One of the four unit steps. *)
Definition unit_step (p : Point) : Prop :=
  (Z.abs (x p) = 1 /\ y p = 0) \/ (x p = 0 /\ Z.abs (y p) = 1).

Definition opposite (p : Point) : Point := {| x := - x p; y := - y p |}.

(** The direction queued for the next move is a unit step and not the
    reverse of the direction of the last move. *)
Definition steering_ok (c : Canvas) : Prop :=
  unit_step (directionRef c) /\ unit_step (nextDirectionRef c)
  /\ nextDirectionRef c <> opposite (directionRef c).

(** The snake is not empty, lies in the grid and never overlaps itself. *)
Definition snake_ok (c : Canvas) : Prop :=
  snakeRef c <> [] /\ Forall in_grid (snakeRef c) /\ NoDup (snakeRef c).

(** Score and speed as functions of the number of foods eaten. *)
Definition scoring_ok (difficulty : Difficulty) (c : Canvas) : Prop :=
  0 <= foodEatenCountRef c
  /\ scoreRef c = FOOD_SCORE_VALUE * foodEatenCountRef c
  /\ speedRef c
     = Z.max (S_MIN_SPEED (DIFFICULTY_SETTINGS difficulty))
         (S_INITIAL_SPEED (DIFFICULTY_SETTINGS difficulty)
          - SPEED_DECREMENT * (foodEatenCountRef c / SPEED_UP_INTERVAL)).

Definition canvas_invariant (difficulty : Difficulty) (c : Canvas) : Prop :=
  steering_ok c /\ snake_ok c /\ in_grid (foodRef c)
  /\ scoring_ok difficulty c.

(** The segment behind the head is where the head was before the last
    move. *)
Definition neck_ok (c : Canvas) : Prop :=
  match snakeRef c with
  | head :: neck :: _ =>
      neck = {| x := x head - x (directionRef c);
                y := y head - y (directionRef c) |}
  | _ => True
  end.

(** Every draw of [Math.random] lies in [0, 1). *)
Definition draws_in_range (random : nat -> Q) : Prop :=
  forall i, (0 <= random i < 1)%Q.

(** The cell that the draws [k] and [k + 1] give. *)
Definition drawn_cell (random : nat -> Q) (k : nat) : Point :=
  {| x := Qfloor (random k * inject_Z GRID_SIZE);
     y := Qfloor (random (S k) * inject_Z GRID_SIZE) |}.

(** The cell that the head enters at the next move. *)
Definition next_head (c : Canvas) : option Point :=
  match snakeRef c with
  | [] => None
  | head :: _ =>
      Some {| x := x head + x (nextDirectionRef c);
              y := y head + y (nextDirectionRef c) |}
  end.

(** A move is due at [time]. *)
Definition due (time : Q) (c : Canvas) : Prop :=
  (inject_Z (speedRef c) <= time - lastUpdateTimeRef c)%Q.

(** The refs as a call of [update] leaves them. *)
Definition frame_canvas (f : Frame) : Canvas :=
  match f with
  | Continues c _ | Stops c _ | Throws c => c
  end.

Definition frame_effects (f : Frame) : list Effect :=
  match f with
  | Continues _ effects | Stops _ effects => effects
  | Throws _ => []
  end.

(** [n] visits: [n] calls of [incrementVisitorCount] in a row. *)
Fixpoint visits (n : nat) (db : option SnakeCounters.Database)
    : option SnakeCounters.Database :=
  match n with
  | 0%nat => db
  | S n' => visits n' (SnakeCounters.incrementVisitorCount db).2
  end.

(** [n] clicks on a start button in a row. *)
Fixpoint starts (n : nat) (s : SnakeApp.App)
    (db : option SnakeCounters.Database)
    : SnakeApp.App * option SnakeCounters.Database :=
  match n with
  | 0%nat => (s, db)
  | S n' =>
      let '(s1, db1, _) := SnakeApp.startGame s db in starts n' s1 db1
  end.

(** The games of a session ending one after the other with the given
    final scores. *)
Definition games_over (finalScores : list Z) (s : SnakeApp.App)
    : SnakeApp.App :=
  foldl (fun s finalScore => SnakeApp.handleGameOver finalScore s) s
    finalScores.

End SnakeSpec.

(** Sample games of snake. *)
Module SnakeSamples.
Import types js.
Import snake GameCanvas.

(** Every draw is a quarter: the cell drawn is (5, 5). *)
Definition quarter : nat -> Q := fun _ => (1 # 4)%Q.

(** The refs after the menu has reset them, medium difficulty. *)
Definition started : Canvas :=
  {| snakeRef := INITIAL_SNAKE;
     foodRef := {| x := 5; y := 5 |};
     directionRef := INITIAL_DIRECTION;
     nextDirectionRef := INITIAL_DIRECTION;
     speedRef := 150;
     scoreRef := 0;
     lastUpdateTimeRef := 0;
     foodEatenCountRef := 0;
     touchStartRef := None |}.

(** The head is at the right wall and moves right; the food is one cell
    above the head. *)
Definition at_wall : Canvas :=
  {| snakeRef := [ {| x := 19; y := 10 |}; {| x := 18; y := 10 |};
                   {| x := 17; y := 10 |} ];
     foodRef := {| x := 19; y := 9 |};
     directionRef := INITIAL_DIRECTION;
     nextDirectionRef := INITIAL_DIRECTION;
     speedRef := 150;
     scoreRef := 0;
     lastUpdateTimeRef := 0;
     foodEatenCountRef := 0;
     touchStartRef := None |}.

(** The same, steered upwards onto the food. *)
Definition before_food : Canvas :=
  handleKeyDown PLAYING "ArrowUp" at_wall.

End SnakeSamples.

(* ===================================================================== *)
(** ** Arrays *)
(* ===================================================================== *)

Section arrays.
Import types js.

Lemma get_lookup (arr : list CellValue) (i : nat) (v : CellValue) :
  arr !! i = Some v -> get arr i = v.
Proof. unfold get. intros ->. reflexivity. Qed.

Lemma get_defined_lt (arr : list CellValue) (i : nat) :
  get arr i <> undefined -> (i < length arr)%nat.
Proof.
  unfold get. intros H. apply lookup_lt_is_Some.
  destruct (arr !! i); [eauto | congruence].
Qed.

Lemma get_null_lt (arr : list CellValue) (i : nat) :
  get arr i = null -> (i < length arr)%nat.
Proof. intros H. apply get_defined_lt. congruence. Qed.

Lemma set_inside (arr : list CellValue) (i : nat) (v : CellValue) :
  (i < length arr)%nat -> set arr i v = <[i := v]> arr.
Proof.
  intros H. unfold set.
  destruct (Nat.ltb_spec i (length arr)); [reflexivity | lia].
Qed.

Lemma length_set_inside (arr : list CellValue) (i : nat) (v : CellValue) :
  (i < length arr)%nat -> length (set arr i v) = length arr.
Proof. intros H. rewrite set_inside by done. apply length_insert. Qed.

Lemma get_set_eq (arr : list CellValue) (i : nat) (v : CellValue) :
  (i < length arr)%nat -> get (set arr i v) i = v.
Proof.
  intros H. rewrite set_inside by done. apply get_lookup.
  by apply list_lookup_insert_eq.
Qed.

Lemma get_set_ne (arr : list CellValue) (i j : nat) (v : CellValue) :
  (i < length arr)%nat -> i <> j -> get (set arr i v) j = get arr j.
Proof.
  intros H Hne. rewrite set_inside by done. unfold get.
  by rewrite list_lookup_insert_ne.
Qed.

Lemma set_set (arr : list CellValue) (i : nat) (v w : CellValue) :
  (i < length arr)%nat -> set (set arr i v) i w = set arr i w.
Proof.
  intros H. rewrite (set_inside (set arr i v)) by (by rewrite length_set_inside).
  rewrite !set_inside by done. apply list_insert_insert_eq.
Qed.

Lemma set_get (arr : list CellValue) (i : nat) :
  (i < length arr)%nat -> set arr i (get arr i) = arr.
Proof.
  intros H. rewrite set_inside by done.
  apply list_insert_id. unfold get.
  destruct (lookup_lt_is_Some_2 arr i H) as [v Hv]. by rewrite Hv.
Qed.

Lemma includes_spec (arr : list CellValue) (v : CellValue) :
  includes arr v = true <-> v ∈ arr.
Proof.
  unfold includes, strict_eq. rewrite existsb_exists. split.
  - intros (x & Hin & Heq). apply bool_decide_eq_true in Heq. subst.
    by apply list_elem_of_In.
  - intros Hin. exists v. split; [by apply list_elem_of_In |].
    by apply bool_decide_eq_true.
Qed.

Lemma strict_eq_true (a b : CellValue) : strict_eq a b = true <-> a = b.
Proof. unfold strict_eq. apply bool_decide_eq_true. Qed.

End arrays.

(* ===================================================================== *)
(** ** Terminal evaluation ([checkGameStatus]) *)
(* ===================================================================== *)

Section terminal_evaluation.
Import types constants js Spec.

Lemma checkGameStatus_loop_hit (combo : Combo) (rest : list Combo)
    (board : list CellValue) (s : PlayerSymbol) :
  line_of board combo s ->
  App.checkGameStatus_loop (combo :: rest) board
  = Some {| App.st_winner := Won s; App.st_line := Some combo |}.
Proof.
  destruct combo as [[a b] c].
  intros (Ha & Hb & Hc). simpl. rewrite Ha, Hb, Hc.
  unfold strict_eq. rewrite bool_decide_eq_true_2 by reflexivity.
  reflexivity.
Qed.

Lemma checkGameStatus_loop_miss (combo : Combo) (rest : list Combo)
    (board : list CellValue) :
  ~ complete board combo ->
  App.checkGameStatus_loop (combo :: rest) board
  = App.checkGameStatus_loop rest board.
Proof.
  destruct combo as [[a b] c]. intros Hno. simpl.
  destruct (get board a) as [s| |] eqn:Ha; try reflexivity.
  destruct (strict_eq (Sym s) (get board b)) eqn:Hb; try reflexivity.
  destruct (strict_eq (Sym s) (get board c)) eqn:Hc; try reflexivity.
  apply strict_eq_true in Hb, Hc. exfalso. apply Hno. exists s.
  simpl. auto.
Qed.

Lemma checkGameStatus_loop_skip (pre rest : list Combo)
    (board : list CellValue) :
  Forall (fun combo => ~ complete board combo) pre ->
  App.checkGameStatus_loop (pre ++ rest) board
  = App.checkGameStatus_loop rest board.
Proof.
  induction 1 as [|combo pre Hno _ IH]; [reflexivity |].
  simpl app. rewrite checkGameStatus_loop_miss by assumption. exact IH.
Qed.

Lemma checkGameStatus_first (board : list CellValue)
    (pre post : list Combo) (combo : Combo) (s : PlayerSymbol) :
  WINNING_COMBINATIONS = pre ++ combo :: post ->
  Forall (fun earlier => ~ complete board earlier) pre ->
  line_of board combo s ->
  App.checkGameStatus board
  = Some {| App.st_winner := Won s; App.st_line := Some combo |}.
Proof.
  intros Hsplit Hpre Hline. unfold App.checkGameStatus. rewrite Hsplit.
  rewrite checkGameStatus_loop_skip by assumption.
  by rewrite (checkGameStatus_loop_hit combo post board s).
Qed.

Lemma checkGameStatus_no_line (board : list CellValue) :
  Forall (fun combo => ~ complete board combo) WINNING_COMBINATIONS ->
  App.checkGameStatus board
  = if negb (includes board null)
    then Some {| App.st_winner := draw; App.st_line := None |}
    else None.
Proof.
  intros Hno. unfold App.checkGameStatus.
  rewrite <- (app_nil_r WINNING_COMBINATIONS) at 1.
  by rewrite checkGameStatus_loop_skip.
Qed.

Lemma full_board_no_null (board : list CellValue) :
  length board = 9%nat ->
  (forall i, (i < 9)%nat -> occupied board i) ->
  includes board null = false.
Proof.
  intros Hlen Hocc. apply not_true_is_false. intros Hin.
  apply includes_spec, list_elem_of_lookup in Hin as [i Hi].
  assert (i < 9)%nat as Hlt by (rewrite <- Hlen; by eapply lookup_lt_Some).
  destruct (Hocc i Hlt) as [s Hs]. apply get_lookup in Hi. congruence.
Qed.

Lemma free_cell_null (board : list CellValue) (i : nat) :
  well_formed board -> (i < 9)%nat -> ~ occupied board i ->
  includes board null = true.
Proof.
  intros [Hlen Hdef] Hlt Hfree. apply includes_spec.
  destruct (lookup_lt_is_Some_2 board i) as [v Hv]; [lia |].
  pose proof (get_lookup _ _ _ Hv) as Hget.
  rewrite Forall_forall in Hdef.
  assert (v ∈ board) as Hin by (apply list_elem_of_lookup; eauto).
  destruct v as [s| |].
  - exfalso. apply Hfree. by exists s.
  - exact Hin.
  - exfalso. by apply (Hdef undefined).
Qed.

Lemma well_formed_set (board : list CellValue) (i : nat) (s : PlayerSymbol) :
  well_formed board -> get board i = null ->
  well_formed (set board i (Sym s)).
Proof.
  intros [Hlen Hdef] Hnull. pose proof (get_null_lt _ _ Hnull) as Hlt.
  split; [by rewrite length_set_inside |].
  rewrite set_inside by done. rewrite Forall_forall in *.
  intros v Hv. apply list_elem_of_lookup in Hv as [j Hj].
  destruct (decide (i = j)) as [->|Hne].
  - rewrite list_lookup_insert_eq in Hj by done. by inversion Hj.
  - rewrite list_lookup_insert_ne in Hj by done.
    apply Hdef, list_elem_of_lookup. eauto.
Qed.

End terminal_evaluation.

Section terminal_evaluation_after_a_move.
Import types rtdb constants js Spec.

(** C1.  Terminal evaluation after a move.  Let [newBoard] be a board of the
    game with the mover's symbol placed in an empty cell.  The eight
    combinations are the three rows, the three columns and the two
    diagonals, in this order.  The first of them whose three cells hold the
    same symbol on [newBoard] makes that symbol the winner, with that
    combination as winning line; when no combination matches and the nine
    cells are occupied the result is a draw; when no combination matches
    and a cell is free there is no result.  In the offline modes
    [handleMove], the same in both copies of the component, stores
    [newBoard] and, following that result, records winner and line, or
    leaves the match in progress and passes the turn to the other symbol. *)
Theorem terminal_evaluation_after_move
    (s : App.App) (db : option Database) (now : Z) (index : nat) :
  well_formed (App.board s) ->
  get (App.board s) index = null ->
  let newBoard := set (App.board s) index (Sym (App.currentTurn s)) in
  WINNING_COMBINATIONS = rows ++ columns ++ diagonals
  /\ (forall pre combo post sym,
        WINNING_COMBINATIONS = pre ++ combo :: post ->
        Forall (fun earlier => ~ complete newBoard earlier) pre ->
        line_of newBoard combo sym ->
        App.checkGameStatus newBoard
        = Some {| App.st_winner := Won sym; App.st_line := Some combo |})
  /\ (Forall (fun combo => ~ complete newBoard combo) WINNING_COMBINATIONS ->
      (forall i, (i < 9)%nat -> occupied newBoard i) ->
      App.checkGameStatus newBoard
      = Some {| App.st_winner := draw; App.st_line := None |})
  /\ (Forall (fun combo => ~ complete newBoard combo) WINNING_COMBINATIONS ->
      (exists i, (i < 9)%nat /\ ~ occupied newBoard i) ->
      App.checkGameStatus newBoard = None)
  /\ (App.winner s = None -> App.gameMode s <> ONLINE ->
      let s' := (App.handleMove s db now index).1.1 in
      App.board s' = newBoard
      /\ match App.checkGameStatus newBoard with
         | Some r =>
             App.winner s' = Some (App.st_winner r)
             /\ App.winningLine s' = App.st_line r
         | None =>
             App.winner s' = None
             /\ App.currentTurn s' = other (App.currentTurn s)
         end
      /\ RootApp.handleMove s db now index = App.handleMove s db now index).
Proof.
  intros Hwf Hnull newBoard.
  assert (well_formed newBoard) as Hwf' by (by apply well_formed_set).
  split; [reflexivity |]. split; [| split; [| split]].
  - intros pre combo post sym. apply checkGameStatus_first.
  - intros Hno Hfull. rewrite checkGameStatus_no_line by assumption.
    rewrite full_board_no_null; [reflexivity | apply Hwf' | assumption].
  - intros Hno (i & Hlt & Hfree). rewrite checkGameStatus_no_line by assumption.
    by rewrite (free_cell_null newBoard i).
  - intros Hwin Hmode. unfold App.handleMove, RootApp.handleMove.
    rewrite Hnull, Hwin. simpl truthy.
    rewrite (bool_decide_eq_false_2 (None <> None)) by congruence.
    rewrite (bool_decide_eq_false_2 (App.gameMode s = ONLINE)) by assumption.
    simpl. fold newBoard.
    destruct (App.checkGameStatus newBoard) as [r|]; simpl.
    + auto.
    + split; [reflexivity | split; [| reflexivity]].
      split; [assumption |]. by destruct (App.currentTurn s).
Qed.

(** On the sample same-device match, X playing cell 2 completes the top
    row: the evaluation gives X as winner with line (0, 1, 2), and the
    controller records both. *)
Lemma terminal_evaluation_after_move_witness :
  well_formed (App.board Samples.local_match)
  /\ get (App.board Samples.local_match) 2 = null
  /\ App.checkGameStatus (set (App.board Samples.local_match) 2 (Sym X))
     = Some {| App.st_winner := Won X; App.st_line := Some (0, 1, 2)%nat |}
  /\ App.winner (App.handleMove Samples.local_match None 0 2).1.1
     = Some (Won X).
Proof.
  assert (well_formed (App.board Samples.local_match)) as Hwf.
  { split; [reflexivity |]. repeat constructor; discriminate. }
  assert (get (App.board Samples.local_match) 2 = null) as Hnull
    by reflexivity.
  destruct (terminal_evaluation_after_move Samples.local_match None 0 2
              Hwf Hnull) as (_ & Hfirst & _ & _ & Hmove).
  split; [exact Hwf |]. split; [exact Hnull |]. split.
  - apply (Hfirst [] (0, 1, 2)%nat (tl WINNING_COMBINATIONS) X).
    + reflexivity.
    + constructor.
    + repeat split; reflexivity.
  - destruct Hmove as (_ & Hres & _); [reflexivity | discriminate |].
    vm_compute in Hres. apply Hres.
Defined.

End terminal_evaluation_after_a_move.

(* ===================================================================== *)
(** ** The store: what a commit changes *)
(* ===================================================================== *)

Section store.
Import types rtdb constants js Spec.

Lemma write_rooms_same (rs : gmap string RoomDoc) (w : Write) :
  default no_room (write_rooms rs w !! write_code w)
  = write_doc w (default no_room (rs !! write_code w)).
Proof. unfold write_rooms. by rewrite lookup_insert_eq. Qed.

Lemma write_rooms_other (rs : gmap string RoomDoc) (w : Write)
    (code : string) :
  code <> write_code w -> write_rooms rs w !! code = rs !! code.
Proof. intros Hne. unfold write_rooms. by rewrite lookup_insert_ne. Qed.

(** A multi-path update whose paths all lie in one room rewrites the
    document of that room, path after path, ... *)
Lemma update_same_room (d : Database) (updates : list Write) (code : string) :
  Forall (fun w => write_code w = code) updates ->
  rtdb.get (update d updates) code
  = foldl (fun doc w => write_doc w doc) (rtdb.get d code) updates.
Proof.
  unfold rtdb.get, update. simpl. generalize (rooms d).
  induction updates as [|w ws IH]; intros rs Hall; [reflexivity |].
  inversion Hall as [|? ? Hw Hws]; subst. simpl.
  rewrite IH by assumption. by rewrite write_rooms_same.
Qed.

(** ... and leaves the documents of all other rooms alone. *)
Lemma update_other_room (d : Database) (updates : list Write)
    (code code' : string) :
  Forall (fun w => write_code w = code) updates ->
  code' <> code ->
  rooms (update d updates) !! code' = rooms d !! code'.
Proof.
  unfold update. simpl. generalize (rooms d).
  induction updates as [|w ws IH]; intros rs Hall Hne; [reflexivity |].
  inversion Hall as [|? ? Hw Hws]; subst. simpl.
  rewrite IH by assumption. apply write_rooms_other. congruence.
Qed.

Lemma updateGameState_doc (d : Database) (now : Z) (code : string)
    (board : list CellValue) (nextTurn : PlayerSymbol)
    (winner : option Winner) :
  exists d',
    firebase.updateGameState (Some d) now code board nextTurn winner
    = (Returned tt, Some d')
    /\ journal d'
       = journal d
         ++ [Commit_update
               ([W_board code board; W_currentTurn code nextTurn;
                 W_lastMoveTimestamp code now]
                ++ match winner with
                   | Some w => [W_winner code w; W_status code FINISHED]
                   | None => []
                   end)]
    /\ rtdb.get d' code
       = {| d_status := match winner with
                        | Some _ => Some FINISHED
                        | None => d_status (rtdb.get d code)
                        end;
            d_player1 := d_player1 (rtdb.get d code);
            d_player2 := d_player2 (rtdb.get d code);
            d_board := Some board;
            d_currentTurn := Some nextTurn;
            d_winner := match winner with
                        | Some w => Some w
                        | None => d_winner (rtdb.get d code)
                        end;
            d_lastMoveTimestamp := Some now |}
    /\ (forall code', code' <> code -> rooms d' !! code' = rooms d !! code')
    /\ onDisconnect d' = onDisconnect d
    /\ listeners d' = listeners d.
Proof.
  unfold firebase.updateGameState. eexists. split; [reflexivity |].
  split; [by destruct winner; simpl; rewrite ?app_nil_r |].
  split; [| split; [| split; reflexivity]].
  - rewrite update_same_room.
    + destruct winner; reflexivity.
    + destruct winner; repeat constructor.
  - intros code' Hne. apply update_other_room with (code := code).
    + destruct winner; repeat constructor.
    + assumption.
Qed.

End store.

(* ===================================================================== *)
(** ** Move legality and the online push ([handleMove]) *)
(* ===================================================================== *)

Section move_controller.
Import types rtdb constants js Spec.

(** C2.  A move is rejected, leaving the component state, the store and
    the list of effects untouched, whenever the target cell is occupied, or
    a winner is set, or, online, it is not this client's turn, or, online,
    the opponent is not connected.  This holds of [handleMove] in both
    copies of the component. *)
Theorem handleMove_rejects
    (s : App.App) (db : option Database) (now : Z) (index : nat) :
  occupied (App.board s) index
  \/ App.winner s <> None
  \/ (App.gameMode s = ONLINE /\ App.mySymbol s <> Some (App.currentTurn s))
  \/ (App.gameMode s = ONLINE /\ App.opponentConnected s = false) ->
  App.handleMove s db now index = (s, db, [])
  /\ RootApp.handleMove s db now index = (s, db, []).
Proof.
  intros H. unfold App.handleMove, RootApp.handleMove.
  destruct (truthy (get (App.board s) index)) eqn:Hcell; [by split |].
  case_bool_decide as Hwin; [by split |]. simpl orb. cbv iota.
  destruct H as [[sym Hocc] | [Hw | [[Hmode Hturn] | [Hmode Hopp]]]].
  - rewrite Hocc in Hcell. discriminate.
  - contradiction.
  - rewrite (bool_decide_eq_true_2 _ Hmode).
    rewrite bool_decide_eq_false_2 by congruence. by split.
  - rewrite (bool_decide_eq_true_2 _ Hmode), Hopp.
    by destruct (negb _).
Qed.

(** The four rejections on sample states: an occupied cell and a finished
    match in a same-device game; the wrong turn and an absent opponent
    online, where the store is left as it was. *)
Lemma handleMove_rejects_witness :
  App.handleMove Samples.local_match None 0 0
  = (Samples.local_match, None, [])
  /\ (let s := App.setWinner (Some draw) Samples.local_match in
      App.handleMove s None 0 2 = (s, None, []))
  /\ (let s := App.setMySymbol (Some O) Samples.online_match in
      App.handleMove s (Some Samples.store_ABCD) 2000 0
      = (s, Some Samples.store_ABCD, []))
  /\ (let s := App.setOpponentConnected false Samples.online_match in
      App.handleMove s (Some Samples.store_ABCD) 2000 0
      = (s, Some Samples.store_ABCD, [])).
Proof.
  split; [| split; [| split]].
  - apply handleMove_rejects. left. exists X. reflexivity.
  - apply handleMove_rejects. right. left. discriminate.
  - apply handleMove_rejects. right. right. left.
    split; [reflexivity | discriminate].
  - apply handleMove_rejects. right. right. right.
    split; reflexivity.
Defined.

End move_controller.

(* ===================================================================== *)
(** ** The room repository (services/firebase.ts) *)
(* ===================================================================== *)

Section room_repository.
Import types rtdb constants js Spec.

Lemma joined_true_exists (doc : RoomDoc) :
  d_joined (d_player2 doc) = Some true ->
  exists_ doc = true /\ read_player2_joined doc = Returned true.
Proof.
  intros Hj. unfold exists_, read_player2_joined. split.
  - rewrite bool_decide_eq_false_2; [reflexivity |].
    intros ->. discriminate.
  - rewrite bool_decide_eq_false_2; [by rewrite Hj |].
    intros Heq. rewrite Heq in Hj. discriminate.
Qed.

(** C3.  With the store available, [joinRoom] returns [false] and leaves
    the store exactly as it was (no commit, no armed write, every document
    unchanged) when the room does not exist and when [player2.joined] is
    already [true].  Whenever it returns [true] it has issued exactly one
    commit, the multi-path update of [players/player2] and [status], after
    which the room holds player2 = {name, O, joined} and status PLAYING with
    player1, board, turn, winner and timestamp as before, other rooms are
    untouched, and the deferred write of [player2.joined] is armed. *)
Theorem joinRoom_outcomes (d : Database) (code playerName : string) :
  (exists_ (rtdb.get d code) = false ->
   firebase.joinRoom (Some d) code playerName = (Returned false, Some d))
  /\ (d_joined (d_player2 (rtdb.get d code)) = Some true ->
      firebase.joinRoom (Some d) code playerName = (Returned false, Some d))
  /\ (forall db',
        firebase.joinRoom (Some d) code playerName = (Returned true, db') ->
        exists d',
          db' = Some d'
          /\ journal d'
             = journal d
               ++ [Commit_update
                     [W_player code key_player2
                        {| name := playerName; symbol := O; joined := true |};
                      W_status code PLAYING]]
          /\ d_player2 (rtdb.get d' code)
             = player_doc {| name := playerName; symbol := O; joined := true |}
          /\ d_status (rtdb.get d' code) = Some PLAYING
          /\ d_player1 (rtdb.get d' code) = d_player1 (rtdb.get d code)
          /\ d_board (rtdb.get d' code) = d_board (rtdb.get d code)
          /\ d_currentTurn (rtdb.get d' code) = d_currentTurn (rtdb.get d code)
          /\ d_winner (rtdb.get d' code) = d_winner (rtdb.get d code)
          /\ d_lastMoveTimestamp (rtdb.get d' code)
             = d_lastMoveTimestamp (rtdb.get d code)
          /\ (forall code', code' <> code ->
                rooms d' !! code' = rooms d !! code')
          /\ onDisconnect d'
             = onDisconnect d ++ [W_joined code key_player2 false]).
Proof.
  split; [| split].
  - intros Hno. unfold firebase.joinRoom. by rewrite Hno.
  - intros Hfull. apply joined_true_exists in Hfull as [Hex Hread].
    unfold firebase.joinRoom. by rewrite Hex, Hread.
  - intros db'. unfold firebase.joinRoom.
    destruct (exists_ (rtdb.get d code)); simpl; [| discriminate].
    destruct (read_player2_joined (rtdb.get d code)) as [[|]|];
      try discriminate.
    intros [= <-]. eexists. split; [reflexivity |].
    split; [reflexivity |].
    assert (Forall (fun w => write_code w = code)
              [W_player code key_player2
                 {| name := playerName; symbol := O; joined := true |};
               W_status code PLAYING]) as Hall by (repeat constructor).
    pose proof (update_same_room d _ code Hall) as Hdoc.
    pose proof (fun code' => update_other_room d _ code code' Hall) as Hframe.
    set (d1 := update d _) in *.
    change (rtdb.get (onDisconnect_set d1 (W_joined code key_player2 false))
              code) with (rtdb.get d1 code).
    rewrite Hdoc. simpl.
    repeat (split; [reflexivity |]). split; [| reflexivity].
    exact Hframe.
Qed.

(** On the sample stores: joining the unknown room ZZZZ and joining the
    full room ABCD both return [false] and leave the store as it was;
    joining the waiting room WXYZ succeeds, Bob becomes player2, the room
    is PLAYING and Ann's slot is as it was. *)
Lemma joinRoom_outcomes_witness :
  firebase.joinRoom (Some Samples.store_ABCD) "ZZZZ" "Bob"
  = (Returned false, Some Samples.store_ABCD)
  /\ firebase.joinRoom (Some Samples.store_ABCD) "ABCD" "Eve"
     = (Returned false, Some Samples.store_ABCD)
  /\ exists d',
       firebase.joinRoom (Some Samples.store_WXYZ) "WXYZ" "Bob"
       = (Returned true, Some d')
       /\ d_player2 (rtdb.get d' "WXYZ")
          = player_doc {| name := "Bob"; symbol := O; joined := true |}
       /\ d_status (rtdb.get d' "WXYZ") = Some PLAYING
       /\ d_player1 (rtdb.get d' "WXYZ")
          = d_player1 (rtdb.get Samples.store_WXYZ "WXYZ").
Proof.
  split; [| split].
  - apply (proj1 (joinRoom_outcomes Samples.store_ABCD "ZZZZ" "Bob")).
    reflexivity.
  - apply (proj1 (proj2 (joinRoom_outcomes Samples.store_ABCD "ABCD" "Eve"))).
    reflexivity.
  - destruct (proj2 (proj2 (joinRoom_outcomes Samples.store_WXYZ "WXYZ" "Bob"))
                (firebase.joinRoom (Some Samples.store_WXYZ) "WXYZ" "Bob").2)
      as (d' & Hd' & _ & Hp2 & Hst & Hp1 & _); [reflexivity |].
    exists d'. split; [| auto].
    rewrite <- Hd'. reflexivity.
Defined.

(** C5, as the specification states it, fails for [updateGameState]: with
    no store handle it returns normally instead of throwing. *)
Lemma updateGameState_without_store_does_not_throw :
  ~ exists msg,
      (firebase.updateGameState None 2000 "ABCD" EMPTY_BOARD O None).1
      = Thrown msg.
Proof. intros [msg Hmsg]. discriminate. Qed.

(** C5, amended.  With no store handle, [createRoom] and [joinRoom] throw;
    [updateGameState], like [leaveRoom], returns normally without writing,
    and [subscribeToRoom] returns the inert capability. *)
Theorem store_unavailable
    (random : nat -> Q) (now : Z) (code playerName : string)
    (board : list CellValue) (nextTurn : PlayerSymbol)
    (winner : option Winner) (isPlayer1 : bool) :
  firebase.createRoom None random now playerName
  = (Thrown "Database not initialized", None)
  /\ firebase.joinRoom None code playerName
     = (Thrown "Database not initialized", None)
  /\ firebase.updateGameState None now code board nextTurn winner
     = (Returned tt, None)
  /\ firebase.leaveRoom None code isPlayer1 = (Returned tt, None)
  /\ firebase.subscribeToRoom None code = (inert, None).
Proof. repeat split. Qed.

End room_repository.

Section room_writes.
Import types rtdb constants js Spec.

(** C7.  With the store available, [updateGameState] issues one commit
    after which the room holds the given board, [currentTurn = nextTurn]
    and the fresh timestamp.  The commit carries a [winner] path exactly
    when [winner] is non-null, and then also [status = FINISHED]; with a
    null winner, [winner] and [status] keep their values.  Both player
    slots, the other rooms and the armed deferred writes are unchanged, and
    a room in which a winner implies FINISHED remains so. *)
Theorem updateGameState_frame (d : Database) (now : Z) (code : string)
    (board : list CellValue) (nextTurn : PlayerSymbol)
    (winner : option Winner) :
  exists d' updates,
    firebase.updateGameState (Some d) now code board nextTurn winner
    = (Returned tt, Some d')
    /\ journal d' = journal d ++ [Commit_update updates]
    /\ (forall w, W_winner code w ∈ updates <-> winner = Some w)
    /\ (W_status code FINISHED ∈ updates <-> winner <> None)
    /\ d_board (rtdb.get d' code) = Some board
    /\ d_currentTurn (rtdb.get d' code) = Some nextTurn
    /\ d_lastMoveTimestamp (rtdb.get d' code) = Some now
    /\ match winner with
       | Some w =>
           d_winner (rtdb.get d' code) = Some w
           /\ d_status (rtdb.get d' code) = Some FINISHED
       | None =>
           d_winner (rtdb.get d' code) = d_winner (rtdb.get d code)
           /\ d_status (rtdb.get d' code) = d_status (rtdb.get d code)
       end
    /\ d_player1 (rtdb.get d' code) = d_player1 (rtdb.get d code)
    /\ d_player2 (rtdb.get d' code) = d_player2 (rtdb.get d code)
    /\ (forall code', code' <> code -> rooms d' !! code' = rooms d !! code')
    /\ onDisconnect d' = onDisconnect d
    /\ (winner_implies_finished (rtdb.get d code) ->
        winner_implies_finished (rtdb.get d' code)).
Proof.
  destruct (updateGameState_doc d now code board nextTurn winner)
    as (d' & Hcall & Hjournal & Hdoc & Hother & Hdisc & _).
  exists d'.
  exists ([W_board code board; W_currentTurn code nextTurn;
           W_lastMoveTimestamp code now]
          ++ match winner with
             | Some w => [W_winner code w; W_status code FINISHED]
             | None => []
             end).
  split; [exact Hcall |]. split; [exact Hjournal |].
  split.
  { intros w. destruct winner as [w'|]; simpl; rewrite ?elem_of_cons;
      split.
    - intros [H|[H|[H|[H|[H|H]]]]]; try discriminate.
      + by injection H as ->.
      + by apply elem_of_nil in H.
    - intros [= ->]. auto 6.
    - intros [H|[H|[H|H]]]; try discriminate. by apply elem_of_nil in H.
    - discriminate. }
  split.
  { destruct winner as [w'|]; simpl; rewrite ?elem_of_cons; split.
    - discriminate.
    - auto 6.
    - intros [H|[H|[H|H]]]; try discriminate. by apply elem_of_nil in H.
    - congruence. }
  rewrite Hdoc. simpl.
  repeat (split; [reflexivity |]).
  split; [by destruct winner |].
  repeat (split; [reflexivity |]).
  split; [exact Hother |]. split; [exact Hdisc |].
  unfold winner_implies_finished. simpl.
  destruct winner; [reflexivity | tauto].
Qed.

(** On the sample store, pushing the final board with winner X marks room
    ABCD as finished and keeps both players. *)
Lemma updateGameState_frame_witness :
  winner_implies_finished (rtdb.get Samples.store_ABCD "ABCD")
  /\ exists d',
       (firebase.updateGameState (Some Samples.store_ABCD) 2000 "ABCD"
          [Sym X; Sym X; Sym X; Sym O; Sym O; null; null; null; null] O
          (Some (Won X))).2 = Some d'
       /\ d_status (rtdb.get d' "ABCD") = Some FINISHED
       /\ d_player1 (rtdb.get d' "ABCD")
          = d_player1 (rtdb.get Samples.store_ABCD "ABCD")
       /\ winner_implies_finished (rtdb.get d' "ABCD").
Proof.
  assert (winner_implies_finished (rtdb.get Samples.store_ABCD "ABCD"))
    as Hinv by (intros H; by destruct H).
  split; [exact Hinv |].
  destruct (updateGameState_frame Samples.store_ABCD 2000 "ABCD"
              [Sym X; Sym X; Sym X; Sym O; Sym O; null; null; null; null] O
              (Some (Won X)))
    as (d' & updates & Hcall & _ & _ & _ & _ & _ & _ & [_ Hst] & Hp1 & _ & _
        & _ & Hkeep).
  exists d'. rewrite Hcall. auto.
Defined.

End room_writes.

Section leaving.
Import types rtdb constants js Spec.

Lemma write_joined_twice (code : string) (k : PlayerKey) (doc : RoomDoc) :
  write_doc (W_joined code k false) (write_doc (W_joined code k false) doc)
  = write_doc (W_joined code k false) doc.
Proof. by destruct k. Qed.

(** C9.  With the store available, [leaveRoom] sets the [joined] leaf of
    the designated player to [false] and changes nothing else: every other
    leaf of the room (status, board, turn, winner, timestamp, both names
    and symbols, the other player's [joined]), every other room and the
    armed deferred writes are as before.  A second call with the same
    arguments leaves all documents as the first call left them. *)
Theorem leaveRoom_frame_idempotent
    (d : Database) (code : string) (isPlayer1 : bool) :
  let k := if isPlayer1 then key_player1 else key_player2 in
  let slot (doc : RoomDoc) :=
    if isPlayer1 then d_player1 doc else d_player2 doc in
  exists d1 d2,
    firebase.leaveRoom (Some d) code isPlayer1 = (Returned tt, Some d1)
    /\ firebase.leaveRoom (Some d1) code isPlayer1 = (Returned tt, Some d2)
    /\ d_joined (slot (rtdb.get d1 code)) = Some false
    /\ same_except_joined k (rtdb.get d code) (rtdb.get d1 code)
    /\ (forall code', code' <> code -> rooms d1 !! code' = rooms d !! code')
    /\ onDisconnect d1 = onDisconnect d
    /\ rooms d2 = rooms d1
    /\ onDisconnect d2 = onDisconnect d1.
Proof.
  intros k slot. unfold firebase.leaveRoom. fold k.
  eexists. eexists. split; [reflexivity |]. split; [reflexivity |].
  assert (Forall (fun w => write_code w = code) [W_joined code k false])
    as Hall by (repeat constructor).
  rewrite (update_same_room d _ code Hall). simpl foldl.
  split; [by subst k slot; destruct isPlayer1 |].
  split; [by subst k; destruct isPlayer1; repeat split |].
  split; [intros code' Hne; by apply update_other_room with (code := code) |].
  split; [reflexivity |]. split; [| reflexivity].
  unfold update, write_rooms. simpl.
  rewrite lookup_insert_eq. simpl default.
  rewrite insert_insert_eq. f_equal.
  apply (write_joined_twice code k).
Qed.

End leaving.

(* ===================================================================== *)
(** ** Room codes *)
(* ===================================================================== *)

Section room_codes.
Import types rtdb constants js Spec.
Local Open Scope Q_scope.

Lemma floor_times_range (r : Q) (n : nat) :
  0 <= r < 1 ->
  (0 <= floor_times r n)%Z
  /\ ((0 < n)%nat -> (floor_times r n < Z.of_nat n)%Z)
  /\ inject_Z (floor_times r n) <= r * inject_Z (Z.of_nat n)
     < inject_Z (floor_times r n) + 1.
Proof.
  intros [Hlo Hhi]. unfold floor_times.
  set (m := inject_Z (Z.of_nat n)).
  assert (0 <= m) as Hm.
  { subst m. change 0 with (inject_Z 0). rewrite <- Zle_Qle. lia. }
  assert (0 <= r * m) as Hprod by (by apply Qmult_le_0_compat).
  split; [| split].
  - change 0%Z with (Qfloor 0). by apply Qfloor_resp_le.
  - intros Hpos. rewrite Zlt_Qlt. fold m.
    apply Qle_lt_trans with (y := r * m); [apply Qfloor_le |].
    rewrite <- (Qmult_1_l m) at 2. apply Qmult_lt_compat_r; [| exact Hhi].
    subst m. change 0 with (inject_Z 0). rewrite <- Zlt_Qlt. lia.
  - split; [apply Qfloor_le |].
    pose proof (Qlt_floor (r * m)) as Hlt.
    by rewrite inject_Z_plus in Hlt.
Qed.

Lemma charAt_chars (k : Z) :
  (0 <= k < 32)%Z ->
  exists c,
    String.get (Z.to_nat k) firebase.chars = Some c
    /\ charAt firebase.chars k = String c "".
Proof.
  intros Hk. unfold charAt.
  destruct (Z.ltb_spec k 0); [lia |].
  assert (Z.to_nat k < 32)%nat as Hlt by lia.
  destruct (Z.to_nat k) as [|n]; [eexists; split; reflexivity |].
  do 31 (destruct n as [|n]; [eexists; split; reflexivity |]).
  lia.
Qed.

(** The alphabet: 32 distinct symbols, none of them 0, 1, O or I. *)
Lemma chars_alphabet :
  String.length firebase.chars = 32%nat
  /\ NoDup (list_ascii_of_string firebase.chars)
  /\ Forall (fun c => c ∉ list_ascii_of_string firebase.chars)
       (list_ascii_of_string "01OI").
Proof.
  split; [reflexivity |]. split.
  - apply (bool_decide_unpack _). by vm_compute.
  - apply (bool_decide_unpack _). by vm_compute.
Qed.

Lemma room_code_symbol (random : nat -> Q) (i : nat) :
  0 <= random i < 1 ->
  exists k c,
    (k < 32)%nat
    /\ String.get k firebase.chars = Some c
    /\ charAt firebase.chars
         (floor_times (random i) (String.length firebase.chars))
       = String c ""
    /\ inject_Z (Z.of_nat k) <= random i * 32 < inject_Z (Z.of_nat k) + 1.
Proof.
  intros Hr. change (String.length firebase.chars) with 32%nat.
  destruct (floor_times_range (random i) 32 Hr) as (H0 & H32 & Hb).
  specialize (H32 ltac:(lia)).
  set (z := floor_times (random i) 32) in *.
  destruct (charAt_chars z) as (c & Hget & Hat); [lia |].
  exists (Z.to_nat z), c. rewrite Z2Nat.id by exact H0.
  split; [lia |]. split; [exact Hget |]. split; [exact Hat |]. exact Hb.
Qed.

(** C8.  When the four draws lie in [0, 1), the generated code has length
    4, and its [i]-th character is the [k]-th symbol of the alphabet for
    the [k < 32] with [k <= 32 * draw_i < k + 1]: it depends on the [i]-th
    draw alone, and each symbol is chosen on a range of draws of width
    1/32.  The alphabet has 32 distinct symbols, none of them 0, 1, O or I.
    [createRoom] never reads the store: whatever the store holds under the
    generated code, it returns the code after the single commit that sets
    the room to the initial document, leaving the other rooms alone. *)
Theorem room_code_shape
    (random : nat -> Q) (d : Database) (now : Z) (playerName : string) :
  (forall i, (i < 4)%nat -> 0 <= random i < 1) ->
  let code := firebase.generateRoomCode random in
  String.length code = 4%nat
  /\ (forall i, (i < 4)%nat ->
        exists k,
          (k < 32)%nat
          /\ is_Some (String.get i code)
          /\ String.get i code = String.get k firebase.chars
          /\ inject_Z (Z.of_nat k) <= random i * 32
             < inject_Z (Z.of_nat k) + 1)
  /\ String.length firebase.chars = 32%nat
  /\ NoDup (list_ascii_of_string firebase.chars)
  /\ Forall (fun c => c ∉ list_ascii_of_string firebase.chars)
       (list_ascii_of_string "01OI")
  /\ exists d',
       firebase.createRoom (Some d) random now playerName
       = (Returned code, Some d')
       /\ journal d'
          = journal d ++ [Commit_set code (firebase.initialData playerName now)]
       /\ rtdb.get d' code = room_doc (firebase.initialData playerName now)
       /\ (forall code', code' <> code -> rooms d' !! code' = rooms d !! code').
Proof.
  intros Hdraws code.
  destruct (room_code_symbol random 0 (Hdraws 0%nat ltac:(lia)))
    as (k0 & c0 & Hk0 & Hg0 & Hc0 & Hb0).
  destruct (room_code_symbol random 1 (Hdraws 1%nat ltac:(lia)))
    as (k1 & c1 & Hk1 & Hg1 & Hc1 & Hb1).
  destruct (room_code_symbol random 2 (Hdraws 2%nat ltac:(lia)))
    as (k2 & c2 & Hk2 & Hg2 & Hc2 & Hb2).
  destruct (room_code_symbol random 3 (Hdraws 3%nat ltac:(lia)))
    as (k3 & c3 & Hk3 & Hg3 & Hc3 & Hb3).
  assert (code = String c0 (String c1 (String c2 (String c3 "")))) as Hcode.
  { subst code. unfold firebase.generateRoomCode.
    cbn [firebase.generateRoomCode_loop]. by rewrite Hc0, Hc1, Hc2, Hc3. }
  split; [by rewrite Hcode |]. split.
  { intros i Hi. rewrite Hcode.
    destruct i as [|[|[|[|i]]]]; [| | | | lia].
    - exists k0. rewrite Hg0. simpl. eauto.
    - exists k1. rewrite Hg1. simpl. eauto.
    - exists k2. rewrite Hg2. simpl. eauto.
    - exists k3. rewrite Hg3. simpl. eauto. }
  destruct chars_alphabet as (Hlen & Hnodup & Hnone).
  split; [exact Hlen |]. split; [exact Hnodup |]. split; [exact Hnone |].
  unfold firebase.createRoom. fold code. eexists. split; [reflexivity |].
  split; [reflexivity |]. unfold rtdb.get. simpl. split.
  - by rewrite lookup_insert_eq.
  - intros code' Hne. by rewrite lookup_insert_ne.
Qed.

(** With the sample draws 0, 1/4, 1/2 and 3/4 the code is AJS2, and
    creating a room in a store that already holds AJS2 replaces it. *)
Lemma room_code_shape_witness :
  (forall i, (i < 4)%nat -> 0 <= Samples.draws i < 1)
  /\ firebase.generateRoomCode Samples.draws = "AJS2"
  /\ String.length (firebase.generateRoomCode Samples.draws) = 4%nat
  /\ exists d',
       (firebase.createRoom
          (Some (rtdb.set Samples.empty_store "AJS2" Samples.room_ABCD))
          Samples.draws 3000 "Zoe").2 = Some d'
       /\ rtdb.get d' "AJS2" = room_doc (firebase.initialData "Zoe" 3000).
Proof.
  assert (forall i, (i < 4)%nat -> 0 <= Samples.draws i < 1) as Hdraws.
  { intros i Hi. destruct i as [|[|[|[|i]]]]; [| | | | lia];
      split; by vm_compute. }
  destruct (room_code_shape Samples.draws
              (rtdb.set Samples.empty_store "AJS2" Samples.room_ABCD)
              3000 "Zoe" Hdraws)
    as (Hlen & _ & _ & _ & _ & d' & Hcreate & _ & Hdoc & _).
  split; [exact Hdraws |]. split; [by vm_compute |]. split; [exact Hlen |].
  exists d'. rewrite Hcreate. split; [reflexivity | exact Hdoc].
Defined.

End room_codes.

(* ===================================================================== *)
(** ** The one-shot lobby transition *)
(* ===================================================================== *)

Section transition_latch.
Import types rtdb constants js Spec.

Lemma signals_app (l1 l2 : list App.Effect) :
  signals (l1 ++ l2) = (signals l1 + signals l2)%nat.
Proof. unfold signals. by rewrite filter_app, length_app. Qed.

(** One snapshot: the timer is armed exactly when the latch is open and
    the snapshot reports player2 as joined, and the latch is then closed. *)
Lemma onRoomData_latch (s : App.App) (data : RoomData) :
  signals (App.onRoomData s data).2
  = (if negb (App.hasTransitionedToGameRef s)
        && joined (player2 (players data))
     then 1 else 0)%nat
  /\ App.hasTransitionedToGameRef (App.onRoomData s data).1
     = App.hasTransitionedToGameRef s || joined (player2 (players data)).
Proof.
  unfold App.onRoomData. destruct s as [? ? ? ? ? ? ? ? ? ? ? ? ? ? ? latch].
  cbn [App.hasTransitionedToGameRef].
  destruct (bool_decide _);
    destruct (types.winner data) as [[?|]|];
    try destruct (App.first_line _ _);
    destruct latch;
    destruct (joined (player2 (players data))) eqn:Hjoined;
    simpl; rewrite ?Hjoined; split; reflexivity.
Qed.

Lemma handleMove_latch (s : App.App) (db : option Database) (now : Z)
    (index : nat) :
  signals (App.handleMove s db now index).2 = 0%nat
  /\ App.hasTransitionedToGameRef (App.handleMove s db now index).1.1
     = App.hasTransitionedToGameRef s.
Proof.
  unfold App.handleMove.
  repeat match goal with
         | |- context [if ?b then _ else _] => destruct b
         end;
    try (split; reflexivity);
    try (destruct (firebase.updateGameState _ _ _ _ _ _); split; reflexivity);
    destruct (App.checkGameStatus _); split; reflexivity.
Qed.

Lemma handlePlayAgain_latch (s : App.App) (db : option Database) (now : Z) :
  signals (App.handlePlayAgain s db now).2 = 0%nat
  /\ App.hasTransitionedToGameRef (App.handlePlayAgain s db now).1.1
     = App.hasTransitionedToGameRef s.
Proof.
  unfold App.handlePlayAgain. case_bool_decide.
  - destruct (firebase.updateGameState _ _ _ _ _ _). by split.
  - by split.
Qed.

Lemma step_latch (s : App.App) (db : option Database) (e : Event) :
  signals (step s db e).2
  = (if negb (App.hasTransitionedToGameRef s) && reports_joined e
     then 1 else 0)%nat
  /\ App.hasTransitionedToGameRef (step s db e).1.1
     = App.hasTransitionedToGameRef s || reports_joined e.
Proof.
  destruct e as [data|index now|now|]; simpl.
  - destruct (onRoomData_latch s data) as [H1 H2].
    by destruct (App.onRoomData s data).
  - destruct (handleMove_latch s db now index) as [-> ->].
    by rewrite andb_false_r, orb_false_r.
  - destruct (handlePlayAgain_latch s db now) as [-> ->].
    by rewrite andb_false_r, orb_false_r.
  - by rewrite andb_false_r, orb_false_r.
Qed.

Lemma run_latch (events : list Event) (s : App.App) (db : option Database) :
  signals (run s db events).2
  = (if negb (App.hasTransitionedToGameRef s) && existsb reports_joined events
     then 1 else 0)%nat
  /\ App.hasTransitionedToGameRef (run s db events).1.1
     = App.hasTransitionedToGameRef s || existsb reports_joined events.
Proof.
  revert s db. induction events as [|e rest IH]; intros s db; simpl.
  - by rewrite andb_false_r, orb_false_r.
  - destruct (step_latch s db e) as [Hsig Hflag].
    destruct (step s db e) as [[s1 db1] eff1]. simpl in Hsig, Hflag.
    destruct (IH s1 db1) as [Hsig' Hflag'].
    destruct (run s1 db1 rest) as [[s2 db2] eff2]. simpl in *.
    rewrite signals_app, Hsig, Hsig', Hflag', Hflag.
    destruct (App.hasTransitionedToGameRef s), (reports_joined e),
      (existsb reports_joined rest); split; reflexivity.
Qed.

(** C6.  [handleCreateRoom], which opens the lobby, leaves the latch open.
    Over any sequence of snapshots, moves, play-again clicks and timer
    firings that follows,
    the auto-transition timer is armed once if some snapshot reports
    player2 as joined and never otherwise, however many snapshots report
    it.  A listener run that arms the timer returns with the latch closed,
    and a run that starts with the latch closed arms nothing and keeps it
    closed. *)
Theorem opponent_joined_fires_once
    (s0 : App.App) (d : Database) (random : nat -> Q) (now : Z)
    (events : list Event) :
  let lobby := App.handleCreateRoom s0 (Some d) random now in
  App.view lobby.1.1 = App.LOBBY
  /\ App.hasTransitionedToGameRef lobby.1.1 = false
  /\ signals (run lobby.1.1 lobby.1.2 events).2
     = (if existsb reports_joined events then 1 else 0)%nat
  /\ (forall s data,
        signals (App.onRoomData s data).2 <> 0%nat ->
        App.hasTransitionedToGameRef (App.onRoomData s data).1 = true)
  /\ (forall s data,
        App.hasTransitionedToGameRef s = true ->
        signals (App.onRoomData s data).2 = 0%nat
        /\ App.hasTransitionedToGameRef (App.onRoomData s data).1 = true).
Proof.
  intros lobby.
  assert (App.view lobby.1.1 = App.LOBBY
          /\ App.hasTransitionedToGameRef lobby.1.1 = false) as [Hview Hflag].
  { subst lobby. unfold App.handleCreateRoom, firebase.createRoom.
    split; reflexivity. }
  split; [exact Hview |]. split; [exact Hflag |]. split; [| split].
  - destruct (run_latch events lobby.1.1 lobby.1.2) as [-> _].
    by rewrite Hflag.
  - intros s data. destruct (onRoomData_latch s data) as [-> ->].
    destruct (App.hasTransitionedToGameRef s),
      (joined (player2 (players data))); simpl; congruence.
  - intros s data Hclosed. destruct (onRoomData_latch s data) as [-> ->].
    by rewrite Hclosed.
Qed.

(** Ann opens a lobby; a snapshot without opponent arrives, then three
    snapshots reporting Bob as joined, with the timer firing and a move in
    between: the timer is armed once, and the view ends in GAME. *)
Lemma opponent_joined_fires_once_witness :
  let waiting := firebase.initialData "Ann" 1000 in
  let events :=
    [Snapshot waiting; Snapshot Samples.room_ABCD; Snapshot Samples.room_ABCD;
     TimerFired; Click 0 2000; Snapshot Samples.room_ABCD] in
  let lobby :=
    App.handleCreateRoom Samples.local_match (Some Samples.empty_store)
      Samples.draws 1000 in
  signals (run lobby.1.1 lobby.1.2 events).2 = 1%nat
  /\ App.view (run lobby.1.1 lobby.1.2 events).1.1 = App.GAME.
Proof.
  intros waiting events lobby. split.
  - destruct (opponent_joined_fires_once Samples.local_match
                Samples.empty_store Samples.draws 1000 events)
      as (_ & _ & Honce & _).
    exact Honce.
  - by vm_compute.
Defined.

End transition_latch.

(* ===================================================================== *)
(** ** The local opponent (services/ai.ts) *)
(* ===================================================================== *)

Section local_opponent.
Import types rtdb constants js Spec.

Lemma availableMoves_spec (board : list CellValue) (i : nat) :
  i ∈ ai.availableMoves board <-> board !! i = Some null.
Proof.
  unfold ai.availableMoves. rewrite list_elem_of_omap. split.
  - intros (x & Hx & Hid). simpl in Hid. subst x.
    apply elem_of_lookup_imap in Hx as (j & v & Hv & Hj).
    destruct (strict_eq v null) eqn:Heq; [| discriminate].
    apply strict_eq_true in Heq. by simplify_eq.
  - intros Hi. exists (Some i). split; [| reflexivity].
    apply elem_of_lookup_imap. exists i, null. by split.
Qed.

Lemma get_null_lookup (board : list CellValue) (i : nat) :
  get board i = null <-> board !! i = Some null.
Proof.
  unfold get. split.
  - destruct (board !! i); [by intros -> | discriminate].
  - by intros ->.
Qed.

Lemma move_at_in (moves : list nat) (k : Z) :
  (0 <= k < Z.of_nat (length moves))%Z ->
  exists m, ai.move_at moves k = Some (Z.of_nat m) /\ m ∈ moves.
Proof.
  intros Hk. unfold ai.move_at.
  destruct (Z.ltb_spec k 0); [lia |].
  destruct (lookup_lt_is_Some_2 moves (Z.to_nat k)) as [m Hm]; [lia |].
  exists m. rewrite Hm. split; [reflexivity |].
  apply list_elem_of_lookup. eauto.
Qed.

Lemma winning_move_in (mark : PlayerSymbol) (moves : list nat)
    (board : list CellValue) (m : nat) :
  ai.winning_move mark moves board = Some m -> m ∈ moves.
Proof.
  induction moves as [|move rest IH]; simpl; [discriminate |].
  case_bool_decide.
  - intros [= ->]. apply list_elem_of_here.
  - intros H'. apply list_elem_of_further. auto.
Qed.

Lemma count_null_insert (board : list CellValue) (i : nat)
    (mark : PlayerSymbol) :
  board !! i = Some null ->
  S (count_null (<[i := Sym mark]> board)) = count_null board.
Proof.
  unfold count_null. revert i.
  induction board as [|v board IH]; intros i Hi; [discriminate |].
  destruct i as [|i]; simpl in *.
  - injection Hi as ->. rewrite !filter_cons.
    destruct (decide (Sym mark = null)); [discriminate |].
    destruct (decide (null = null)); [reflexivity | congruence].
  - rewrite !filter_cons. destruct (decide (v = null)); simpl;
      by rewrite IH.
Qed.

Lemma count_null_length (board : list CellValue) :
  (count_null board <= length board)%nat.
Proof. apply length_filter. Qed.

(** Trying a symbol in an empty cell and taking it back restores the
    board. *)
Lemma try_and_restore (board : list CellValue) (i : nat)
    (mark : PlayerSymbol) :
  get board i = null ->
  set (set board i (Sym mark)) i null = board
  /\ S (count_null (set board i (Sym mark))) = count_null board.
Proof.
  intros Hnull. pose proof (get_null_lt _ _ Hnull) as Hlt. split.
  - rewrite set_set by done. rewrite <- Hnull. by apply set_get.
  - rewrite set_inside by done. apply count_null_insert.
    by apply get_null_lookup.
Qed.

Lemma minimax_loop_total (mark : PlayerSymbol) (pick : Num -> Num -> Num)
    (rec : list CellValue -> option (Num * list CellValue)) (fuel : nat)
    (board : list CellValue) :
  (forall b, (count_null b < fuel)%nat -> exists score, rec b = Some (score, b)) ->
  (count_null board <= fuel)%nat ->
  forall todo i bestScore,
    exists score,
      ai.minimax_loop mark pick rec todo i bestScore board
      = Some (score, board).
Proof.
  intros Hrec Hfuel todo.
  induction todo as [|todo IH]; intros i bestScore;
    cbn [ai.minimax_loop]; [eauto |].
  destruct (strict_eq (get board i) null) eqn:Hcell; [| apply IH].
  apply strict_eq_true in Hcell.
  destruct (try_and_restore board i mark Hcell) as [Hback Hcount].
  destruct (Hrec (set board i (Sym mark))) as [score Hscore]; [lia |].
  rewrite Hscore, Hback. apply IH.
Qed.

(** [minimax] returns, and returns the board as it received it, as soon as
    the fuel exceeds the number of empty cells. *)
Lemma minimax_total (fuel : nat) :
  forall (board : list CellValue) (depth : Z) (isMaximizing : bool),
    (count_null board < fuel)%nat ->
    exists score, ai.minimax fuel board depth isMaximizing = Some (score, board).
Proof.
  induction fuel as [|fuel IH]; intros board depth isMaximizing Hfuel;
    [lia |].
  cbn [ai.minimax]. destruct (ai.checkWinner board) as [[[|]|]|]; eauto.
  destruct isMaximizing.
  - apply minimax_loop_total with (fuel := fuel); [| lia].
    intros b Hb. by apply IH.
  - apply minimax_loop_total with (fuel := fuel); [| lia].
    intros b Hb. by apply IH.
Qed.

(** The HARD loop returns, leaves the board as it found it, and its move is
    [-1] or the index of an empty cell. *)
Lemma hard_loop_total (fuel : nat) (board : list CellValue) :
  (count_null board <= fuel)%nat ->
  forall todo i bestScore move,
    (move = -1 \/ (0 <= move /\ get board (Z.to_nat move) = null))%Z ->
    exists move',
      ai.hard_loop fuel todo i bestScore move board = Some (move', board)
      /\ (move' = -1 \/ (0 <= move' /\ get board (Z.to_nat move') = null))%Z.
Proof.
  intros Hfuel todo.
  induction todo as [|todo IH]; intros i bestScore move Hmove;
    cbn [ai.hard_loop]; [eauto |].
  destruct (strict_eq (get board i) null) eqn:Hcell; [| by apply IH].
  apply strict_eq_true in Hcell.
  destruct (try_and_restore board i O Hcell) as [Hback Hcount].
  destruct (minimax_total fuel (set board i (Sym O)) 0 false) as [score Hs];
    [lia |].
  rewrite Hs, Hback. destruct (gt score bestScore); apply IH; [| done].
  right. split; [lia |]. by rewrite Nat2Z.id.
Qed.

Lemma empty_cell_move (board : list CellValue) (m : nat) :
  length board = 9%nat ->
  m ∈ ai.availableMoves board ->
  (0 <= Z.of_nat m)%Z /\ get board (Z.to_nat (Z.of_nat m)) = null.
Proof.
  intros Hlen Hm. split; [lia |]. rewrite Nat2Z.id.
  by apply get_null_lookup, availableMoves_spec.
Qed.

Lemma random_move (board : list CellValue) (r : Q) :
  length board = 9%nat ->
  (0 <= r < 1)%Q ->
  ai.availableMoves board <> [] ->
  exists move,
    ai.move_at (ai.availableMoves board)
      (floor_times r (length (ai.availableMoves board))) = Some move
    /\ (0 <= move)%Z /\ get board (Z.to_nat move) = null.
Proof.
  intros Hlen Hr Hne.
  destruct (floor_times_range r (length (ai.availableMoves board)) Hr)
    as (H0 & Hlt & _).
  assert (0 < length (ai.availableMoves board))%nat as Hpos.
  { destruct (ai.availableMoves board); [done | simpl; lia]. }
  destruct (move_at_in (ai.availableMoves board)
              (floor_times r (length (ai.availableMoves board))))
    as (m & Hat & Hin); [split; [exact H0 | by apply Hlt] |].
  exists (Z.of_nat m). split; [exact Hat |]. by apply empty_cell_move.
Qed.

(** C10.  On a board of nine cells, with enough fuel for [minimax] and a
    draw in [0, 1), [getBestMove] returns a number and leaves the board as
    it was.  The number is [-1] exactly when no cell is [null]; otherwise
    it is an index between 0 and 8 whose cell is [null], hence a cell that
    is not occupied and that the occupancy guard of [handleMove] lets
    through. *)
Theorem getBestMove_proposes_empty_cell
    (fuel : nat) (board : list CellValue) (difficulty : Difficulty)
    (random : nat -> Q) :
  length board = 9%nat ->
  (9 <= fuel)%nat ->
  (0 <= random 0%nat < 1)%Q ->
  exists move,
    ai.getBestMove fuel board difficulty random = Some (Some move, board)
    /\ (move = -1 <-> forall i, (i < 9)%nat -> get board i <> null)
    /\ (move <> -1 ->
        0 <= move < 9
        /\ get board (Z.to_nat move) = null
        /\ ~ occupied board (Z.to_nat move)
        /\ truthy (get board (Z.to_nat move)) = false).
Proof.
  intros Hlen Hfuel Hr.
  assert (forall move,
            (0 <= move /\ get board (Z.to_nat move) = null) ->
            (move = -1 <-> forall i, (i < 9)%nat -> get board i <> null)
            /\ (move <> -1 ->
                0 <= move < 9
                /\ get board (Z.to_nat move) = null
                /\ ~ occupied board (Z.to_nat move)
                /\ truthy (get board (Z.to_nat move)) = false)) as Hgood.
  { intros move [Hpos Hnull].
    pose proof (get_null_lt _ _ Hnull) as Hlt. rewrite Hlen in Hlt.
    split.
    - split; [lia |]. intros Hnone. exfalso.
      by apply (Hnone (Z.to_nat move)).
    - intros _. split; [lia |]. split; [exact Hnull |].
      split; [| by rewrite Hnull].
      intros [sym Hsym]. congruence. }
  unfold ai.getBestMove.
  destruct (Nat.eqb_spec (length (ai.availableMoves board)) 0) as [Hempty|Hne].
  { exists (-1). split; [reflexivity |]. split; [| done].
    split; [| done]. intros _ i Hi Hnull.
    apply get_null_lookup, availableMoves_spec in Hnull.
    apply nil_length_inv in Hempty. rewrite Hempty in Hnull.
    by apply elem_of_nil in Hnull. }
  assert (ai.availableMoves board <> []) as Hsome.
  { intros Hnil. by rewrite Hnil in Hne. }
  destruct (random_move board (random 0%nat) Hlen Hr Hsome)
    as (rmove & Hrmove & Hrgood).
  destruct difficulty.
  - (* EASY *)
    exists rmove. rewrite Hrmove. split; [reflexivity | by apply Hgood].
  - (* MEDIUM *)
    destruct (ai.winning_move O (ai.availableMoves board) board) as [m|] eqn:HO.
    { exists (Z.of_nat m). split; [reflexivity |].
      apply Hgood, empty_cell_move; [done |]. by eapply winning_move_in. }
    destruct (ai.winning_move X (ai.availableMoves board) board) as [m|] eqn:HX.
    { exists (Z.of_nat m). split; [reflexivity |].
      apply Hgood, empty_cell_move; [done |]. by eapply winning_move_in. }
    exists rmove. rewrite Hrmove. split; [reflexivity | by apply Hgood].
  - (* HARD *)
    destruct ((8 <=? length (ai.availableMoves board))%nat
              && strict_eq (get board 4) null) eqn:Hcentre.
    { apply andb_true_iff in Hcentre as [_ Hcentre].
      apply strict_eq_true in Hcentre.
      exists 4. split; [reflexivity |]. apply Hgood. split; [lia | done]. }
    destruct (hard_loop_total fuel board) with
      (todo := 9%nat) (i := 0%nat) (bestScore := NegInfinity) (move := -1)
      as (move' & Hloop & Hmove'); [| by left |].
    { pose proof (count_null_length board). lia. }
    rewrite Hloop. destruct Hmove' as [-> | Hmove'].
    + simpl negb. cbv iota.
      destruct (ai.availableMoves board) as [|m rest] eqn:Hmoves; [done |].
      exists (Z.of_nat m). split; [reflexivity |].
      apply Hgood, empty_cell_move; [done |]. rewrite Hmoves.
      apply list_elem_of_here.
    + exists move'. destruct (Z.eqb_spec move' (-1)) as [-> | _]; [lia |].
      split; [reflexivity | by apply Hgood].
Qed.

(** On the board X X _ / O O _ / _ _ _ the HARD opponent completes its
    row at cell 5, and on a full board every difficulty answers [-1]. *)
Lemma getBestMove_proposes_empty_cell_witness :
  let board := [Sym X; Sym X; null; Sym O; Sym O; null; null; null; null] in
  length board = 9%nat
  /\ (0 <= Samples.draws 0 < 1)%Q
  /\ ai.getBestMove 9 board HARD Samples.draws = Some (Some 5, board)
  /\ exists move,
       ai.getBestMove 9 board MEDIUM Samples.draws = Some (Some move, board)
       /\ 0 <= move < 9
       /\ get board (Z.to_nat move) = null.
Proof.
  intros board.
  assert (0 <= Samples.draws 0 < 1)%Q as Hr by (split; by vm_compute).
  split; [reflexivity |]. split; [exact Hr |]. split; [by vm_compute |].
  destruct (getBestMove_proposes_empty_cell 9 board MEDIUM Samples.draws)
    as (move & Hcall & Hiff & Hmove); [reflexivity | lia | exact Hr |].
  exists move. split; [exact Hcall |].
  assert (move <> -1) as Hne.
  { intros Heq. apply (proj1 Hiff Heq 2%nat); [lia | reflexivity]. }
  destruct (Hmove Hne) as (Hrange & Hnull & _). by split.
Defined.

End local_opponent.

(* ===================================================================== *)
(** ** Further properties: the three line scans agree *)
(* ===================================================================== *)

Section line_scans.
Import types rtdb constants js Spec.

Lemma checkWinner_loop_scan (combos : list Combo) (board : list CellValue) :
  ai.checkWinner_loop combos board
  = match App.checkGameStatus_loop combos board with
    | Some {| App.st_winner := Won s |} => Some s
    | _ => None
    end.
Proof.
  induction combos as [|[[a b] c] rest IH]; [reflexivity |].
  simpl. unfold ai.three_equal.
  destruct (get board a) as [s| |] eqn:Ha; simpl; try exact IH.
  destruct (strict_eq (Sym s) (get board b)); simpl; try exact IH.
  destruct (strict_eq (Sym s) (get board c)); simpl; [reflexivity | exact IH].
Qed.

Lemma checkGameStatus_loop_won (combos : list Combo) (board : list CellValue)
    (r : App.Status) :
  App.checkGameStatus_loop combos board = Some r ->
  exists s combo, r = {| App.st_winner := Won s; App.st_line := Some combo |}.
Proof.
  induction combos as [|[[a b] c] rest IH]; [discriminate |].
  simpl. destruct (get board a) as [s| |]; try exact IH.
  destruct (_ && _); [| exact IH].
  intros [= <-]. eauto.
Qed.

Lemma first_line_scan (combos : list Combo) (board : list CellValue) :
  App.first_line combos board
  = match App.checkGameStatus_loop combos board with
    | Some r => App.st_line r
    | None => None
    end.
Proof.
  induction combos as [|[[a b] c] rest IH]; [reflexivity |].
  simpl. destruct (get board a) as [s| |] eqn:Ha; simpl; try exact IH.
  destruct (strict_eq (Sym s) (get board b)); simpl; try exact IH.
  destruct (strict_eq (Sym s) (get board c)); simpl; [reflexivity | exact IH].
Qed.

(** X1.  The three scans of the winning combinations in the code agree on
    every board: the AI's [checkWinner] returns the winner that the
    controller's [checkGameStatus] returns, and the line the room listener
    recomputes for highlighting is the line of [checkGameStatus]. *)
Theorem line_scans_agree (board : list CellValue) :
  ai.checkWinner board = App.st_winner <$> App.checkGameStatus board
  /\ App.first_line WINNING_COMBINATIONS board
     = match App.checkGameStatus board with
       | Some r => App.st_line r
       | None => None
       end.
Proof.
  unfold ai.checkWinner, App.checkGameStatus.
  rewrite checkWinner_loop_scan, first_line_scan.
  destruct (App.checkGameStatus_loop WINNING_COMBINATIONS board) as [r|] eqn:Hr.
  - apply checkGameStatus_loop_won in Hr as (s & combo & ->). by split.
  - by destruct (negb (includes board null)).
Qed.

End line_scans.

(* ===================================================================== *)
(** ** Further properties: what a move changes on the board *)
(* ===================================================================== *)

Section marks.
Import types rtdb constants js Spec.

Lemma get_set_other (arr : list CellValue) (i j : nat) (v : CellValue) :
  i <> j -> get (set arr i v) j = get arr j.
Proof.
  intros Hne. unfold set.
  destruct (Nat.ltb_spec i (length arr)) as [Hlt|Hge].
  - unfold get. by rewrite list_lookup_insert_ne.
  - unfold get. destruct (decide (j < length arr)%nat) as [Hj|Hj].
    + by rewrite lookup_app_l.
    + rewrite (lookup_ge_None_2 arr j) by lia.
      rewrite lookup_app_r by lia.
      destruct (decide (j - length arr < i - length arr)%nat) as [Hin|Hout].
      * rewrite lookup_app_l by (by rewrite length_replicate).
        by rewrite lookup_replicate_2.
      * rewrite lookup_app_r by (rewrite length_replicate; lia).
        rewrite length_replicate.
        destruct (j - length arr - (i - length arr))%nat as [|n] eqn:Hn;
          [lia | reflexivity].
Qed.

Lemma handleMove_board_cases (s : App.App) (db : option Database) (now : Z)
    (index : nat) :
  App.board (App.handleMove s db now index).1.1 = App.board s
  \/ (truthy (get (App.board s) index) = false
      /\ App.board (App.handleMove s db now index).1.1
         = set (App.board s) index (Sym (App.currentTurn s))).
Proof.
  unfold App.handleMove.
  destruct (truthy (get (App.board s) index)) eqn:Hcell; [by left |].
  repeat match goal with
         | |- context [if ?b then _ else _] => destruct b
         end;
    try (by left);
    try (destruct (firebase.updateGameState _ _ _ _ _ _); by left);
    right; (split; [reflexivity |]);
    by destruct (App.checkGameStatus _).
Qed.

Lemma rootHandleMove_board_cases (s : App.App) (db : option Database)
    (now : Z) (index : nat) :
  App.board (RootApp.handleMove s db now index).1.1 = App.board s
  \/ (truthy (get (App.board s) index) = false
      /\ App.board (RootApp.handleMove s db now index).1.1
         = set (App.board s) index (Sym (App.currentTurn s))).
Proof.
  unfold RootApp.handleMove.
  destruct (truthy (get (App.board s) index)) eqn:Hcell; [by left |].
  repeat match goal with
         | |- context [if ?b then _ else _] => destruct b
         end;
    try (by left);
    right; (split; [reflexivity |]);
    destruct (App.checkGameStatus _);
    repeat match goal with
           | |- context [if ?b then _ else _] => destruct b
           end;
    try (destruct (firebase.updateGameState _ _ _ _ _ _)); reflexivity.
Qed.

(** X2.  Whatever the mode and the arguments, [handleMove] (in both copies
    of the component) changes the local board at most in the cell it is
    given, and never when that cell already holds a symbol: every other
    cell, and every cell holding X or O, reads after the call as it did
    before. *)
Theorem handleMove_keeps_marks
    (s : App.App) (db : option Database) (now : Z) (index j : nat) :
  j <> index \/ truthy (get (App.board s) j) = true ->
  get (App.board (App.handleMove s db now index).1.1) j = get (App.board s) j
  /\ get (App.board (RootApp.handleMove s db now index).1.1) j
     = get (App.board s) j.
Proof.
  intros Hj. split.
  - destruct (handleMove_board_cases s db now index) as [-> | [Hfree ->]];
      [reflexivity |].
    apply get_set_other. destruct Hj as [Hj | Hj]; [congruence |].
    intros ->. congruence.
  - destruct (rootHandleMove_board_cases s db now index) as [-> | [Hfree ->]];
      [reflexivity |].
    apply get_set_other. destruct Hj as [Hj | Hj]; [congruence |].
    intros ->. congruence.
Qed.

(** On the sample same-device match, the move at the free cell 2 leaves
    the O of cell 3 in place, and a click on that O changes nothing. *)
Lemma handleMove_keeps_marks_witness :
  get (App.board (App.handleMove Samples.local_match None 0 2).1.1) 3 = Sym O
  /\ get (App.board (App.handleMove Samples.local_match None 0 3).1.1) 3
     = Sym O.
Proof.
  split.
  - apply (handleMove_keeps_marks Samples.local_match None 0 2 3). left. lia.
  - apply (handleMove_keeps_marks Samples.local_match None 0 3 3). by right.
Defined.

End marks.

(* ===================================================================== *)
(** ** Further properties: the MEDIUM opponent *)
(* ===================================================================== *)

Section medium_opponent.
Import types rtdb constants js Spec.

Lemma winning_move_some (mark : PlayerSymbol) (moves : list nat)
    (board : list CellValue) (m : nat) :
  ai.winning_move mark moves board = Some m ->
  m ∈ moves /\ ai.checkWinner (set board m (Sym mark)) = Some (Won mark).
Proof.
  induction moves as [|move rest IH]; simpl; [discriminate |].
  case_bool_decide as Hwin.
  - intros [= <-]. split; [apply list_elem_of_here | exact Hwin].
  - intros Hrest. destruct (IH Hrest) as [Hin Hm].
    split; [by apply list_elem_of_further | exact Hm].
Qed.

Lemma winning_move_none (mark : PlayerSymbol) (moves : list nat)
    (board : list CellValue) :
  ai.winning_move mark moves board = None ->
  forall m, m ∈ moves ->
    ai.checkWinner (set board m (Sym mark)) <> Some (Won mark).
Proof.
  induction moves as [|move rest IH]; simpl.
  - intros _ m Hm. by apply elem_of_nil in Hm.
  - case_bool_decide as Hwin; [discriminate |].
    intros Hrest m Hm. apply elem_of_cons in Hm as [-> | Hm]; [exact Hwin |].
    by apply IH.
Qed.

Lemma availableMoves_nonempty (board : list CellValue) (i : nat) :
  get board i = null -> (length (ai.availableMoves board) =? 0)%nat = false.
Proof.
  intros Hnull. apply get_null_lookup, availableMoves_spec in Hnull.
  destruct (ai.availableMoves board); [by apply elem_of_nil in Hnull | done].
Qed.

(** X3.  The MEDIUM opponent wins when it can and blocks when it must.  If
    placing an O in some empty cell wins at once, the move returned is an
    empty cell where an O wins at once.  If no such cell exists and placing
    an X in some empty cell would win at once, the move returned is an
    empty cell where that X would win: the threat is blocked.  In both
    cases the board is returned as it was given. *)
Theorem medium_wins_or_blocks
    (fuel : nat) (board : list CellValue) (random : nat -> Q) :
  let wins (mark : PlayerSymbol) (m : nat) :=
    ai.checkWinner (set board m (Sym mark)) = Some (Won mark) in
  ((exists i, get board i = null /\ wins O i) ->
   exists m,
     ai.getBestMove fuel board MEDIUM random = Some (Some (Z.of_nat m), board)
     /\ get board m = null /\ wins O m)
  /\ ((forall i, get board i = null -> ~ wins O i) ->
      (exists i, get board i = null /\ wins X i) ->
      exists m,
        ai.getBestMove fuel board MEDIUM random
        = Some (Some (Z.of_nat m), board)
        /\ get board m = null /\ wins X m).
Proof.
  intros wins. split.
  - intros (i & Hnull & Hwin). unfold ai.getBestMove.
    rewrite (availableMoves_nonempty board i Hnull).
    destruct (ai.winning_move O (ai.availableMoves board) board) as [m|] eqn:HO.
    + apply winning_move_some in HO as [Hin Hm]. exists m.
      split; [reflexivity |]. split; [| exact Hm].
      by apply get_null_lookup, availableMoves_spec.
    + exfalso. apply (winning_move_none _ _ _ HO i); [| exact Hwin].
      by apply availableMoves_spec, get_null_lookup.
  - intros Hno (i & Hnull & Hwin). unfold ai.getBestMove.
    rewrite (availableMoves_nonempty board i Hnull).
    destruct (ai.winning_move O (ai.availableMoves board) board) as [m|] eqn:HO.
    { apply winning_move_some in HO as [Hin Hm]. exfalso.
      apply (Hno m); [| exact Hm].
      by apply get_null_lookup, availableMoves_spec. }
    destruct (ai.winning_move X (ai.availableMoves board) board) as [m|] eqn:HX.
    + apply winning_move_some in HX as [Hin Hm]. exists m.
      split; [reflexivity |]. split; [| exact Hm].
      by apply get_null_lookup, availableMoves_spec.
    + exfalso. apply (winning_move_none _ _ _ HX i); [| exact Hwin].
      by apply availableMoves_spec, get_null_lookup.
Qed.

(** On X X _ / O O _ / _ _ _ MEDIUM completes its row at cell 5 although X
    threatens at cell 2; on X X _ / O _ _ / _ _ _ it blocks at cell 2. *)
Lemma medium_wins_or_blocks_witness :
  (exists m,
     ai.getBestMove 0
       [Sym X; Sym X; null; Sym O; Sym O; null; null; null; null]
       MEDIUM Samples.draws
     = Some (Some (Z.of_nat m),
             [Sym X; Sym X; null; Sym O; Sym O; null; null; null; null])
     /\ m = 5%nat)
  /\ (exists m,
        ai.getBestMove 0
          [Sym X; Sym X; null; Sym O; null; null; null; null; null]
          MEDIUM Samples.draws
        = Some (Some (Z.of_nat m),
                [Sym X; Sym X; null; Sym O; null; null; null; null; null])
        /\ m = 2%nat).
Proof.
  split.
  - destruct (proj1 (medium_wins_or_blocks 0
                [Sym X; Sym X; null; Sym O; Sym O; null; null; null; null]
                Samples.draws)) as (m & Hcall & _ & _).
    { exists 5%nat. split; reflexivity. }
    exists m. split; [exact Hcall |].
    assert (ai.getBestMove 0
              [Sym X; Sym X; null; Sym O; Sym O; null; null; null; null]
              MEDIUM Samples.draws
            = Some (Some 5,
                    [Sym X; Sym X; null; Sym O; Sym O; null; null; null; null]))
      as Heval by (by vm_compute).
    rewrite Heval in Hcall. injection Hcall as Hm. lia.
  - destruct (proj2 (medium_wins_or_blocks 0
                [Sym X; Sym X; null; Sym O; null; null; null; null; null]
                Samples.draws)) as (m & Hcall & _ & _).
    { intros i Hnull Hwin.
      do 9 (destruct i as [|i]; [by vm_compute in Hwin |]).
      discriminate. }
    { exists 2%nat. split; reflexivity. }
    exists m. split; [exact Hcall |].
    assert (ai.getBestMove 0
              [Sym X; Sym X; null; Sym O; null; null; null; null; null]
              MEDIUM Samples.draws
            = Some (Some 2,
                    [Sym X; Sym X; null; Sym O; null; null; null; null; null]))
      as Heval by (by vm_compute).
    rewrite Heval in Hcall. injection Hcall as Hm. lia.
Defined.

End medium_opponent.

(* ===================================================================== *)
(** ** Further properties: offline play *)
(* ===================================================================== *)

Section offline_play.
Import types rtdb constants js Spec.

(** [getBestMove] returns and restores the board; its move is [-1] or the
    index of an empty cell.  HARD draws nothing. *)
Lemma getBestMove_total (fuel : nat) (board : list CellValue)
    (difficulty : Difficulty) (random : nat -> Q) :
  length board = 9%nat ->
  (9 <= fuel)%nat ->
  difficulty = HARD \/ (0 <= random 0%nat < 1)%Q ->
  exists move,
    ai.getBestMove fuel board difficulty random = Some (Some move, board)
    /\ (move = -1 \/ (0 <= move /\ get board (Z.to_nat move) = null)).
Proof.
  intros Hlen Hfuel Hr. unfold ai.getBestMove.
  destruct (Nat.eqb_spec (length (ai.availableMoves board)) 0) as [Hempty|Hne];
    [by eauto |].
  assert (ai.availableMoves board <> []) as Hsome.
  { intros Hnil. by rewrite Hnil in Hne. }
  destruct difficulty.
  - destruct Hr as [Hr | Hr]; [discriminate |].
    destruct (random_move board (random 0%nat) Hlen Hr Hsome)
      as (rmove & -> & Hrgood). eauto.
  - destruct (ai.winning_move O (ai.availableMoves board) board) as [m|] eqn:HO.
    { exists (Z.of_nat m). split; [reflexivity |]. right.
      apply empty_cell_move; [done |]. by eapply winning_move_in. }
    destruct (ai.winning_move X (ai.availableMoves board) board) as [m|] eqn:HX.
    { exists (Z.of_nat m). split; [reflexivity |]. right.
      apply empty_cell_move; [done |]. by eapply winning_move_in. }
    destruct Hr as [Hr | Hr]; [discriminate |].
    destruct (random_move board (random 0%nat) Hlen Hr Hsome)
      as (rmove & -> & Hrgood). eauto.
  - destruct ((8 <=? length (ai.availableMoves board))%nat
              && strict_eq (get board 4) null) eqn:Hcentre.
    { apply andb_true_iff in Hcentre as [_ Hcentre].
      apply strict_eq_true in Hcentre.
      exists 4. split; [reflexivity |]. right. split; [lia | done]. }
    destruct (hard_loop_total fuel board) with
      (todo := 9%nat) (i := 0%nat) (bestScore := NegInfinity) (move := -1)
      as (move' & Hloop & Hmove'); [| by left |].
    { pose proof (count_null_length board). lia. }
    rewrite Hloop. destruct Hmove' as [-> | Hmove'].
    + simpl negb. cbv iota.
      destruct (ai.availableMoves board) as [|m rest] eqn:Hmoves; [done |].
      exists (Z.of_nat m). split; [reflexivity |]. right.
      apply empty_cell_move; [done |]. rewrite Hmoves.
      apply list_elem_of_here.
    + exists move'. destruct (Z.eqb_spec move' (-1)) as [-> | _]; [lia |].
      split; [reflexivity | by right].
Qed.

(** More fuel does not change a result. *)
Lemma minimax_loop_mono (mark : PlayerSymbol) (pick : Num -> Num -> Num)
    (rec rec' : list CellValue -> option (Num * list CellValue)) :
  (forall b r, rec b = Some r -> rec' b = Some r) ->
  forall todo i bestScore board r,
    ai.minimax_loop mark pick rec todo i bestScore board = Some r ->
    ai.minimax_loop mark pick rec' todo i bestScore board = Some r.
Proof.
  intros Hrec todo.
  induction todo as [|todo IH]; intros i bestScore board r;
    cbn [ai.minimax_loop]; [done |].
  destruct (strict_eq (get board i) null); [| apply IH].
  destruct (rec (set board i (Sym mark))) as [[score b']|] eqn:Hcall;
    [| discriminate].
  rewrite (Hrec _ _ Hcall). apply IH.
Qed.

Lemma minimax_mono (fuel : nat) :
  forall fuel' board depth isMaximizing r,
    (fuel <= fuel')%nat ->
    ai.minimax fuel board depth isMaximizing = Some r ->
    ai.minimax fuel' board depth isMaximizing = Some r.
Proof.
  induction fuel as [|fuel IH]; intros fuel' board depth isMaximizing r Hle;
    [discriminate |].
  destruct fuel' as [|fuel']; [lia |].
  cbn [ai.minimax]. destruct (ai.checkWinner board) as [[[|]|]|]; try done.
  destruct isMaximizing; apply minimax_loop_mono; intros b r'; apply IH; lia.
Qed.

Lemma hard_loop_mono (fuel fuel' : nat) :
  (fuel <= fuel')%nat ->
  forall todo i bestScore move board r,
    ai.hard_loop fuel todo i bestScore move board = Some r ->
    ai.hard_loop fuel' todo i bestScore move board = Some r.
Proof.
  intros Hle todo.
  induction todo as [|todo IH]; intros i bestScore move board r;
    cbn [ai.hard_loop]; [done |].
  destruct (strict_eq (get board i) null); [| apply IH].
  destruct (ai.minimax fuel (set board i (Sym O)) 0 false)
    as [[score b']|] eqn:Hcall; [| discriminate].
  rewrite (minimax_mono fuel fuel' _ _ _ _ Hle Hcall).
  destruct (gt score bestScore); apply IH.
Qed.

Lemma getBestMove_HARD_mono (fuel fuel' : nat) (board : list CellValue)
    (random random' : nat -> Q) (r : option Z * list CellValue) :
  (fuel <= fuel')%nat ->
  ai.getBestMove fuel board HARD random = Some r ->
  ai.getBestMove fuel' board HARD random' = Some r.
Proof.
  intros Hle. unfold ai.getBestMove.
  destruct (length (ai.availableMoves board) =? 0)%nat; [done |].
  destruct (_ && _); [done |].
  destruct (ai.hard_loop fuel 9 0 NegInfinity (-1) board) as [[m b']|] eqn:Hl;
    [| discriminate].
  by rewrite (hard_loop_mono fuel fuel' Hle _ _ _ _ _ _ Hl).
Qed.

Lemma count_sym_insert (board : list CellValue) (i : nat)
    (sym mark : PlayerSymbol) :
  board !! i = Some null ->
  Play.count_sym sym (<[i := Sym mark]> board)
  = (Play.count_sym sym board + if bool_decide (sym = mark) then 1 else 0)%nat.
Proof.
  unfold Play.count_sym. revert i.
  induction board as [|v board IH]; intros i Hi; [discriminate |].
  destruct i as [|i]; simpl in *.
  - injection Hi as ->. rewrite !filter_cons.
    destruct (decide (null = Sym sym)); [discriminate |].
    case_bool_decide as Heq.
    + subst. destruct (decide (Sym mark = Sym mark)); [simpl; lia | done].
    + destruct (decide (Sym mark = Sym sym)); [congruence | lia].
  - rewrite !filter_cons. destruct (decide (v = Sym sym)); simpl;
      by rewrite IH.
Qed.

(** An accepted move in an offline mode. *)
Lemma handleMove_offline (s : App.App) (db : option Database) (now : Z)
    (i : nat) :
  App.gameMode s <> ONLINE ->
  get (App.board s) i = null ->
  App.winner s = None ->
  let s' := (App.handleMove s db now i).1.1 in
  let newBoard := set (App.board s) i (Sym (App.currentTurn s)) in
  App.board s' = newBoard
  /\ App.winner s' = App.st_winner <$> App.checkGameStatus newBoard
  /\ App.winningLine s'
     = match App.checkGameStatus newBoard with
       | Some r => App.st_line r
       | None => App.winningLine s
       end
  /\ App.currentTurn s'
     = match App.checkGameStatus newBoard with
       | Some _ => App.currentTurn s
       | None => other (App.currentTurn s)
       end
  /\ App.gameMode s' = App.gameMode s
  /\ App.view s' = App.view s
  /\ App.difficulty s' = App.difficulty s.
Proof.
  intros Hmode Hnull Hwin. unfold App.handleMove.
  rewrite Hnull, Hwin. simpl truthy.
  rewrite (bool_decide_eq_false_2 (None <> None)) by congruence.
  rewrite (bool_decide_eq_false_2 (App.gameMode s = ONLINE)) by assumption.
  simpl.
  destruct (App.checkGameStatus _) as [r|]; simpl.
  - repeat split.
  - repeat split. by destruct (App.currentTurn s).
Qed.

Lemma handleMove_moved (s : App.App) (db : option Database) (now : Z)
    (i : nat) :
  App.gameMode s <> ONLINE ->
  get (App.board s) i = null ->
  App.winner s = None ->
  Play.moved s (App.handleMove s db now i).1.1 i
  /\ Play.same_setup s (App.handleMove s db now i).1.1.
Proof.
  intros Hmode Hnull Hwin.
  destruct (handleMove_offline s db now i Hmode Hnull Hwin)
    as (Hb & Hw & Hl & Ht & Hsetup).
  split; [| exact Hsetup].
  unfold Play.moved. rewrite Hb. repeat (split; [assumption |]).
  rewrite Ht. by destruct (App.checkGameStatus _), (App.currentTurn s).
Qed.

Lemma idle_refl (s : App.App) : Play.idle s s /\ Play.same_setup s s.
Proof. by repeat split. Qed.

(** A click on a square either changes nothing or is a move into that
    square; in single-player mode only X moves this way. *)
Lemma click_cases (s : App.App) (db : option Database) (now : Z) (idx : nat) :
  App.gameMode s <> ONLINE ->
  Forall (fun v => v <> undefined) (App.board s) ->
  let s' := (AppHandlers.clickSquare s db now idx).1.1 in
  Play.same_setup s s'
  /\ (Play.idle s s'
      \/ (Play.moved s s' idx
          /\ (App.gameMode s = SINGLE -> App.currentTurn s = X))).
Proof.
  intros Hmode Hdef. unfold AppHandlers.clickSquare.
  destruct (Nat.ltb_spec idx (length (App.board s))) as [Hlt|Hge]; simpl;
    [| split; [apply idle_refl | left; apply idle_refl]].
  destruct (AppHandlers.squareDisabled s idx) eqn:Hdis; simpl;
    [split; [apply idle_refl | left; apply idle_refl] |].
  unfold AppHandlers.squareDisabled in Hdis.
  apply orb_false_iff in Hdis as [Hdis Hsingle].
  apply orb_false_iff in Hdis as [Hdis _].
  apply orb_false_iff in Hdis as [Hcell Hwin].
  assert (App.winner s = None) as Hnone.
  { apply bool_decide_eq_false in Hwin.
    destruct (App.winner s); [exfalso; apply Hwin; discriminate | done]. }
  assert (get (App.board s) idx = null) as Hnull.
  { destruct (lookup_lt_is_Some_2 _ _ Hlt) as [v Hv].
    rewrite (get_lookup _ _ _ Hv) in *.
    rewrite Forall_forall in Hdef.
    assert (v <> undefined) by (apply Hdef, list_elem_of_lookup; eauto).
    by destruct v. }
  destruct (handleMove_moved s db now idx Hmode Hnull Hnone) as [Hmoved Hsetup].
  split; [exact Hsetup |]. right. split; [exact Hmoved |].
  intros Hs. rewrite (bool_decide_eq_true_2 _ Hs) in Hsingle.
  simpl in Hsingle. apply bool_decide_eq_false in Hsingle.
  by destruct (App.currentTurn s).
Qed.

(** The AI timer either changes nothing or is a move of O, in
    single-player mode, into the cell [getBestMove] returned. *)
Lemma ai_cases (fuel : nat) (s : App.App) (db : option Database) (now : Z)
    (random : nat -> Q) :
  App.gameMode s <> ONLINE ->
  length (App.board s) = 9%nat ->
  (9 <= fuel)%nat ->
  App.difficulty s = HARD \/ (0 <= random 0%nat < 1)%Q ->
  exists r,
    AppHandlers.aiTurn fuel s db now random = Some r
    /\ Play.same_setup s r.1.1
    /\ (Play.idle s r.1.1
        \/ exists i,
             Play.moved s r.1.1 i
             /\ App.gameMode s = SINGLE
             /\ App.currentTurn s = O
             /\ ai.getBestMove fuel (App.board s) (App.difficulty s) random
                = Some (Some (Z.of_nat i), App.board s)).
Proof.
  intros Hmode Hlen Hfuel Hr. unfold AppHandlers.aiTurn.
  destruct (_ && _) eqn:Hcond;
    [| eexists; split; [reflexivity |];
       split; [apply idle_refl | left; apply idle_refl]].
  apply andb_true_iff in Hcond as [Hcond _].
  apply andb_true_iff in Hcond as [Hcond Hwin].
  apply andb_true_iff in Hcond as [Hsingle Hturn].
  apply bool_decide_eq_true in Hwin, Hsingle, Hturn.
  destruct (getBestMove_total fuel (App.board s) (App.difficulty s) random
              Hlen Hfuel Hr) as (move & Hcall & Hmove).
  rewrite Hcall.
  destruct Hmove as [-> | [Hpos Hnull]].
  - simpl. eexists. split; [reflexivity |].
    split; [by repeat split | left; by repeat split].
  - destruct (Z.eqb_spec move (-1)) as [-> | _]; [lia |]. simpl negb.
    cbv iota. eexists. split; [reflexivity |].
    destruct (handleMove_moved (App.setBoard (App.board s) s) db now
                (Z.to_nat move)) as [Hmoved Hsetup]; [done | done | done |].
    split; [exact Hsetup |]. right. exists (Z.to_nat move).
    split; [exact Hmoved |]. rewrite Z2Nat.id by exact Hpos. by repeat split.
Qed.

Lemma consistent_progress (s : App.App) :
  Play.consistent s -> App.winner s = None ->
  App.checkGameStatus (App.board s) = None /\ App.winningLine s = None.
Proof.
  intros (_ & _ & Hw & Hl & _) Hnone. rewrite Hnone in Hw.
  destruct (App.checkGameStatus (App.board s)); [discriminate | done].
Qed.

Lemma moved_consistent (s s' : App.App) (i : nat) :
  Play.consistent s -> Play.moved s s' i -> Play.consistent s'.
Proof.
  intros Hs (Hnull & Hnone & Hb & Hw & Hl & Ht).
  destruct (consistent_progress s Hs Hnone) as [_ Hline].
  destruct Hs as (Hlen & Hdef & _ & _ & Hbal & Hturn).
  specialize (Hturn Hnone).
  destruct (well_formed_set (App.board s) i (App.currentTurn s))
    as [Hlen' Hdef']; [by split | done |].
  pose proof (get_null_lt _ _ Hnull) as Hlt.
  assert (forall sym,
            Play.count_sym sym (App.board s')
            = (Play.count_sym sym (App.board s)
               + if bool_decide (sym = App.currentTurn s) then 1 else 0)%nat)
    as Hcount.
  { intros sym. rewrite Hb, set_inside by done.
    apply count_sym_insert. by apply get_null_lookup. }
  unfold Play.consistent. rewrite Hl, Hline.
  split; [by rewrite Hb |]. split; [by rewrite Hb |].
  split; [exact Hw |].
  split; [by destruct (App.checkGameStatus (App.board s')) |].
  rewrite !Hcount. rewrite Hw, Ht.
  destruct (App.currentTurn s); simpl in *;
    (split; [lia |]);
    destruct (App.checkGameStatus (App.board s')); simpl;
    try discriminate; intros _; lia.
Qed.

Lemma idle_consistent (s s' : App.App) :
  Play.consistent s -> Play.idle s s' -> Play.consistent s'.
Proof.
  intros Hs (Hb & Hw & Hl & Ht). unfold Play.consistent.
  by rewrite Hb, Hw, Hl, Ht.
Qed.

Lemma fresh_consistent (s : App.App) : Play.fresh s -> Play.consistent s.
Proof.
  intros (Hb & Ht & Hw & Hl). unfold Play.consistent.
  rewrite Hb, Ht, Hw, Hl. repeat split; try (vm_compute; lia).
  repeat constructor; discriminate.
Qed.

(** Every event of an offline match keeps the setup and the consistency
    of the match state, and is either no change or one move. *)
Lemma step_cases (fuel : nat) (db : option Database) (now : Z)
    (s : App.App) (e : Play.Event) :
  App.gameMode s <> ONLINE ->
  (9 <= fuel)%nat ->
  App.difficulty s = HARD \/ Play.draws_in_range [e] ->
  Play.consistent s ->
  exists s',
    Play.step fuel db now s e = Some s'
    /\ Play.same_setup s s' /\ Play.consistent s'
    /\ (Play.idle s s'
        \/ exists i,
             Play.moved s s' i
             /\ (App.gameMode s = SINGLE ->
                 match e with
                 | Play.HumanClick _ => App.currentTurn s = X
                 | Play.AiTimer random =>
                     App.currentTurn s = O
                     /\ ai.getBestMove fuel (App.board s) (App.difficulty s)
                          random
                        = Some (Some (Z.of_nat i), App.board s)
                 end)).
Proof.
  intros Hmode Hfuel Hdraws Hs. destruct e as [idx|random]; simpl.
  - destruct (click_cases s db now idx Hmode) as [Hsetup Hcases];
      [apply Hs |].
    eexists. split; [reflexivity |]. split; [exact Hsetup |].
    destruct Hcases as [Hidle | [Hmoved Hturn]].
    + split; [by eapply idle_consistent | by left].
    + split; [by eapply moved_consistent | right; eauto].
  - assert (App.difficulty s = HARD \/ (0 <= random 0%nat < 1)%Q) as Hr.
    { destruct Hdraws as [Hhard | Hdraws]; [by left | right].
      by apply Forall_cons in Hdraws as [Hr _]. }
    destruct (ai_cases fuel s db now random Hmode) as (r & -> & Hsetup & Hcases);
      [apply Hs | done | done |].
    eexists. split; [reflexivity |]. split; [exact Hsetup |].
    destruct Hcases as [Hidle | (i & Hmoved & Hsingle & Hturn & Hcall)].
    + split; [by eapply idle_consistent | by left].
    + split; [by eapply moved_consistent | right; eauto].
Qed.

(** X4.  In the offline modes, starting from the match state [resetBoard]
    leaves, any sequence of square clicks and AI timer firings (with enough
    fuel for [minimax] and draws in [0, 1)) runs to the end and leaves a
    consistent match: the board has nine cells, the recorded winner and
    winning line are those [checkGameStatus] gives for the board, X has as
    many marks as O or one more, and while there is no winner X is to move
    exactly when the counts are equal. *)
Theorem offline_play_consistent
    (fuel : nat) (db : option Database) (now : Z) (s : App.App)
    (events : list Play.Event) :
  App.gameMode s <> ONLINE ->
  Play.fresh s ->
  (9 <= fuel)%nat ->
  Play.draws_in_range events ->
  exists s',
    Play.run fuel db now s events = Some s' /\ Play.consistent s'.
Proof.
  intros Hmode Hfresh Hfuel Hdraws.
  apply fresh_consistent in Hfresh. clear -Hmode Hfresh Hfuel Hdraws.
  revert s Hmode Hfresh.
  induction events as [|e rest IH]; intros s Hmode Hs; simpl; [eauto |].
  apply Forall_cons in Hdraws as [He Hrest].
  destruct (step_cases fuel db now s e Hmode Hfuel) as
    (s1 & -> & (Hm & _) & Hs1 & _); [right; by constructor | done |].
  apply IH; [done | by rewrite Hm | done].
Qed.

(** A same-device match: X takes cell 0, O the centre, a click on the
    taken cell 0 is ignored, X takes cell 1. *)
Lemma offline_play_consistent_witness :
  let s := App.resetBoard Samples.local_match in
  let events :=
    [Play.HumanClick 0; Play.HumanClick 4; Play.HumanClick 0;
     Play.HumanClick 1] in
  exists s',
    Play.run 9 None 0 s events = Some s'
    /\ Play.consistent s'
    /\ App.board s'
       = [Sym X; Sym X; null; null; Sym O; null; null; null; null]
    /\ App.currentTurn s' = O.
Proof.
  intros s events.
  destruct (offline_play_consistent 9 None 0 s events) as (s' & Hrun & Hs').
  - discriminate.
  - by repeat split.
  - lia.
  - by repeat constructor.
  - exists s'. split; [exact Hrun |]. split; [exact Hs' |].
    vm_compute in Hrun. injection Hrun as <-. by split.
Defined.

Lemma other_not_won_by_X (r : App.Status) :
  Play.not_won_by_X r = true -> Some (App.st_winner r) <> Some (Won X).
Proof. unfold Play.not_won_by_X. by destruct (App.st_winner r) as [[|]|]. Qed.

(** What the look-ahead promises about a state of the match. *)
Lemma safe_after_move (n : nat) (s s' : App.App) (i : nat) :
  Play.moved s s' i ->
  (match App.checkGameStatus (App.board s') with
   | Some r => Play.not_won_by_X r = true
   | None =>
       match App.currentTurn s with
       | X => Play.reply_then (Play.human_to_move n) (App.board s') = true
       | O => Play.human_to_move n (App.board s') = true
       end
   end) ->
  App.winner s' <> Some (Won X)
  /\ (App.winner s' = None ->
      match App.currentTurn s' with
      | X => Play.human_to_move n (App.board s') = true
      | O => Play.reply_then (Play.human_to_move n) (App.board s') = true
      end).
Proof.
  intros (_ & _ & _ & Hw & _ & Ht) Hsafe. rewrite Hw, Ht.
  destruct (App.checkGameStatus (App.board s')) as [r|]; simpl.
  - split; [by apply other_not_won_by_X | discriminate].
  - split; [discriminate |]. intros _. by destruct (App.currentTurn s).
Qed.

Lemma hard_reply_is_getBestMove (fuel : nat) (board : list CellValue)
    (random : nat -> Q) (i : nat) :
  length board = 9%nat ->
  (9 <= fuel)%nat ->
  ai.getBestMove fuel board HARD random = Some (Some (Z.of_nat i), board) ->
  Play.hard_reply board = Some (set board i (Sym O)).
Proof.
  intros Hlen Hfuel Hcall. unfold Play.hard_reply.
  destruct (getBestMove_total 9 board HARD (fun _ => 0%Q) Hlen)
    as (m & Hnine & _); [lia | by left |].
  rewrite Hnine.
  rewrite (getBestMove_HARD_mono 9 fuel board _ random _ Hfuel Hnine) in Hcall.
  injection Hcall as ->.
  destruct (Z.eqb_spec (Z.of_nat i) (-1)); [lia |]. by rewrite Nat2Z.id.
Qed.

(** One event of a single-player match against HARD keeps the promise of
    the look-ahead. *)
Lemma step_safe (fuel : nat) (db : option Database) (now : Z)
    (s : App.App) (e : Play.Event) (n : nat) :
  App.gameMode s = SINGLE ->
  App.difficulty s = HARD ->
  (9 <= fuel)%nat ->
  Play.consistent s ->
  App.winner s <> Some (Won X) ->
  (App.winner s = None ->
   match App.currentTurn s with
   | X => Play.human_to_move n (App.board s) = true
   | O => Play.reply_then (Play.human_to_move n) (App.board s) = true
   end) ->
  exists s' n',
    Play.step fuel db now s e = Some s'
    /\ Play.same_setup s s' /\ Play.consistent s'
    /\ App.winner s' <> Some (Won X)
    /\ (App.winner s' = None ->
        match App.currentTurn s' with
        | X => Play.human_to_move n' (App.board s') = true
        | O => Play.reply_then (Play.human_to_move n') (App.board s') = true
        end).
Proof.
  intros Hsingle Hhard Hfuel Hs Hnot Hsafe.
  destruct (step_cases fuel db now s e) as (s' & Hstep & Hsetup & Hs' & Hcases);
    [congruence | done | by left | done |].
  exists s'.
  destruct Hcases as [(Hb & Hw & _ & Ht) | (i & Hmoved & Hwho)].
  { exists n. rewrite Hb, Hw, Ht.
    split; [exact Hstep |]. split; [exact Hsetup |]. split; [exact Hs' |].
    split; [exact Hnot | exact Hsafe]. }
  specialize (Hwho Hsingle).
  pose proof Hmoved as (Hnull & Hnone & Hb & _).
  specialize (Hsafe Hnone).
  assert (length (App.board s) = 9%nat) as Hlen by apply Hs.
  destruct e as [idx|random].
  - rewrite Hwho in Hsafe, Hb.
    destruct n as [|n]; [discriminate |]. exists n.
    split; [exact Hstep |]. split; [exact Hsetup |]. split; [exact Hs' |].
    apply (safe_after_move n s s' i Hmoved).
    cbn [Play.human_to_move] in Hsafe. rewrite forallb_forall in Hsafe.
    specialize (Hsafe i). rewrite Hnull in Hsafe.
    rewrite <- Hb in Hsafe. rewrite Hwho.
    unfold strict_eq in Hsafe.
    rewrite bool_decide_eq_true_2 in Hsafe by reflexivity.
    assert (In i (seq 0 9)) as Hin.
    { apply in_seq. pose proof (get_null_lt _ _ Hnull). lia. }
    specialize (Hsafe Hin).
    by destruct (App.checkGameStatus (App.board s')).
  - destruct Hwho as [Hturn Hcall]. rewrite Hturn in Hsafe, Hb.
    rewrite Hhard in Hcall.
    exists n.
    split; [exact Hstep |]. split; [exact Hsetup |]. split; [exact Hs' |].
    apply (safe_after_move n s s' i Hmoved). rewrite Hturn.
    unfold Play.reply_then in Hsafe.
    rewrite (hard_reply_is_getBestMove fuel _ random i Hlen Hfuel Hcall)
      in Hsafe.
    rewrite <- Hb in Hsafe.
    by destruct (App.checkGameStatus (App.board s')).
Qed.

(** X5.  The HARD opponent never loses.  In a single-player match opened by
    [startGame] with difficulty HARD, whatever squares the player clicks
    and whenever the AI timer fires, the events run to the end (with enough
    fuel for [minimax]) and the recorded winner is never X; the match state
    stays consistent with the board throughout. *)
Theorem hard_never_loses
    (fuel : nat) (db : option Database) (now : Z) (s : App.App)
    (events : list Play.Event) :
  App.difficulty s = HARD ->
  (9 <= fuel)%nat ->
  exists s',
    Play.run fuel db now (AppHandlers.startGame s SINGLE).1 events = Some s'
    /\ App.winner s' <> Some (Won X)
    /\ Play.consistent s'.
Proof.
  intros Hhard Hfuel.
  set (s0 := (AppHandlers.startGame s SINGLE).1).
  assert (App.gameMode s0 = SINGLE) as Hsingle by reflexivity.
  assert (App.difficulty s0 = HARD) as Hhard0 by exact Hhard.
  assert (Play.consistent s0) as Hs0
    by (apply fresh_consistent; by repeat split).
  assert (App.winner s0 <> Some (Won X)) as Hnot by discriminate.
  assert (App.winner s0 = None ->
          match App.currentTurn s0 with
          | X => Play.human_to_move 5 (App.board s0) = true
          | O => Play.reply_then (Play.human_to_move 5) (App.board s0) = true
          end) as Hsafe.
  { intros _. change (Play.human_to_move 5 EMPTY_BOARD = true).
    by vm_compute. }
  clearbody s0. clear s Hhard.
  revert s0 Hsingle Hhard0 Hs0 Hnot Hsafe. generalize 5%nat.
  induction events as [|e rest IH]; intros n s Hsingle Hhard Hs Hnot Hsafe;
    simpl; [eauto |].
  destruct (step_safe fuel db now s e n Hsingle Hhard Hfuel Hs Hnot Hsafe)
    as (s1 & n1 & -> & (Hm & _ & Hd) & Hs1 & Hnot1 & Hsafe1).
  apply (IH n1); [by rewrite Hm | by rewrite Hd | done | done | done].
Qed.

(** The player opens in a corner, HARD takes the centre; the player then
    takes the opposite corner and HARD answers on an edge. *)
Lemma hard_never_loses_witness :
  let s := App.mkApp App.MODE_SELECT SINGLE HARD true EMPTY_BOARD X None None
             "Player 1" "Player 2" "" None false false "" false in
  let events :=
    [Play.HumanClick 0; Play.AiTimer Samples.draws; Play.HumanClick 8;
     Play.AiTimer Samples.draws] in
  exists s',
    Play.run 9 None 0 (AppHandlers.startGame s SINGLE).1 events = Some s'
    /\ App.winner s' <> Some (Won X)
    /\ App.board s'
       = [Sym X; Sym O; null; null; Sym O; null; null; null; Sym X].
Proof.
  intros s events.
  destruct (hard_never_loses 9 None 0 s events) as (s' & Hrun & Hnot & _);
    [reflexivity | lia |].
  exists s'. split; [exact Hrun |]. split; [exact Hnot |].
  vm_compute in Hrun. by injection Hrun as <-.
Defined.

End offline_play.

(* ===================================================================== *)
(** ** Further properties: the room listener and the online turn *)
(* ===================================================================== *)

Section listener.
Import types rtdb constants js Spec.

Lemma onRoomData_closed (s : App.App) (data : RoomData) :
  let isP1 := bool_decide (App.mySymbol s = Some X) in
  let opponent :=
    if isP1 then player2 (players data) else player1 (players data) in
  App.onRoomData s data
  = (App.mkApp (App.view s) (App.gameMode s) (App.difficulty s)
       (App.soundEnabled s) (types.board data) (types.currentTurn data)
       (types.winner data)
       (match types.winner data with
        | Some (Won _) =>
            match App.first_line WINNING_COMBINATIONS (types.board data) with
            | Some combo => Some combo
            | None => App.winningLine s
            end
        | _ => None
        end)
       (if isP1 then App.player1Name s else name (player1 (players data)))
       (if isP1
        then (if joined opponent then name opponent else "Waiting...")
        else name (player2 (players data)))
       (App.roomCode s) (App.mySymbol s) (joined opponent)
       (App.isProcessing s)
       (match types.winner data with
        | Some _ => ""
        | None => if negb (joined opponent) then "Opponent disconnected" else ""
        end)
       (App.hasTransitionedToGameRef s || joined (player2 (players data))),
     if negb (App.hasTransitionedToGameRef s)
        && joined (player2 (players data))
     then [App.setTimeout_autoTransition 500] else []).
Proof.
  intros isP1 opponent. subst isP1 opponent. unfold App.onRoomData.
  destruct s as [? ? ? ? ? ? ? ? ? ? ? mine ? ? ? latch];
    destruct data as [? [[? ? j1] [? ? j2]] b ? w ?].
  cbn [App.mySymbol App.setBoard App.setCurrentTurn App.hasTransitionedToGameRef types.winner
           types.players types.player1 types.player2 types.joined
           types.board types.name types.currentTurn].
  destruct (bool_decide (mine = Some X)), w as [[?|]|];
    try destruct (App.first_line WINNING_COMBINATIONS b);
    destruct latch, j1, j2; reflexivity.
Qed.

(** X6.  The room listener is idempotent and leaves navigation alone.  Run
    twice on the same snapshot it ends in the state it reached the first
    time and arms no timer the second time; and no snapshot changes the
    view, the game mode, the room code, the client's symbol, the difficulty
    or the sound setting. *)
Theorem onRoomData_idempotent (s : App.App) (data : RoomData) :
  App.onRoomData (App.onRoomData s data).1 data
  = ((App.onRoomData s data).1, [])
  /\ App.view (App.onRoomData s data).1 = App.view s
  /\ App.gameMode (App.onRoomData s data).1 = App.gameMode s
  /\ App.roomCode (App.onRoomData s data).1 = App.roomCode s
  /\ App.mySymbol (App.onRoomData s data).1 = App.mySymbol s
  /\ App.difficulty (App.onRoomData s data).1 = App.difficulty s
  /\ App.soundEnabled (App.onRoomData s data).1 = App.soundEnabled s.
Proof.
  split.
  - rewrite (onRoomData_closed (App.onRoomData s data).1 data).
    rewrite (onRoomData_closed s data).
    cbn [fst App.mySymbol App.view App.gameMode App.difficulty
         App.soundEnabled App.winningLine App.player1Name App.roomCode
         App.isProcessing App.hasTransitionedToGameRef].
    destruct (bool_decide (App.mySymbol s = Some X)),
      (types.winner data) as [[?|]|];
      try destruct (App.first_line WINNING_COMBINATIONS (types.board data));
      destruct (App.hasTransitionedToGameRef s),
        (joined (player1 (players data))),
        (joined (player2 (players data))); reflexivity.
  - rewrite (onRoomData_closed s data). by repeat split.
Qed.

Lemma onRoomData_turn (s : App.App) (data : RoomData) :
  App.board (App.onRoomData s data).1 = types.board data
  /\ App.currentTurn (App.onRoomData s data).1 = types.currentTurn data
  /\ App.winner (App.onRoomData s data).1 = types.winner data
  /\ App.gameMode (App.onRoomData s data).1 = App.gameMode s
  /\ App.mySymbol (App.onRoomData s data).1 = App.mySymbol s
  /\ App.roomCode (App.onRoomData s data).1 = App.roomCode s
  /\ App.soundEnabled (App.onRoomData s data).1 = App.soundEnabled s
  /\ App.opponentConnected (App.onRoomData s data).1
     = joined (if bool_decide (App.mySymbol s = Some X)
               then player2 (players data) else player1 (players data)).
Proof. rewrite (onRoomData_closed s data). by repeat split. Qed.

Lemma handleMove_not_my_turn (s : App.App) (db : option Database) (now : Z)
    (index : nat) :
  App.gameMode s = ONLINE ->
  App.mySymbol s <> Some (App.currentTurn s) ->
  App.handleMove s db now index = (s, db, []).
Proof.
  intros Hmode Hturn. unfold App.handleMove.
  destruct (_ || _); [reflexivity |].
  rewrite (bool_decide_eq_true_2 _ Hmode).
  by rewrite bool_decide_eq_false_2 by congruence.
Qed.

(** X7.  Turn exclusivity.  Take the two clients of a room, one holding X
    and one holding O, both online, after their listeners have processed
    the same snapshot.  Whatever cells they then click, at least one of the
    two calls of [handleMove] is a rejection that leaves that client and
    the store untouched: the one of the client whose symbol is not the
    snapshot's [currentTurn]. *)
Theorem online_turn_exclusive
    (clientX clientO : App.App) (data : RoomData) (db : option Database)
    (nowX nowO : Z) (indexX indexO : nat) :
  App.gameMode clientX = ONLINE -> App.mySymbol clientX = Some X ->
  App.gameMode clientO = ONLINE -> App.mySymbol clientO = Some O ->
  let x := (App.onRoomData clientX data).1 in
  let o := (App.onRoomData clientO data).1 in
  (types.currentTurn data = O ->
   App.handleMove x db nowX indexX = (x, db, []))
  /\ (types.currentTurn data = X ->
      App.handleMove o db nowO indexO = (o, db, [])).
Proof.
  intros HmX HsX HmO HsO x o.
  destruct (onRoomData_turn clientX data) as (_ & HtX & _ & HgX & HyX & _).
  destruct (onRoomData_turn clientO data) as (_ & HtO & _ & HgO & HyO & _).
  split; intros Hturn; apply handleMove_not_my_turn; subst x o;
    congruence.
Qed.

(** With X to move in the snapshot, the client holding O is rejected. *)
Lemma online_turn_exclusive_witness :
  let o := (App.onRoomData (App.setMySymbol (Some O) Samples.online_match)
              Samples.room_ABCD).1 in
  App.handleMove o (Some Samples.store_ABCD) 2000 4
  = (o, Some Samples.store_ABCD, []).
Proof.
  intros o.
  apply (online_turn_exclusive Samples.online_match
           (App.setMySymbol (Some O) Samples.online_match)
           Samples.room_ABCD (Some Samples.store_ABCD) 2000 2000 0 4);
    reflexivity.
Defined.

End listener.

(* ===================================================================== *)
(** ** Further properties: how the repository calls compose *)
(* ===================================================================== *)

Section repository_composition.
Import types rtdb constants js Spec.

Lemma get_set_room (d : Database) (code : string) (data : RoomData) :
  rtdb.get (rtdb.set d code data) code = room_doc data.
Proof. unfold rtdb.get, rtdb.set. simpl. by rewrite lookup_insert_eq. Qed.

Lemma get_onDisconnect_set (d : Database) (w : Write) (code : string) :
  rtdb.get (onDisconnect_set d w) code = rtdb.get d code.
Proof. reflexivity. Qed.

(** A successful join, in terms of the document it leaves. *)
Lemma joinRoom_success (d : Database) (code playerName : string) :
  exists_ (rtdb.get d code) = true ->
  read_player2_joined (rtdb.get d code) = Returned false ->
  exists d',
    firebase.joinRoom (Some d) code playerName = (Returned true, Some d')
    /\ rtdb.get d' code
       = {| d_status := Some PLAYING;
            d_player1 := d_player1 (rtdb.get d code);
            d_player2 :=
              player_doc {| name := playerName; symbol := O; joined := true |};
            d_board := d_board (rtdb.get d code);
            d_currentTurn := d_currentTurn (rtdb.get d code);
            d_winner := d_winner (rtdb.get d code);
            d_lastMoveTimestamp := d_lastMoveTimestamp (rtdb.get d code) |}
    /\ (forall code', code' <> code -> rooms d' !! code' = rooms d !! code')
    /\ onDisconnect d' = onDisconnect d ++ [W_joined code key_player2 false].
Proof.
  intros Hex Hread. unfold firebase.joinRoom. rewrite Hex, Hread. simpl negb.
  cbv iota. eexists. split; [reflexivity |].
  assert (Forall (fun w => write_code w = code)
            [W_player code key_player2
               {| name := playerName; symbol := O; joined := true |};
             W_status code PLAYING]) as Hall by (repeat constructor).
  rewrite get_onDisconnect_set, (update_same_room d _ code Hall).
  split; [reflexivity |]. split; [| reflexivity].
  intros code' Hne. by apply update_other_room with (code := code).
Qed.

Lemma joinRoom_full (d : Database) (code playerName : string) :
  d_joined (d_player2 (rtdb.get d code)) = Some true ->
  firebase.joinRoom (Some d) code playerName = (Returned false, Some d).
Proof.
  intros Hfull. apply joined_true_exists in Hfull as [Hex Hread].
  unfold firebase.joinRoom. by rewrite Hex, Hread.
Qed.

Lemma leaveRoom_doc (d : Database) (code : string) (isPlayer1 : bool) :
  exists d',
    firebase.leaveRoom (Some d) code isPlayer1 = (Returned tt, Some d')
    /\ rtdb.get d' code
       = write_doc (W_joined code (if isPlayer1 then key_player1
                                   else key_player2) false)
           (rtdb.get d code)
    /\ (forall code', code' <> code -> rooms d' !! code' = rooms d !! code')
    /\ onDisconnect d' = onDisconnect d.
Proof.
  unfold firebase.leaveRoom. eexists. split; [reflexivity |].
  assert (Forall (fun w => write_code w = code)
            [W_joined code (if isPlayer1 then key_player1 else key_player2)
               false]) as Hall by (repeat constructor).
  rewrite (update_same_room d _ code Hall).
  split; [reflexivity |]. split; [| reflexivity].
  intros code' Hne. by apply update_other_room with (code := code).
Qed.

(** X8.  Create, join, join.  Whatever the store holds and whatever code is
    drawn, the room [createRoom] returns can be joined once: the first
    [joinRoom] with that code returns [true] and leaves the room PLAYING
    with the host as player1 (X) and the guest as player2 (O) on the empty
    board with X to move; a further [joinRoom] returns [false] and changes
    nothing.  Both deferred writes are armed, host first. *)
Theorem create_join_join
    (d : Database) (random : nat -> Q) (now : Z) (host guest third : string) :
  exists code d1 d2,
    firebase.createRoom (Some d) random now host = (Returned code, Some d1)
    /\ firebase.joinRoom (Some d1) code guest = (Returned true, Some d2)
    /\ firebase.joinRoom (Some d2) code third = (Returned false, Some d2)
    /\ rtdb.get d2 code
       = room_doc
           {| status := PLAYING;
              players :=
                {| player1 := {| name := host; symbol := X; joined := true |};
                   player2 := {| name := guest; symbol := O; joined := true |}
                |};
              board := EMPTY_BOARD;
              currentTurn := X;
              winner := None;
              lastMoveTimestamp := Some now |}
    /\ onDisconnect d2
       = onDisconnect d
         ++ [W_joined code key_player1 false; W_joined code key_player2 false].
Proof.
  unfold firebase.createRoom.
  set (code := firebase.generateRoomCode random).
  set (d1 := onDisconnect_set _ _).
  assert (rtdb.get d1 code = room_doc (firebase.initialData host now)) as Hd1.
  { subst d1. by rewrite get_onDisconnect_set, get_set_room. }
  destruct (joinRoom_success d1 code guest) as (d2 & Hjoin & Hd2 & _ & Hdisc).
  { by rewrite Hd1. }
  { by rewrite Hd1. }
  exists code, d1, d2. split; [reflexivity |]. split; [exact Hjoin |].
  split; [| split].
  - apply joinRoom_full. by rewrite Hd2.
  - rewrite Hd2, Hd1. reflexivity.
  - rewrite Hdisc. subst d1. simpl. by rewrite <- app_assoc.
Qed.

(** X9.  Every call of the repository keeps the room invariants in every
    room: a room whose status is WAITING has [player2.joined = false], and
    player1 never holds O nor player2 X. *)
Theorem repository_keeps_room_invariant
    (d d' : Database) (c : Repo.Call) :
  Repo.exec (Some d) c = Some d' ->
  (forall code, Repo.room_invariant (rtdb.get d code)) ->
  forall code, Repo.room_invariant (rtdb.get d' code).
Proof.
  intros Hexec Hinv code0.
  assert (forall code,
            (rtdb.get d' code = rtdb.get d code
             \/ Repo.room_invariant (rtdb.get d' code)) ->
            (forall code', code' <> code ->
               rooms d' !! code' = rooms d !! code') ->
            Repo.room_invariant (rtdb.get d' code0)) as Hone.
  { intros code Hcode Hother.
    destruct (decide (code0 = code)) as [-> | Hne].
    - destruct Hcode as [-> | Hcode]; [apply Hinv | exact Hcode].
    - unfold rtdb.get. rewrite (Hother code0 Hne). apply Hinv. }
  destruct c as [random now name | code name | code
                | now code board turn winner | code isPlayer1];
    cbn [Repo.exec] in Hexec.
  - (* createRoom *)
    unfold firebase.createRoom in Hexec. simpl in Hexec.
    injection Hexec as <-.
    apply (Hone (firebase.generateRoomCode random)).
    + right. rewrite get_onDisconnect_set, get_set_room.
      by repeat split.
    + intros code' Hne. simpl. by rewrite lookup_insert_ne.
  - (* joinRoom *)
    destruct (exists_ (rtdb.get d code)) eqn:Hex;
      [| unfold firebase.joinRoom in Hexec; rewrite Hex in Hexec;
         injection Hexec as <-; apply Hinv].
    destruct (read_player2_joined (rtdb.get d code)) as [[|]|msg] eqn:Hread;
      try (unfold firebase.joinRoom in Hexec; rewrite Hex, Hread in Hexec;
           injection Hexec as <-; apply Hinv).
    destruct (joinRoom_success d code name Hex Hread)
      as (d2 & Hjoin & Hd2 & Hother & _).
    rewrite Hjoin in Hexec. injection Hexec as <-.
    apply (Hone code); [| exact Hother].
    right. rewrite Hd2. destruct (Hinv code) as (_ & Hp1 & _).
    by repeat split.
  - (* subscribeToRoom *)
    injection Hexec as <-. apply Hinv.
  - (* updateGameState *)
    destruct (updateGameState_doc d now code board turn winner)
      as (d2 & Hcall & _ & Hd2 & Hother & _).
    rewrite Hcall in Hexec. injection Hexec as <-.
    apply (Hone code); [| exact Hother].
    right. rewrite Hd2. destruct (Hinv code) as (Hwait & Hp1 & Hp2).
    split; [| by split]. simpl. by destruct winner.
  - (* leaveRoom *)
    destruct (leaveRoom_doc d code isPlayer1) as (d2 & Hcall & Hd2 & Hother & _).
    rewrite Hcall in Hexec. injection Hexec as <-.
    apply (Hone code); [| exact Hother].
    right. rewrite Hd2. destruct (Hinv code) as (Hwait & Hp1 & Hp2).
    by destruct isPlayer1.
Qed.

(** The room ABCD of the sample store keeps the invariant when its second
    player leaves. *)
Lemma repository_keeps_room_invariant_witness :
  exists d',
    Repo.exec (Some Samples.store_ABCD) (Repo.LeaveRoom "ABCD" false) = Some d'
    /\ Repo.room_invariant (rtdb.get d' "ABCD").
Proof.
  eexists. split; [reflexivity |].
  apply (repository_keeps_room_invariant Samples.store_ABCD _
           (Repo.LeaveRoom "ABCD" false)); [reflexivity |].
  intros code. unfold rtdb.get. simpl.
  destruct (decide (code = "ABCD")) as [-> | Hne].
  - by repeat split.
  - rewrite lookup_singleton_ne by done. by repeat split.
Defined.

(** X10.  A finished room whose second player has left can be joined
    again, and the join does not restart it: [joinRoom] returns [true] and
    sets the status to PLAYING while the winner stays recorded, so the room
    then has a winner without being FINISHED. *)
Theorem joinRoom_reopens_finished_room
    (d : Database) (code playerName : string) (w : Winner) :
  d_winner (rtdb.get d code) = Some w ->
  d_joined (d_player2 (rtdb.get d code)) = Some false ->
  exists d',
    firebase.joinRoom (Some d) code playerName = (Returned true, Some d')
    /\ d_winner (rtdb.get d' code) = Some w
    /\ d_status (rtdb.get d' code) = Some PLAYING
    /\ d_board (rtdb.get d' code) = d_board (rtdb.get d code)
    /\ ~ winner_implies_finished (rtdb.get d' code).
Proof.
  intros Hw Hleft.
  destruct (joinRoom_success d code playerName) as (d' & Hjoin & Hd' & _).
  - unfold exists_. rewrite bool_decide_eq_false_2; [done |].
    intros Heq. rewrite Heq in Hw. discriminate.
  - unfold read_player2_joined. rewrite bool_decide_eq_false_2.
    + by rewrite Hleft.
    + intros Heq. rewrite Heq in Hleft. discriminate.
  - exists d'. split; [exact Hjoin |]. rewrite Hd'. simpl.
    repeat (split; [done |]).
    unfold winner_implies_finished. simpl. rewrite Hw.
    intros Hfin. specialize (Hfin ltac:(discriminate)). discriminate.
Qed.

(** X won in room ABCD and Bob left; Eve joins, and the room is PLAYING
    with X still recorded as winner. *)
Lemma joinRoom_reopens_finished_room_witness :
  let finished :=
    Repo.exec
      (Repo.exec (Some Samples.store_ABCD)
         (Repo.UpdateGameState 2000 "ABCD"
            [Sym X; Sym X; Sym X; Sym O; Sym O; null; null; null; null] O
            (Some (Won X))))
      (Repo.LeaveRoom "ABCD" false) in
  exists d d',
    finished = Some d
    /\ d_status (rtdb.get d "ABCD") = Some FINISHED
    /\ firebase.joinRoom (Some d) "ABCD" "Eve" = (Returned true, Some d')
    /\ d_winner (rtdb.get d' "ABCD") = Some (Won X)
    /\ d_status (rtdb.get d' "ABCD") = Some PLAYING.
Proof.
  intros finished. eexists.
  destruct (joinRoom_reopens_finished_room
              (default Samples.empty_store finished) "ABCD" "Eve" (Won X))
    as (d' & Hjoin & Hw & Hst & _); [reflexivity | reflexivity |].
  exists d'. split; [reflexivity |]. split; [reflexivity |].
  split; [exact Hjoin |]. by split.
Defined.

(** X11.  The seat of player2 is free again after player2 leaves: whatever
    the store holds, [leaveRoom(code, false)] followed by [joinRoom] with
    the same code returns [true] and seats the newcomer as player2, with
    player1 as before.  The departure of player1 frees nothing: if player2
    is seated, [joinRoom] after [leaveRoom(code, true)] still returns
    [false]. *)
Theorem seat_reopens_after_leave
    (d : Database) (code playerName : string) :
  (exists d1 d2,
     firebase.leaveRoom (Some d) code false = (Returned tt, Some d1)
     /\ firebase.joinRoom (Some d1) code playerName = (Returned true, Some d2)
     /\ d_player2 (rtdb.get d2 code)
        = player_doc {| name := playerName; symbol := O; joined := true |}
     /\ d_player1 (rtdb.get d2 code) = d_player1 (rtdb.get d code)
     /\ d_status (rtdb.get d2 code) = Some PLAYING)
  /\ (d_joined (d_player2 (rtdb.get d code)) = Some true ->
      exists d1,
        firebase.leaveRoom (Some d) code true = (Returned tt, Some d1)
        /\ firebase.joinRoom (Some d1) code playerName
           = (Returned false, Some d1)).
Proof.
  split.
  - destruct (leaveRoom_doc d code false) as (d1 & Hleave & Hd1 & _).
    destruct (joinRoom_success d1 code playerName) as (d2 & Hjoin & Hd2 & _).
    + rewrite Hd1. unfold exists_. rewrite bool_decide_eq_false_2; [done |].
      simpl. intros Heq. by injection Heq.
    + rewrite Hd1. unfold read_player2_joined.
      rewrite bool_decide_eq_false_2; [done |]. simpl. discriminate.
    + exists d1, d2. split; [exact Hleave |]. split; [exact Hjoin |].
      rewrite Hd2, Hd1. by repeat split.
  - intros Hfull.
    destruct (leaveRoom_doc d code true) as (d1 & Hleave & Hd1 & _).
    exists d1. split; [exact Hleave |].
    apply joinRoom_full. by rewrite Hd1.
Qed.

(** In the sample store, Ann leaving the full room ABCD does not let Eve
    in. *)
Lemma seat_reopens_after_leave_witness :
  exists d1,
    firebase.leaveRoom (Some Samples.store_ABCD) "ABCD" true
    = (Returned tt, Some d1)
    /\ firebase.joinRoom (Some d1) "ABCD" "Eve" = (Returned false, Some d1).
Proof.
  apply (proj2 (seat_reopens_after_leave Samples.store_ABCD "ABCD" "Eve")).
  reflexivity.
Defined.

End repository_composition.

(* ===================================================================== *)
(** ** Further properties: play again, join, leave and the older listener *)
(* ===================================================================== *)

Section handlers.
Import types rtdb constants js Spec.

(** X12.  Online, play again does not clear the result of the room.
    [handlePlayAgain] resets the local match and issues one update that
    writes the empty board, X to move and the timestamp, and neither
    winner nor status: the room keeps its [winner] and [status].  When the
    listener then runs on a snapshot carrying that winner, with or without
    a board, the local winner is again the one the room held; this holds
    also of the run that throws, on a missing board when the winner is a
    symbol. *)
Theorem playAgain_keeps_room_winner (s : App.App) (d : Database) (now : Z) :
  App.gameMode s = ONLINE ->
  exists d',
    App.handlePlayAgain s (Some d) now
    = (App.resetBoard s, Some d', [App.playSound "click"])
    /\ App.winner (App.resetBoard s) = None
    /\ journal d'
       = journal d
         ++ [Commit_update
               [W_board (App.roomCode s) EMPTY_BOARD;
                W_currentTurn (App.roomCode s) X;
                W_lastMoveTimestamp (App.roomCode s) now]]
    /\ d_winner (rtdb.get d' (App.roomCode s))
       = d_winner (rtdb.get d (App.roomCode s))
    /\ d_status (rtdb.get d' (App.roomCode s))
       = d_status (rtdb.get d (App.roomCode s))
    /\ forall data_board data,
         types.winner data = d_winner (rtdb.get d (App.roomCode s)) ->
         App.winner
           (AppHandlers.callback_state
              (AppHandlers.onRoomSnapshot (App.resetBoard s) data_board data))
         = d_winner (rtdb.get d (App.roomCode s))
         /\ (data_board = None ->
             (exists w, types.winner data = Some (Won w)) ->
             exists s',
               AppHandlers.onRoomSnapshot (App.resetBoard s) data_board data
               = AppHandlers.Threw s').
Proof.
  intros Hmode.
  destruct (updateGameState_doc d now (App.roomCode s) EMPTY_BOARD X None)
    as (d' & Hcall & Hjournal & Hdoc & _).
  exists d'. split.
  { unfold App.handlePlayAgain. rewrite (bool_decide_eq_true_2 _ Hmode).
    by rewrite Hcall. }
  split; [reflexivity |].
  split; [by rewrite Hjournal, app_nil_r |].
  rewrite Hdoc. cbn [d_winner d_status].
  split; [reflexivity |]. split; [reflexivity |].
  intros data_board data Hwinner. rewrite <- Hwinner. split.
  - unfold AppHandlers.onRoomSnapshot.
    destruct data_board as [board|].
    + pose proof (onRoomData_turn (App.resetBoard s)
                    (AppHandlers.with_board board data)) as (_ & _ & Hw & _).
      destruct (App.onRoomData _ _) as [s' timers]. exact Hw.
    + destruct (types.winner data) as [[w|]|] eqn:Hw.
      * reflexivity.
      * pose proof (onRoomData_turn (App.resetBoard s)
                      (AppHandlers.with_board EMPTY_BOARD data))
          as (_ & _ & Hw' & _).
        destruct (App.onRoomData _ _) as [s' timers].
        cbn [AppHandlers.callback_state fst] in *.
        rewrite Hw'. cbn [AppHandlers.with_board types.winner]. exact Hw.
      * pose proof (onRoomData_turn (App.resetBoard s)
                      (AppHandlers.with_board EMPTY_BOARD data))
          as (_ & _ & Hw' & _).
        destruct (App.onRoomData _ _) as [s' timers].
        cbn [AppHandlers.callback_state fst] in *.
        rewrite Hw'. cbn [AppHandlers.with_board types.winner]. exact Hw.
  - intros -> [w Hw]. unfold AppHandlers.onRoomSnapshot. rewrite Hw.
    by eexists.
Qed.

(** X won in room ABCD; Ann clicks play again: her local winner is
    cleared and the room still records X as the winner of a FINISHED
    match.  The listener run on a snapshot of that room that has no board
    throws, and Ann's local winner is X again. *)
Lemma playAgain_keeps_room_winner_witness :
  let won :=
    default Samples.empty_store
      (Repo.exec (Some Samples.store_ABCD)
         (Repo.UpdateGameState 2000 "ABCD"
            [Sym X; Sym X; Sym X; Sym O; Sym O; null; null; null; null] O
            (Some (Won X)))) in
  let data :=
    {| status := FINISHED; players := players Samples.room_ABCD;
       board := []; currentTurn := X; winner := Some (Won X);
       lastMoveTimestamp := Some 3000 |} in
  exists d' s',
    (App.handlePlayAgain Samples.online_match (Some won) 3000).1.2 = Some d'
    /\ d_winner (rtdb.get d' "ABCD") = Some (Won X)
    /\ d_status (rtdb.get d' "ABCD") = Some FINISHED
    /\ AppHandlers.onRoomSnapshot (App.resetBoard Samples.online_match) None
         data = AppHandlers.Threw s'
    /\ App.winner s' = Some (Won X)
    /\ App.board s' = EMPTY_BOARD.
Proof.
  intros won data.
  destruct (playAgain_keeps_room_winner Samples.online_match won 3000)
    as (d' & Hcall & _ & _ & Hw & Hst & Hlistener); [reflexivity |].
  destruct (Hlistener None data) as [Hwinner Hthrows]; [reflexivity |].
  destruct (Hthrows eq_refl) as [s' Hs']; [by exists X |].
  exists d', s'. rewrite Hcall. split; [reflexivity |].
  split; [exact Hw |]. split; [exact Hst |]. split; [exact Hs' |].
  rewrite Hs' in Hwinner. split; [exact Hwinner |].
  vm_compute in Hs'. by injection Hs' as <-.
Defined.

(** X13.  [handleJoinRoom] reaches the store only with a code of four
    characters, and changes the view only after a join the store recorded.
    With any other code it sets the message "Invalid Code" and does
    nothing else.  Otherwise, if the view changes, it changes to GAME, the
    client holds O in online mode on the empty board with X to move, and
    the room has player2 joined; and when the room is missing or full the
    store is as before and the message is "Room not found or full". *)
Theorem handleJoinRoom_outcomes (s : App.App) (db : option Database) :
  (String.length (App.roomCode s) <> 4%nat ->
   AppHandlers.handleJoinRoom s db = (App.setErrorMsg "Invalid Code" s, db, []))
  /\ (let s' := (AppHandlers.handleJoinRoom s db).1.1 in
      let db' := (AppHandlers.handleJoinRoom s db).1.2 in
      App.view s' <> App.view s ->
      App.view s' = App.GAME /\ App.mySymbol s' = Some O
      /\ App.gameMode s' = ONLINE /\ App.board s' = EMPTY_BOARD
      /\ App.currentTurn s' = X /\ App.winner s' = None
      /\ App.isProcessing s' = false
      /\ exists d',
           db' = Some d'
           /\ d_joined (d_player2 (rtdb.get d' (App.roomCode s))) = Some true
           /\ d_status (rtdb.get d' (App.roomCode s)) = Some PLAYING)
  /\ (forall d,
        db = Some d ->
        String.length (App.roomCode s) = 4%nat ->
        exists_ (rtdb.get d (App.roomCode s)) = false
        \/ d_joined (d_player2 (rtdb.get d (App.roomCode s))) = Some true ->
        let s' := (AppHandlers.handleJoinRoom s db).1.1 in
        (AppHandlers.handleJoinRoom s db).1.2 = Some d
        /\ App.errorMsg s' = "Room not found or full"
        /\ App.view s' = App.view s
        /\ App.mySymbol s' = App.mySymbol s).
Proof.
  split; [| split].
  - intros Hlen. unfold AppHandlers.handleJoinRoom.
    destruct (Nat.eqb_spec (String.length (App.roomCode s)) 4); [lia | done].
  - unfold AppHandlers.handleJoinRoom.
    destruct (String.length (App.roomCode s) =? 4)%nat; simpl negb; cbv iota;
      [| intros Hview; by destruct Hview].
    destruct db as [d|]; [| intros Hview; by destruct Hview].
    set (name := if bool_decide (App.player1Name s = "") then "Player 2"
                 else App.player1Name s).
    destruct (exists_ (rtdb.get d (App.roomCode s))) eqn:Hex;
      [| unfold firebase.joinRoom; rewrite Hex;
         intros Hview; by destruct Hview].
    destruct (read_player2_joined (rtdb.get d (App.roomCode s)))
      as [[|]|msg] eqn:Hread;
      try (unfold firebase.joinRoom; rewrite Hex, Hread;
           intros Hview; by destruct Hview).
    destruct (joinRoom_success d (App.roomCode s) name Hex Hread)
      as (d' & -> & Hd' & _).
    intros _. repeat (split; [reflexivity |]).
    exists d'. split; [reflexivity |]. rewrite Hd'. by split.
  - intros d -> Hlen Hfail. unfold AppHandlers.handleJoinRoom.
    rewrite Hlen. simpl negb. cbv iota.
    assert (forall name,
              firebase.joinRoom (Some d) (App.roomCode s) name
              = (Returned false, Some d)) as Hjoin.
    { intros name. destruct Hfail as [Hno | Hfull].
      - unfold firebase.joinRoom. by rewrite Hno.
      - by apply joinRoom_full. }
    rewrite Hjoin. by repeat split.
Qed.

(** A three-letter code never reaches the store; the four-letter code of
    the full room ABCD is refused. *)
Lemma handleJoinRoom_outcomes_witness :
  (let s := App.setRoomCode "ABC" Samples.local_match in
   AppHandlers.handleJoinRoom s None = (App.setErrorMsg "Invalid Code" s, None, []))
  /\ App.errorMsg
       (AppHandlers.handleJoinRoom
          (App.setRoomCode "ABCD" Samples.local_match)
          (Some Samples.store_ABCD)).1.1
     = "Room not found or full".
Proof.
  split.
  - apply handleJoinRoom_outcomes. discriminate.
  - eapply (proj2 (proj2 (handleJoinRoom_outcomes
                            (App.setRoomCode "ABCD" Samples.local_match)
                            (Some Samples.store_ABCD)))
              Samples.store_ABCD); [reflexivity | reflexivity |].
    right. reflexivity.
Defined.

(** X14.  Leaving through [goBack].  From the lobby or the game of an
    online match, [goBack] marks the slot of this client (player1 for X,
    player2 otherwise) as not joined and leaves every other leaf of the
    room as it was; locally it returns to the landing view with an empty
    room code, an empty board and no winner.  In every other situation the
    store is not touched. *)
Theorem goBack_leaves_room (s : App.App) (d : Database) :
  let s' := (AppHandlers.goBack s (Some d)).1.1 in
  let db' := (AppHandlers.goBack s (Some d)).1.2 in
  App.view s' = App.LANDING /\ App.roomCode s' = ""
  /\ App.board s' = EMPTY_BOARD /\ App.winner s' = None
  /\ (App.gameMode s = ONLINE ->
      App.view s = App.GAME \/ App.view s = App.LOBBY ->
      exists d',
        db' = Some d'
        /\ rtdb.get d' (App.roomCode s)
           = write_doc
               (W_joined (App.roomCode s)
                  (if bool_decide (App.mySymbol s = Some X)
                   then key_player1 else key_player2) false)
               (rtdb.get d (App.roomCode s))
        /\ forall code', code' <> App.roomCode s ->
             rooms d' !! code' = rooms d !! code')
  /\ (App.gameMode s <> ONLINE
      \/ (App.view s <> App.GAME /\ App.view s <> App.LOBBY) ->
      db' = Some d).
Proof.
  intros s' db'. subst s' db'. unfold AppHandlers.goBack.
  repeat (split; [reflexivity |]). split.
  - intros Hmode Hview. cbn [fst snd].
    rewrite (bool_decide_eq_true_2 _ Hmode).
    replace (bool_decide (App.view s = App.GAME)
             || bool_decide (App.view s = App.LOBBY)) with true.
    2: { destruct Hview as [-> | ->]; reflexivity. }
    simpl andb. cbv iota.
    destruct (leaveRoom_doc d (App.roomCode s)
                (bool_decide (App.mySymbol s = Some X)))
      as (d' & -> & Hd' & Hother & _).
    exists d'. split; [reflexivity |]. split; [| exact Hother].
    rewrite Hd'. by destruct (bool_decide _).
  - intros Hnot. cbn [fst snd].
    destruct Hnot as [Hmode | [Hg Hl]].
    + rewrite (bool_decide_eq_false_2 _ Hmode). by rewrite andb_false_r.
    + by rewrite (bool_decide_eq_false_2 _ Hg), (bool_decide_eq_false_2 _ Hl).
Qed.

(** Ann, who holds X, goes back from the game of room ABCD: her slot is
    marked as not joined and Bob's is as it was. *)
Lemma goBack_leaves_room_witness :
  exists d',
    (AppHandlers.goBack Samples.online_match (Some Samples.store_ABCD)).1.2
    = Some d'
    /\ d_joined (d_player1 (rtdb.get d' "ABCD")) = Some false
    /\ d_player2 (rtdb.get d' "ABCD")
       = d_player2 (rtdb.get Samples.store_ABCD "ABCD").
Proof.
  destruct (goBack_leaves_room Samples.online_match Samples.store_ABCD)
    as (_ & _ & _ & _ & Hleave & _).
  destruct Hleave as (d' & Hd' & Hdoc & _); [reflexivity | by left |].
  exists d'. split; [exact Hd' |]. change (App.roomCode _) with "ABCD" in Hdoc.
  rewrite Hdoc. by split.
Defined.

Lemma rootListener_keeps_view (s : App.App) (data : RoomData) :
  App.view (RootListener.onRoomData s data).1 = App.view s
  /\ length (RootListener.onRoomData s data).2
     = if bool_decide (App.view s = App.LOBBY)
          && joined (player2 (players data))
       then 1%nat else 0%nat.
Proof.
  unfold RootListener.onRoomData.
  destruct (bool_decide (App.view s = App.LOBBY) && _);
    destruct (_ && _ && _);
    destruct (types.winner data) as [[?|]|];
    try destruct (App.checkGameStatus _);
    by split.
Qed.

(** X15.  The listener of the older App.tsx has no latch.  Subscribed in
    the lobby, it arms one timer for every snapshot that reports player2
    as joined: on [n] such snapshots in a row it arms [n] timers.
    Subscribed in any other view it arms none. *)
Theorem root_listener_arms_every_time
    (s : App.App) (snapshots : list RoomData) :
  length (RootRun.timers_armed s snapshots)
  = if bool_decide (App.view s = App.LOBBY)
    then length (filter (fun data => joined (player2 (players data)) = true)
                   snapshots)
    else 0%nat.
Proof.
  revert s. induction snapshots as [|data rest IH]; intros s;
    cbn [RootRun.timers_armed].
  - by destruct (bool_decide _).
  - destruct (rootListener_keeps_view s data) as [Hview Hlen].
    destruct (RootListener.onRoomData s data) as [s' timers].
    cbn [fst snd] in Hview, Hlen.
    rewrite length_app, Hlen, IH, Hview, filter_cons.
    destruct (bool_decide (App.view s = App.LOBBY)); simpl; [| done].
    destruct (joined (player2 (players data))); simpl.
    + destruct (decide (true = true)); [done | congruence].
    + destruct (decide (false = true)); [discriminate | done].
Qed.

End handlers.

Section synced_move.
Import types rtdb constants js Spec.

Lemma handleMove_online (s : App.App) (db : option Database) (now : Z)
    (index : nat) :
  App.gameMode s = ONLINE ->
  truthy (get (App.board s) index) = false ->
  App.winner s = None ->
  App.mySymbol s = Some (App.currentTurn s) ->
  App.opponentConnected s = true ->
  let newBoard := set (App.board s) index (Sym (App.currentTurn s)) in
  App.handleMove s db now index
  = (s,
     (firebase.updateGameState db now (App.roomCode s) newBoard
        (other (App.currentTurn s))
        (App.st_winner <$> App.checkGameStatus newBoard)).2,
     if App.soundEnabled s then [App.playSound "move"] else []).
Proof.
  intros Hmode Hcell Hwin Hturn Hopp newBoard. unfold App.handleMove.
  rewrite Hcell, Hwin, Hopp, Hturn.
  rewrite (bool_decide_eq_false_2 (None <> None)) by congruence.
  rewrite (bool_decide_eq_true_2 _ Hmode).
  rewrite (bool_decide_eq_true_2 (Some _ = Some _)) by reflexivity.
  simpl. fold newBoard.
  replace (match App.currentTurn s with X => O | O => X end)
    with (other (App.currentTurn s)) by (by destruct (App.currentTurn s)).
  by destruct (firebase.updateGameState _ _ _ _ _ _).
Qed.

(** X16.  A client in step with the room moves it forward by one mark.
    After the listener has processed a snapshot in which there is no
    winner, the opponent is joined and it is this client's turn, a click on
    a cell that holds no symbol in the snapshot is pushed: the room then
    holds the snapshot's board with this client's symbol added in that
    cell, its [currentTurn] is the other symbol, both player slots are as
    before, and the room is FINISHED with the winner exactly when
    [checkGameStatus] gives a result for the new board. *)
Theorem synced_move_advances_room
    (s : App.App) (data : RoomData) (d : Database) (now : Z) (index : nat) :
  App.gameMode s = ONLINE ->
  App.mySymbol s = Some (types.currentTurn data) ->
  types.winner data = None ->
  joined (if bool_decide (App.mySymbol s = Some X)
          then player2 (players data) else player1 (players data)) = true ->
  truthy (get (types.board data) index) = false ->
  let client := (App.onRoomData s data).1 in
  let newBoard := set (types.board data) index (Sym (types.currentTurn data)) in
  exists d',
    (App.handleMove client (Some d) now index).1.2 = Some d'
    /\ (App.handleMove client (Some d) now index).1.1 = client
    /\ d_board (rtdb.get d' (App.roomCode s)) = Some newBoard
    /\ d_currentTurn (rtdb.get d' (App.roomCode s))
       = Some (other (types.currentTurn data))
    /\ d_player1 (rtdb.get d' (App.roomCode s))
       = d_player1 (rtdb.get d (App.roomCode s))
    /\ d_player2 (rtdb.get d' (App.roomCode s))
       = d_player2 (rtdb.get d (App.roomCode s))
    /\ match App.checkGameStatus newBoard with
       | Some r =>
           d_winner (rtdb.get d' (App.roomCode s)) = Some (App.st_winner r)
           /\ d_status (rtdb.get d' (App.roomCode s)) = Some FINISHED
       | None =>
           d_winner (rtdb.get d' (App.roomCode s))
           = d_winner (rtdb.get d (App.roomCode s))
           /\ d_status (rtdb.get d' (App.roomCode s))
              = d_status (rtdb.get d (App.roomCode s))
       end.
Proof.
  intros Hmode Hmine Hwin Hopp Hcell client newBoard.
  destruct (onRoomData_turn s data)
    as (Hb & Ht & Hw & Hg & Hy & Hc & _ & Ho).
  fold client in Hb, Ht, Hw, Hg, Hy, Hc, Ho.
  rewrite (handleMove_online client (Some d) now index);
    [| congruence | by rewrite Hb | congruence | congruence | congruence].
  rewrite Hb, Ht, Hc. fold newBoard.
  destruct (updateGameState_doc d now (App.roomCode s) newBoard
              (other (types.currentTurn data))
              (App.st_winner <$> App.checkGameStatus newBoard))
    as (d' & -> & _ & Hdoc & _).
  exists d'. rewrite Hdoc. simpl.
  repeat (split; [reflexivity |]).
  by destruct (App.checkGameStatus newBoard).
Qed.

(** Ann, in step with room ABCD, takes the corner: the room holds her X
    there and it is O's turn. *)
Lemma synced_move_advances_room_witness :
  let client := (App.onRoomData Samples.online_match Samples.room_ABCD).1 in
  exists d',
    (App.handleMove client (Some Samples.store_ABCD) 2000 0).1.2 = Some d'
    /\ d_board (rtdb.get d' "ABCD")
       = Some [Sym X; null; null; null; null; null; null; null; null]
    /\ d_currentTurn (rtdb.get d' "ABCD") = Some O.
Proof.
  intros client.
  destruct (synced_move_advances_room Samples.online_match Samples.room_ABCD
              Samples.store_ABCD 2000 0)
    as (d' & Hd' & _ & Hb & Ht & _); try reflexivity.
  exists d'. split; [exact Hd' |]. by split.
Defined.

End synced_move.

(* ===================================================================== *)
(** ** Further properties: the snake game *)
(* ===================================================================== *)

Section snake_game.
Import types js.
Import snake GameCanvas SnakeSpec.

Lemma same_cell_spec (a b : Point) : same_cell a b = true <-> a = b.
Proof.
  unfold same_cell. destruct a as [ax ay], b as [bx b_y]. simpl.
  rewrite andb_true_iff, !Z.eqb_eq. split.
  - by intros [-> ->].
  - by intros [= -> ->].
Qed.

Lemma on_snake_spec (p : Point) (body : list Point) :
  existsb (fun segment => same_cell segment p) body = false <-> ~ In p body.
Proof.
  rewrite <- not_true_iff_false, existsb_exists. split.
  - intros Hno Hin. apply Hno. exists p. split; [done |].
    by apply same_cell_spec.
  - intros Hno (q & Hin & Hq). apply same_cell_spec in Hq. by subst.
Qed.

Lemma grid_cell (r1 r2 : Q) :
  (0 <= r1 < 1)%Q -> (0 <= r2 < 1)%Q ->
  in_grid {| x := Qfloor (r1 * inject_Z GRID_SIZE);
             y := Qfloor (r2 * inject_Z GRID_SIZE) |}.
Proof.
  intros H1 H2.
  destruct (floor_times_range r1 20 H1) as (Ha & Hb & _).
  destruct (floor_times_range r2 20 H2) as (Hc & Hd & _).
  assert (0 < 20)%nat as Hpos by (apply Nat.lt_0_succ).
  specialize (Hb Hpos). specialize (Hd Hpos).
  unfold floor_times in *.
  change (inject_Z (Z.of_nat 20)) with (inject_Z GRID_SIZE) in *.
  change (Z.of_nat 20) with GRID_SIZE in *.
  unfold in_grid. cbn [x y]. lia.
Qed.

(** What [getRandomPosition] returns is off the snake it was given, and in
    the grid when the draws lie in [0, 1); it returns at the first round
    whose cell is off the snake. *)
Lemma getRandomPosition_spec (fuel : nat) (random : nat -> Q)
    (body : list Point) :
  forall k p k',
    getRandomPosition fuel random k body = Some (p, k') ->
    ~ In p body
    /\ ((forall i, (0 <= random i < 1)%Q) -> in_grid p).
Proof.
  induction fuel as [|fuel IH]; intros k p k'; [discriminate |].
  cbn [getRandomPosition].
  destruct (existsb _ body) eqn:Hon; [apply IH |].
  intros [= <- <-]. split; [by apply on_snake_spec |].
  intros Hdraws. by apply grid_cell.
Qed.

Lemma in_removelast (p : Point) (l : list Point) :
  In p (removelast l) -> In p l.
Proof.
  induction l as [|a l IH]; [done |].
  destruct l as [|b l]; [done |].
  change (removelast (a :: b :: l)) with (a :: removelast (b :: l)).
  intros [-> | Hin]; [by left | right; by apply IH].
Qed.

Lemma NoDup_removelast (l : list Point) : NoDup l -> NoDup (removelast l).
Proof.
  induction l as [|a l IH]; [done |].
  destruct l as [|b l]; [intros _; constructor |].
  change (removelast (a :: b :: l)) with (a :: removelast (b :: l)).
  intros Hnd. apply NoDup_cons in Hnd as [Ha Hl].
  apply NoDup_cons. split; [| by apply IH].
  rewrite list_elem_of_In. intros Hin. apply Ha.
  apply list_elem_of_In. by apply in_removelast.
Qed.

Lemma Forall_removelast (P : Point -> Prop) (l : list Point) :
  Forall P l -> Forall P (removelast l).
Proof.
  rewrite !Forall_forall. intros Hl p Hp. apply Hl.
  apply list_elem_of_In, in_removelast. by apply list_elem_of_In.
Qed.

Lemma unit_step_not_opposite (p : Point) : unit_step p -> p <> opposite p.
Proof.
  destruct p as [px py]. unfold unit_step, opposite. simpl.
  intros Hunit [= Hx Hy]. lia.
Qed.

Lemma handleDirectionChange_steering (newDir : Point) (c : Canvas) :
  unit_step newDir -> steering_ok c ->
  steering_ok (handleDirectionChange newDir c).
Proof.
  intros Hnew (Hdir & Hnext & Hopp). unfold handleDirectionChange.
  destruct (_ || _) eqn:Hblock; [by repeat split |].
  apply orb_false_iff in Hblock as [Hx Hy].
  split; [exact Hdir |]. split; [exact Hnew |]. simpl.
  destruct newDir as [nx ny], (directionRef c) as [dx dy].
  unfold unit_step, opposite in *. simpl in *.
  intros [= -> ->].
  destruct (Z.eqb_spec (- dx) 0), (Z.eqb_spec dx 0), (Z.eqb_spec (- dy) 0),
    (Z.eqb_spec dy 0); simpl in *; try discriminate; lia.
Qed.

Lemma handleKeyDown_cases (status : GameStatus) (key : string) (c : Canvas) :
  handleKeyDown status key c = c
  \/ exists newDir,
       unit_step newDir
       /\ handleKeyDown status key c = handleDirectionChange newDir c.
Proof.
  unfold handleKeyDown.
  destruct (negb _); [by left |].
  repeat (case_bool_decide;
          [right; eexists; split; [| reflexivity];
           unfold unit_step; simpl; lia |]).
  by left.
Qed.

Lemma handleDirectionChange_frame (newDir : Point) (c : Canvas) :
  snakeRef (handleDirectionChange newDir c) = snakeRef c
  /\ directionRef (handleDirectionChange newDir c) = directionRef c
  /\ foodRef (handleDirectionChange newDir c) = foodRef c
  /\ speedRef (handleDirectionChange newDir c) = speedRef c
  /\ scoreRef (handleDirectionChange newDir c) = scoreRef c
  /\ foodEatenCountRef (handleDirectionChange newDir c) = foodEatenCountRef c.
Proof. unfold handleDirectionChange. by destruct (_ || _). Qed.

Lemma wall_check (h : Point) :
  (x h <? 0) || (GRID_SIZE <=? x h) || (y h <? 0) || (GRID_SIZE <=? y h)
  = false <-> in_grid h.
Proof.
  unfold in_grid. rewrite !orb_false_iff, !Z.ltb_ge, !Z.leb_gt. lia.
Qed.

Lemma on_snake_true (p : Point) (body : list Point) :
  existsb (fun segment => same_cell segment p) body = true <-> In p body.
Proof.
  rewrite existsb_exists. split.
  - intros (q & Hin & Hq). apply same_cell_spec in Hq. by subst.
  - intros Hin. exists p. split; [done |]. by apply same_cell_spec.
Qed.

(** The five ways a call of [update] ends. *)
Lemma update_cases (fuel : nat) (random : nat -> Q) (status : GameStatus)
    (isSoundEnabled : bool) (difficulty : Difficulty) (time : Q)
    (c : Canvas) (f : Frame) :
  update fuel random status isSoundEnabled difficulty time c = Some f ->
  let c1 :=
    {| snakeRef := snakeRef c; foodRef := foodRef c;
       directionRef := nextDirectionRef c;
       nextDirectionRef := nextDirectionRef c;
       speedRef := speedRef c; scoreRef := scoreRef c;
       lastUpdateTimeRef := time;
       foodEatenCountRef := foodEatenCountRef c;
       touchStartRef := touchStartRef c |} in
  (f = Continues c [draw; requestAnimationFrame]
   /\ (status <> PLAYING \/ ~ due time c))
  \/ (status = PLAYING /\ due time c
      /\ ((snakeRef c = [] /\ f = Throws c1)
          \/ exists h,
               next_head c = Some h
               /\ (((~ in_grid h \/ In h (snakeRef c))
                    /\ f = Stops c1
                             ((if isSoundEnabled then [playSound "die"]
                               else [])
                              ++ [onGameOver (scoreRef c)]))
                   \/ (in_grid h /\ ~ In h (snakeRef c)
                       /\ ((h <> foodRef c
                            /\ f = Continues
                                     {| snakeRef :=
                                          removelast (h :: snakeRef c);
                                        foodRef := foodRef c;
                                        directionRef := nextDirectionRef c;
                                        nextDirectionRef :=
                                          nextDirectionRef c;
                                        speedRef := speedRef c;
                                        scoreRef := scoreRef c;
                                        lastUpdateTimeRef := time;
                                        foodEatenCountRef :=
                                          foodEatenCountRef c;
                                        touchStartRef := touchStartRef c |}
                                     [draw; requestAnimationFrame])
                           \/ (h = foodRef c
                               /\ exists food k,
                                    getRandomPosition fuel random 0
                                      (snakeRef c) = Some (food, k)
                                    /\ f = Continues
                                             {| snakeRef := h :: snakeRef c;
                                                foodRef := food;
                                                directionRef :=
                                                  nextDirectionRef c;
                                                nextDirectionRef :=
                                                  nextDirectionRef c;
                                                speedRef :=
                                                  if Z.rem
                                                       (foodEatenCountRef c
                                                        + 1)
                                                       SPEED_UP_INTERVAL
                                                     =? 0
                                                  then
                                                    Z.max
                                                      (S_MIN_SPEED
                                                         (DIFFICULTY_SETTINGS
                                                            difficulty))
                                                      (speedRef c
                                                       - SPEED_DECREMENT)
                                                  else speedRef c;
                                                scoreRef :=
                                                  scoreRef c
                                                  + FOOD_SCORE_VALUE;
                                                lastUpdateTimeRef := time;
                                                foodEatenCountRef :=
                                                  foodEatenCountRef c + 1;
                                                touchStartRef :=
                                                  touchStartRef c |}
                                             ((if isSoundEnabled
                                               then [playSound "eat"]
                                               else [])
                                              ++ [onScoreUpdate
                                                    (scoreRef c
                                                     + FOOD_SCORE_VALUE);
                                                  draw;
                                                  requestAnimationFrame]))))))).
Proof.
  intros Hcall c1. unfold update in Hcall.
  destruct (bool_decide (status = PLAYING)) eqn:Hstatus; simpl in Hcall.
  2:{ left. apply bool_decide_eq_false in Hstatus.
      injection Hcall as <-. split; [done | by left]. }
  apply bool_decide_eq_true in Hstatus.
  destruct (Qle_bool _ _) eqn:Hdue.
  2:{ left. injection Hcall as <-. split; [done |]. right.
      unfold due. rewrite <- Qle_bool_iff. by rewrite Hdue. }
  right. split; [done |]. split; [by apply Qle_bool_iff |].
  destruct (snakeRef c) as [|head rest] eqn:Hsnake.
  { left. injection Hcall as <-. by split. }
  right.
  set (h := {| x := x head + x (nextDirectionRef c);
               y := y head + y (nextDirectionRef c) |}) in *.
  exists h. split; [unfold next_head; by rewrite Hsnake |].
  destruct (_ || _) eqn:Hwall.
  { left. injection Hcall as <-. split; [| done]. left.
    intros Hgrid. apply wall_check in Hgrid.
    change (x h) with (x head + x (nextDirectionRef c)) in Hgrid.
    change (y h) with (y head + y (nextDirectionRef c)) in Hgrid.
    congruence. }
  apply (wall_check h) in Hwall.
  destruct (existsb _ _) eqn:Hself.
  { left. injection Hcall as <-. split; [| done]. right.
    by apply on_snake_true. }
  apply on_snake_spec in Hself.
  right. split; [done |]. split; [done |].
  destruct (same_cell h (foodRef c)) eqn:Hfood.
  - right. apply same_cell_spec in Hfood. split; [done |].
    destruct (getRandomPosition _ _ _ _) as [[food k]|] eqn:Hpos;
      [| discriminate].
    exists food, k. split; [done |]. by injection Hcall as <-.
  - left. split.
    + intros Heq. apply same_cell_spec in Heq. congruence.
    + by injection Hcall as <-.
Qed.

Lemma canvas_invariant_ext (difficulty : Difficulty) (c c' : Canvas) :
  snakeRef c' = snakeRef c -> foodRef c' = foodRef c ->
  directionRef c' = directionRef c ->
  nextDirectionRef c' = nextDirectionRef c ->
  speedRef c' = speedRef c -> scoreRef c' = scoreRef c ->
  foodEatenCountRef c' = foodEatenCountRef c ->
  canvas_invariant difficulty c -> canvas_invariant difficulty c'.
Proof.
  unfold canvas_invariant, steering_ok, snake_ok, scoring_ok.
  by intros -> -> -> -> -> -> ->.
Qed.

Lemma handleDirectionChange_invariant (difficulty : Difficulty)
    (newDir : Point) (c : Canvas) :
  unit_step newDir -> canvas_invariant difficulty c ->
  canvas_invariant difficulty (handleDirectionChange newDir c).
Proof.
  intros Hnew (Hsteer & Hsnake & Hfood & Hscore).
  destruct (handleDirectionChange_frame newDir c)
    as (Es & Ed & Ef & Esp & Esc & Ee).
  split; [by apply handleDirectionChange_steering |].
  unfold snake_ok, scoring_ok. by rewrite Es, Ef, Esp, Esc, Ee.
Qed.

Lemma handleKeyDown_invariant (difficulty : Difficulty)
    (status : GameStatus) (key : string) (c : Canvas) :
  canvas_invariant difficulty c ->
  canvas_invariant difficulty (handleKeyDown status key c).
Proof.
  intros Hinv.
  destruct (handleKeyDown_cases status key c) as [-> | (d & Hd & ->)];
    [done | by apply handleDirectionChange_invariant].
Qed.

Lemma handleTouchEnd_cases (status : GameStatus) (touchEnd : Q * Q)
    (c : Canvas) :
  exists c1,
    (c1 = c \/ exists newDir,
                 unit_step newDir /\ c1 = handleDirectionChange newDir c)
    /\ snakeRef (handleTouchEnd status touchEnd c) = snakeRef c1
    /\ foodRef (handleTouchEnd status touchEnd c) = foodRef c1
    /\ directionRef (handleTouchEnd status touchEnd c) = directionRef c1
    /\ nextDirectionRef (handleTouchEnd status touchEnd c)
       = nextDirectionRef c1
    /\ speedRef (handleTouchEnd status touchEnd c) = speedRef c1
    /\ scoreRef (handleTouchEnd status touchEnd c) = scoreRef c1
    /\ foodEatenCountRef (handleTouchEnd status touchEnd c)
       = foodEatenCountRef c1.
Proof.
  unfold handleTouchEnd.
  destruct (touchStartRef c) as [touchStart|];
    [| exists c; repeat split; by left].
  destruct (negb _); [exists c; repeat split; by left |].
  assert (forall b : bool,
            unit_step (if b then {| x := 1; y := 0 |}
                       else {| x := -1; y := 0 |})) as Hh
    by (intros []; unfold unit_step; simpl; lia).
  assert (forall b : bool,
            unit_step (if b then {| x := 0; y := 1 |}
                       else {| x := 0; y := -1 |})) as Hv
    by (intros []; unfold unit_step; simpl; lia).
  destruct (Qgt_bool (Qabs _) (Qabs _)).
  - destruct (Qgt_bool (Qabs _) _).
    + eexists. split; [right; eexists; split; [apply Hh | reflexivity] |].
      by repeat split.
    + exists c. split; [by left |]. by repeat split.
  - destruct (Qgt_bool (Qabs _) _).
    + eexists. split; [right; eexists; split; [apply Hv | reflexivity] |].
      by repeat split.
    + exists c. split; [by left |]. by repeat split.
Qed.

Lemma resetGame_invariant (fuel : nat) (random : nat -> Q)
    (difficulty : Difficulty) (c0 c : Canvas) (effects : list Effect) :
  draws_in_range random ->
  resetGame fuel random difficulty c0 = Some (c, effects) ->
  canvas_invariant difficulty c /\ neck_ok c.
Proof.
  intros Hdraws. unfold resetGame.
  destruct (getRandomPosition _ _ _ _) as [[food k]|] eqn:Hpos;
    [| discriminate].
  intros [= <- <-].
  apply getRandomPosition_spec in Hpos as [_ Hgrid].
  split; [| by vm_compute].
  split; [| split; [| split]].
  - unfold steering_ok, unit_step, opposite. simpl.
    split; [lia |]. split; [lia | discriminate].
  - unfold snake_ok. simpl. split; [discriminate |]. split.
    + repeat constructor; vm_compute; congruence.
    + repeat constructor; rewrite ?list_elem_of_In; simpl;
        intuition discriminate.
  - simpl. by apply Hgrid.
  - unfold scoring_ok. simpl. split; [lia |]. split; [done |].
    by destruct difficulty.
Qed.

Lemma speed_up (difficulty : Difficulty) (n : Z) :
  0 <= n ->
  (if Z.rem (n + 1) SPEED_UP_INTERVAL =? 0
   then Z.max (S_MIN_SPEED (DIFFICULTY_SETTINGS difficulty))
          (Z.max (S_MIN_SPEED (DIFFICULTY_SETTINGS difficulty))
             (S_INITIAL_SPEED (DIFFICULTY_SETTINGS difficulty)
              - SPEED_DECREMENT * (n / SPEED_UP_INTERVAL))
           - SPEED_DECREMENT)
   else Z.max (S_MIN_SPEED (DIFFICULTY_SETTINGS difficulty))
          (S_INITIAL_SPEED (DIFFICULTY_SETTINGS difficulty)
           - SPEED_DECREMENT * (n / SPEED_UP_INTERVAL)))
  = Z.max (S_MIN_SPEED (DIFFICULTY_SETTINGS difficulty))
      (S_INITIAL_SPEED (DIFFICULTY_SETTINGS difficulty)
       - SPEED_DECREMENT * ((n + 1) / SPEED_UP_INTERVAL)).
Proof.
  intros Hn. unfold SPEED_UP_INTERVAL, SPEED_DECREMENT.
  rewrite Z.rem_mod_nonneg by lia.
  destruct (Z.eqb_spec ((n + 1) mod 5) 0) as [Hmod | Hmod];
    destruct difficulty; simpl; Z.div_mod_to_equations; lia.
Qed.

Lemma update_invariant (fuel : nat) (random : nat -> Q)
    (status : GameStatus) (isSoundEnabled : bool) (difficulty : Difficulty)
    (time : Q) (c : Canvas) (f : Frame) :
  draws_in_range random -> canvas_invariant difficulty c ->
  update fuel random status isSoundEnabled difficulty time c = Some f ->
  (forall c', f <> Throws c') /\ canvas_invariant difficulty (frame_canvas f).
Proof.
  intros Hdraws Hinv Hcall.
  pose proof Hinv as ((Hdir & Hnext & Hopp) & (Hne & Hgrid & Hnd) & Hfood
                      & (Hcount & Hscore & Hspeed)).
  apply update_cases in Hcall. cbv zeta in Hcall.
  assert (steering_ok
            {| snakeRef := snakeRef c; foodRef := foodRef c;
               directionRef := nextDirectionRef c;
               nextDirectionRef := nextDirectionRef c;
               speedRef := speedRef c; scoreRef := scoreRef c;
               lastUpdateTimeRef := time;
               foodEatenCountRef := foodEatenCountRef c;
               touchStartRef := touchStartRef c |}) as Hsteer.
  { split; [done |]. split; [done |]. by apply unit_step_not_opposite. }
  destruct Hcall as [[-> _] | (_ & _ & [[Hempty _] | (h & Hh & Hcall)])];
    [by split | done |].
  destruct Hcall as [[_ ->] | (Hin & Hoff & [[_ ->] | (Heat & food & k
                                                       & Hpos & ->)])].
  - split; [done |]. by split.
  - split; [done |]. split; [exact Hsteer |]. split; [| by split].
    unfold snake_ok. cbn [frame_canvas snakeRef].
    destruct (snakeRef c) as [|head rest] eqn:Hsnake; [done |].
    split; [| split].
    + change (removelast (h :: head :: rest))
        with (h :: removelast (head :: rest)). discriminate.
    + apply Forall_removelast. by constructor.
    + apply NoDup_removelast. apply NoDup_cons. split; [| done].
      by rewrite list_elem_of_In.
  - apply getRandomPosition_spec in Hpos as [_ Hpos].
    split; [done |]. split; [exact Hsteer |]. split; [| split].
    + unfold snake_ok. cbn [frame_canvas snakeRef].
      split; [discriminate |]. split; [by constructor |].
      apply NoDup_cons. split; [| done]. by rewrite list_elem_of_In.
    + cbn [frame_canvas foodRef]. by apply Hpos.
    + unfold scoring_ok.
      cbn [frame_canvas foodEatenCountRef scoreRef speedRef].
      split; [lia |]. split; [unfold FOOD_SCORE_VALUE in *; lia |].
      rewrite Hspeed. by apply speed_up.
Qed.

(** X17. The refs of the snake game keep their shape: after [resetGame],
    and then after any key press, touch or frame, the queued direction is
    a unit step that does not reverse the last move, the snake is not
    empty, lies in the grid and never overlaps itself, the food lies in
    the grid, the score is ten times the number of foods eaten and the
    speed is the one of the difficulty lowered by five for every fifth
    food, never below the minimum; and a frame never reads the head of
    an empty snake. *)
Theorem canvas_invariant_kept (difficulty : Difficulty) :
  (forall fuel random c0 c effects,
     draws_in_range random ->
     resetGame fuel random difficulty c0 = Some (c, effects) ->
     canvas_invariant difficulty c)
  /\ (forall c,
        canvas_invariant difficulty c ->
        (forall status key,
           canvas_invariant difficulty (handleKeyDown status key c))
        /\ (forall touch,
              canvas_invariant difficulty (handleTouchStart touch c))
        /\ (forall status touchEnd,
              canvas_invariant difficulty
                (handleTouchEnd status touchEnd c))
        /\ (forall fuel random status isSoundEnabled time f,
              draws_in_range random ->
              update fuel random status isSoundEnabled difficulty time c
              = Some f ->
              (forall c', f <> Throws c')
              /\ canvas_invariant difficulty (frame_canvas f))).
Proof.
  split.
  - intros fuel random c0 c effects Hdraws Hcall.
    by apply (resetGame_invariant fuel random difficulty c0 c effects).
  - intros c Hinv. split; [| split; [| split]].
    + intros status key. by apply handleKeyDown_invariant.
    + intros touch. by apply (canvas_invariant_ext difficulty c).
    + intros status touchEnd.
      destruct (handleTouchEnd_cases status touchEnd c)
        as (c1 & Hc1 & Es & Ef & Ed & En & Esp & Esc & Ee).
      apply (canvas_invariant_ext difficulty c1); try done.
      destruct Hc1 as [-> | (d & Hd & ->)];
        [done | by apply handleDirectionChange_invariant].
    + intros fuel random status snd time f Hdraws Hcall.
      by apply (update_invariant fuel random status snd difficulty time c).
Qed.

Lemma quarter_in_range : draws_in_range SnakeSamples.quarter.
Proof. intros i. split; unfold Qle, Qlt; simpl; lia. Qed.

Lemma canvas_invariant_kept_witness :
  canvas_invariant MEDIUM SnakeSamples.started
  /\ canvas_invariant MEDIUM
       (handleKeyDown PLAYING "ArrowUp" SnakeSamples.started)
  /\ match update 1 SnakeSamples.quarter PLAYING true MEDIUM (inject_Z 150)
             SnakeSamples.started with
     | Some f => canvas_invariant MEDIUM (frame_canvas f)
     | None => False
     end.
Proof.
  destruct (canvas_invariant_kept MEDIUM) as [Hreset Hkept].
  assert (canvas_invariant MEDIUM SnakeSamples.started) as Hstart.
  { apply (Hreset 1%nat SnakeSamples.quarter mount SnakeSamples.started
             [onScoreUpdate 0] quarter_in_range).
    reflexivity. }
  destruct (Hkept _ Hstart) as (Hkey & _ & _ & Hframe).
  split; [exact Hstart |]. split; [apply Hkey |].
  destruct (update 1 _ _ _ _ _ _) as [f|] eqn:Hcall.
  - eapply Hframe; [exact quarter_in_range | exact Hcall].
  - vm_compute in Hcall. discriminate.
Defined.

Lemma steering_never_reverses (c : Canvas) (head neck : Point)
    (rest : list Point) :
  steering_ok c -> neck_ok c -> snakeRef c = head :: neck :: rest ->
  next_head c <> Some neck.
Proof.
  intros (_ & _ & Hopp) Hneck Hsnake. unfold neck_ok, next_head in *.
  rewrite Hsnake in *. subst neck. intros [= Hx Hy]. apply Hopp.
  destruct (nextDirectionRef c) as [nx ny], (directionRef c) as [dx dy].
  unfold opposite. simpl in *. f_equal; lia.
Qed.

Lemma neck_ok_ext (c c' : Canvas) :
  snakeRef c' = snakeRef c -> directionRef c' = directionRef c ->
  neck_ok c -> neck_ok c'.
Proof. unfold neck_ok. by intros -> ->. Qed.

Lemma update_neck (fuel : nat) (random : nat -> Q) (status : GameStatus)
    (isSoundEnabled : bool) (difficulty : Difficulty) (time : Q)
    (c c' : Canvas) (effects : list Effect) :
  neck_ok c ->
  update fuel random status isSoundEnabled difficulty time c
  = Some (Continues c' effects) ->
  neck_ok c'.
Proof.
  intros Hneck Hcall. apply update_cases in Hcall. cbv zeta in Hcall.
  destruct Hcall as [[[= -> ->] _] | (_ & _ & [[_ ?] | (h & Hh & Hcall)])];
    [done | done |].
  unfold next_head in Hh.
  destruct (snakeRef c) as [|head rest] eqn:Hsnake; [done |].
  injection Hh as <-.
  destruct Hcall as [[_ ?] | (_ & _ & [[_ [= -> ->]] | (_ & food & k & _
                                                         & [= -> ->])])];
    [done | |].
  - unfold neck_ok. cbn [snakeRef directionRef].
    destruct rest as [|second rest]; [done |].
    change (removelast (?a :: head :: second :: rest))
      with (a :: head :: removelast (second :: rest)).
    cbn [x y]. destruct head. simpl. f_equal; lia.
  - unfold neck_ok. cbn [snakeRef directionRef x y].
    destruct head. simpl. f_equal; lia.
Qed.

(** X18. The snake never turns back onto its own neck.  After [resetGame]
    the segment behind the head is where the head came from; key presses,
    touches and frames that go on keep it so; and whenever that holds
    and the steering is in order, the cell the head enters next is not
    the neck, however many keys were pressed since the last move. *)
Theorem no_reversal_into_neck (difficulty : Difficulty) (c : Canvas) :
  canvas_invariant difficulty c -> neck_ok c ->
  (forall head neck rest,
     snakeRef c = head :: neck :: rest -> next_head c <> Some neck)
  /\ (forall status key, neck_ok (handleKeyDown status key c))
  /\ (forall status touchEnd, neck_ok (handleTouchEnd status touchEnd c))
  /\ (forall fuel random status isSoundEnabled time c' effects,
        update fuel random status isSoundEnabled difficulty time c
        = Some (Continues c' effects) ->
        neck_ok c')
  /\ (forall fuel random c' effects,
        resetGame fuel random difficulty c = Some (c', effects) ->
        neck_ok c').
Proof.
  intros (Hsteer & _) Hneck. split; [| split; [| split; [| split]]].
  - intros head neck rest Hsnake.
    by apply (steering_never_reverses c head neck rest).
  - intros status key.
    destruct (handleKeyDown_cases status key c) as [-> | (d & _ & ->)];
      [done |].
    destruct (handleDirectionChange_frame d c) as (Es & Ed & _).
    by apply (neck_ok_ext c).
  - intros status touchEnd.
    destruct (handleTouchEnd_cases status touchEnd c)
      as (c1 & Hc1 & Es & _ & Ed & _).
    apply (neck_ok_ext c1); [done | done |].
    destruct Hc1 as [-> | (d & _ & ->)]; [done |].
    destruct (handleDirectionChange_frame d c) as (Es' & Ed' & _).
    by apply (neck_ok_ext c).
  - intros fuel random status snd time c' effects Hcall.
    by apply (update_neck fuel random status snd difficulty time c c'
                effects).
  - intros fuel random c' effects. unfold resetGame.
    destruct (getRandomPosition _ _ _ _) as [[food k]|]; [| discriminate].
    intros [= <- <-]. by vm_compute.
Qed.

Lemma no_reversal_into_neck_witness :
  next_head
    (handleKeyDown PLAYING "ArrowLeft"
       (handleKeyDown PLAYING "ArrowUp" SnakeSamples.started))
  <> Some {| x := 9; y := 10 |}.
Proof.
  destruct (resetGame_invariant 1 SnakeSamples.quarter MEDIUM mount
              SnakeSamples.started [onScoreUpdate 0] quarter_in_range
              eq_refl) as [Hstart Hneck].
  pose proof (handleKeyDown_invariant MEDIUM PLAYING "ArrowUp" _ Hstart)
    as Hkey.
  destruct (no_reversal_into_neck MEDIUM SnakeSamples.started Hstart Hneck)
    as (_ & Hkey' & _).
  specialize (Hkey' PLAYING "ArrowUp").
  pose proof (handleKeyDown_invariant MEDIUM PLAYING "ArrowLeft" _ Hkey)
    as Hkey2.
  destruct (no_reversal_into_neck MEDIUM _ Hkey Hkey')
    as (_ & Hkey2' & _).
  specialize (Hkey2' PLAYING "ArrowLeft").
  destruct (no_reversal_into_neck MEDIUM _ Hkey2 Hkey2') as (Hsafe & _).
  apply (Hsafe {| x := 10; y := 10 |} {| x := 9; y := 10 |}
           [ {| x := 8; y := 10 |} ]).
  reflexivity.
Defined.

Lemma getRandomPosition_first_free (random : nat -> Q)
    (body : list Point) (j : nat) :
  forall fuel k,
    (forall i, (i < j)%nat -> In (drawn_cell random (k + 2 * i)) body) ->
    ~ In (drawn_cell random (k + 2 * j)) body ->
    (j < fuel)%nat ->
    getRandomPosition fuel random k body
    = Some (drawn_cell random (k + 2 * j), S (S (k + 2 * j))).
Proof.
  induction j as [|j IH]; intros fuel k Hon Hoff Hfuel;
    (destruct fuel as [|fuel]; [lia |]); cbn [getRandomPosition].
  - replace (k + 2 * 0)%nat with k in * by lia.
    apply on_snake_spec in Hoff. unfold drawn_cell in Hoff.
    by rewrite Hoff.
  - pose proof (Hon 0%nat ltac:(lia)) as Hfirst.
    replace (k + 2 * 0)%nat with k in Hfirst by lia.
    apply on_snake_true in Hfirst. unfold drawn_cell in Hfirst.
    rewrite Hfirst.
    replace (k + 2 * S j)%nat with (S (S k) + 2 * j)%nat in * by lia.
    apply IH; [| done | lia].
    intros i Hi.
    replace (S (S k) + 2 * i)%nat with (k + 2 * S i)%nat by lia.
    apply Hon. lia.
Qed.

(** X19. Where the food goes.  [getRandomPosition] draws cells two
    numbers at a time and returns the first one that is on no segment of
    the snake; so if the [j]-th cell drawn is the first free one and the
    loop is given more than [j] rounds, it returns that cell after using
    [2 j + 2] draws, the cell is in the grid when the draws are in
    [0, 1), and then [resetGame] and every frame return. *)
Theorem food_at_first_free_cell (fuel : nat) (random : nat -> Q)
    (body : list Point) (j : nat) :
  (forall i, (i < j)%nat -> In (drawn_cell random (2 * i)) body) ->
  ~ In (drawn_cell random (2 * j)) body ->
  (j < fuel)%nat ->
  getRandomPosition fuel random 0 body
  = Some (drawn_cell random (2 * j), S (S (2 * j)))
  /\ (draws_in_range random -> in_grid (drawn_cell random (2 * j)))
  /\ (forall status isSoundEnabled difficulty time c,
        snakeRef c = body ->
        update fuel random status isSoundEnabled difficulty time c <> None)
  /\ (body = INITIAL_SNAKE ->
      forall difficulty c,
      exists c' effects,
        resetGame fuel random difficulty c = Some (c', effects)
        /\ foodRef c' = drawn_cell random (2 * j)
        /\ snakeRef c' = INITIAL_SNAKE).
Proof.
  intros Hon Hoff Hfuel.
  assert (getRandomPosition fuel random 0 body
          = Some (drawn_cell random (2 * j), S (S (2 * j)))) as Hpos.
  { by apply (getRandomPosition_first_free random body j fuel 0%nat). }
  split; [exact Hpos |]. split; [| split].
  - intros Hdraws. by apply grid_cell.
  - intros status snd difficulty time c <-. unfold update.
    destruct (negb _); [done |]. destruct (Qle_bool _ _); [| done].
    destruct (snakeRef c) as [|head rest] eqn:Hsnake; [done |].
    destruct (_ || _); [done |]. destruct (existsb _ _); [done |].
    destruct (same_cell _ _); [| done]. by rewrite Hpos.
  - intros -> difficulty c. unfold resetGame. rewrite Hpos.
    eexists _, _. by split.
Qed.

Lemma food_at_first_free_cell_witness :
  getRandomPosition 1 SnakeSamples.quarter 0 INITIAL_SNAKE
  = Some ({| x := 5; y := 5 |}, 2%nat)
  /\ update 1 SnakeSamples.quarter PLAYING true MEDIUM (inject_Z 150)
       SnakeSamples.before_food <> None.
Proof.
  split.
  - apply (food_at_first_free_cell 1 SnakeSamples.quarter INITIAL_SNAKE 0).
    + intros i Hi. lia.
    + vm_compute. intuition discriminate.
    + lia.
  - apply (food_at_first_free_cell 1 SnakeSamples.quarter
             (snakeRef SnakeSamples.before_food) 0).
    + intros i Hi. lia.
    + vm_compute. intuition discriminate.
    + lia.
    + reflexivity.
Defined.

(** X20. The snake grows exactly when it scores.  A frame that goes on
    either leaves snake, score and food alone (no move is due), or moves
    the head to the next cell keeping length, score and food, or puts
    the head on the food: then the snake is the old one with the food
    cell in front, the score is ten higher and reported, and the new
    food is on no cell the snake occupied before the move. *)
Theorem snake_grows_when_it_scores (fuel : nat) (random : nat -> Q)
    (status : GameStatus) (isSoundEnabled : bool) (difficulty : Difficulty)
    (time : Q) (c c' : Canvas) (effects : list Effect) :
  update fuel random status isSoundEnabled difficulty time c
  = Some (Continues c' effects) ->
  (c' = c /\ effects = [draw; requestAnimationFrame])
  \/ (length (snakeRef c') = length (snakeRef c)
      /\ hd_error (snakeRef c') = next_head c
      /\ next_head c <> Some (foodRef c)
      /\ scoreRef c' = scoreRef c /\ foodRef c' = foodRef c
      /\ effects = [draw; requestAnimationFrame])
  \/ (snakeRef c' = foodRef c :: snakeRef c
      /\ next_head c = Some (foodRef c)
      /\ scoreRef c' = scoreRef c + FOOD_SCORE_VALUE
      /\ foodEatenCountRef c' = foodEatenCountRef c + 1
      /\ ~ In (foodRef c') (snakeRef c)
      /\ In (onScoreUpdate (scoreRef c')) effects).
Proof.
  intros Hcall. apply update_cases in Hcall. cbv zeta in Hcall.
  destruct Hcall as [[[= -> ->] _] | (_ & _ & [[_ ?] | (h & Hh & Hcall)])];
    [by left | done |].
  destruct Hcall as [[_ ?] | (_ & Hoff & [[Hfood [= -> ->]]
                                         | (-> & food & k & Hpos
                                            & [= -> ->])])];
    [done | |].
  - right. left. cbn [snakeRef scoreRef foodRef]. rewrite Hh.
    assert (exists head rest, snakeRef c = head :: rest)
      as (head & rest & Hsnake).
    { unfold next_head in Hh.
      destruct (snakeRef c) as [|head rest]; [done | by eexists _, _]. }
    rewrite Hsnake.
    change (removelast (h :: head :: rest))
      with (h :: removelast (head :: rest)).
    split; [| split; [done | split; [by intros [= ->] | done]]].
    cbn [length]. f_equal.
    clear. revert head. induction rest as [|a rest IH]; intros head;
      [done |].
    change (removelast (head :: a :: rest))
      with (head :: removelast (a :: rest)).
    cbn [length]. f_equal. apply IH.
  - right. right. cbn [snakeRef scoreRef foodRef foodEatenCountRef].
    apply getRandomPosition_spec in Hpos as [Hfree _].
    split; [done |]. split; [done |]. split; [done |]. split; [done |].
    split; [done |].
    apply in_or_app. right. by left.
Qed.

Lemma snake_grows_when_it_scores_witness :
  exists c' effects,
    update 1 SnakeSamples.quarter PLAYING true MEDIUM (inject_Z 150)
      SnakeSamples.before_food = Some (Continues c' effects)
    /\ snakeRef c'
       = {| x := 19; y := 9 |} :: snakeRef SnakeSamples.before_food
    /\ scoreRef c' = 10.
Proof.
  eexists _, _. split; [vm_compute; reflexivity |].
  destruct (snake_grows_when_it_scores 1 SnakeSamples.quarter PLAYING true
              MEDIUM (inject_Z 150) SnakeSamples.before_food _ _ eq_refl)
    as [[Hsame _] | [(_ & _ & Hmove & _) | (Hsnake & _ & Hscore & _)]].
  - discriminate Hsame.
  - exfalso. apply Hmove. reflexivity.
  - split; [exact Hsnake | exact Hscore].
Defined.

Lemma update_dies (fuel : nat) (random : nat -> Q)
    (isSoundEnabled : bool) (difficulty : Difficulty) (time : Q)
    (c : Canvas) (h : Point) :
  due time c -> next_head c = Some h ->
  ~ in_grid h \/ In h (snakeRef c) ->
  update fuel random PLAYING isSoundEnabled difficulty time c
  = Some (Stops
            {| snakeRef := snakeRef c; foodRef := foodRef c;
               directionRef := nextDirectionRef c;
               nextDirectionRef := nextDirectionRef c;
               speedRef := speedRef c; scoreRef := scoreRef c;
               lastUpdateTimeRef := time;
               foodEatenCountRef := foodEatenCountRef c;
               touchStartRef := touchStartRef c |}
            ((if isSoundEnabled then [playSound "die"] else [])
             ++ [onGameOver (scoreRef c)])).
Proof.
  intros Hdue Hh Hhit. unfold update. cbn [bool_decide negb].
  rewrite bool_decide_eq_true_2 by done. cbn [negb].
  apply Qle_bool_iff in Hdue. rewrite Hdue.
  unfold next_head in Hh.
  destruct (snakeRef c) as [|head rest] eqn:Hsnake; [done |].
  injection Hh as <-.
  destruct (_ || _) eqn:Hwall; [done |].
  set (h := {| x := x head + x (nextDirectionRef c);
               y := y head + y (nextDirectionRef c) |}) in *.
  apply (wall_check h) in Hwall.
  destruct Hhit as [Hout | Hin]; [done |].
  apply on_snake_true in Hin. by rewrite Hin.
Qed.

(** X21. Starting again from the game-over screen does not reset the
    game.  After a frame has ended the game, [startGame] sets the status
    to [PLAYING] and the shown score to 0, but the effect of the canvas
    resets the refs only in the menu: the snake and the score of the refs
    are those of the lost game, and unless a key is pressed in time the
    next due frame ends the game again, reporting the old score. *)
Theorem play_again_resumes_lost_game (fuel : nat) (random : nat -> Q)
    (status : GameStatus) (isSoundEnabled : bool) (difficulty : Difficulty)
    (time : Q) (c c1 : Canvas) (effects : list Effect)
    (s : SnakeApp.App) (db : option SnakeCounters.Database) :
  update fuel random status isSoundEnabled difficulty time c
  = Some (Stops c1 effects) ->
  let s' :=
    (SnakeApp.startGame (SnakeApp.handleGameOver (scoreRef c) s) db).1.1 in
  In (onGameOver (scoreRef c)) effects
  /\ SnakeApp.status s' = PLAYING /\ SnakeApp.score s' = 0
  /\ snakeRef c1 = snakeRef c /\ scoreRef c1 = scoreRef c
  /\ (forall fuel' random',
        statusEffect fuel' random' (SnakeApp.status s')
          (SnakeApp.difficulty s') c1
        = Some (c1, [requestAnimationFrame]))
  /\ (forall fuel' random' isSoundEnabled' time',
        due time' c1 ->
        exists c2 effects',
          update fuel' random' (SnakeApp.status s') isSoundEnabled'
            (SnakeApp.difficulty s') time' c1
          = Some (Stops c2 effects')
          /\ In (onGameOver (scoreRef c)) effects'
          /\ snakeRef c2 = snakeRef c).
Proof.
  intros Hcall s'.
  assert (SnakeApp.status s' = PLAYING /\ SnakeApp.score s' = 0)
    as [Hstatus Hscore].
  { subst s'. unfold SnakeApp.startGame.
    destruct (SnakeCounters.incrementGamesPlayed db) as [[] db1];
      [| done].
    by destruct (SnakeCounters.getGamesPlayed db1). }
  apply update_cases in Hcall. cbv zeta in Hcall.
  destruct Hcall as [[? _] | (_ & _ & [[_ ?] | (h & Hh & Hcall)])];
    [done | done |].
  destruct Hcall as [[Hhit [= -> ->]] | (_ & _ & [[_ ?] | (_ & ? & ? & _
                                                           & ?)])];
    [| done | done].
  split; [apply in_or_app; right; by left |].
  split; [done |]. split; [done |]. split; [done |]. split; [done |].
  rewrite Hstatus. split; [done |].
  intros fuel' random' snd' time' Hdue.
  eexists _, _. split; [| split].
  - apply (update_dies fuel' random' snd' (SnakeApp.difficulty s') time'
             _ h); [exact Hdue | exact Hh | exact Hhit].
  - apply in_or_app. right. by left.
  - done.
Qed.

Lemma play_again_resumes_lost_game_witness :
  exists c2 effects',
    update 1 SnakeSamples.quarter PLAYING false MEDIUM (inject_Z 300)
      (frame_canvas
         (default (Throws SnakeSamples.at_wall)
            (update 1 SnakeSamples.quarter PLAYING true MEDIUM
               (inject_Z 150) SnakeSamples.at_wall)))
    = Some (Stops c2 effects')
    /\ In (onGameOver 0) effects'.
Proof.
  destruct (play_again_resumes_lost_game 1 SnakeSamples.quarter PLAYING true
              MEDIUM (inject_Z 150) SnakeSamples.at_wall _ _
              (SnakeApp.mount None) None eq_refl)
    as (_ & _ & _ & _ & _ & _ & Hagain).
  destruct (Hagain 1%nat SnakeSamples.quarter false (inject_Z 300))
    as (c2 & effects' & Hcall & Hover & _).
  { unfold due, Qle. simpl. lia. }
  exists c2, effects'. split; [exact Hcall | exact Hover].
Defined.

Lemma handleGameOver_highScore (finalScore : Z) (s : SnakeApp.App) :
  SnakeApp.highScore (SnakeApp.handleGameOver finalScore s)
  = Z.max (SnakeApp.highScore s) finalScore
  /\ SnakeApp.status (SnakeApp.handleGameOver finalScore s) = GAME_OVER
  /\ (SnakeApp.localStorage (SnakeApp.handleGameOver finalScore s)
      = if SnakeApp.highScore s <? finalScore then Some finalScore
        else SnakeApp.localStorage s).
Proof.
  unfold SnakeApp.handleGameOver.
  destruct (Z.ltb_spec (SnakeApp.highScore s) finalScore); simpl;
    (split; [lia | by split]).
Qed.

(** What is stored is the high score, or nothing is stored and the high
    score is 0. *)
Lemma games_over_stored (finalScores : list Z) :
  forall s,
    SnakeApp.highScore (SnakeApp.loadHighScore
                          (SnakeApp.mount (SnakeApp.localStorage s)))
    = SnakeApp.highScore s ->
    SnakeApp.highScore (games_over finalScores s)
    = foldl Z.max (SnakeApp.highScore s) finalScores
    /\ SnakeApp.highScore
         (SnakeApp.loadHighScore
            (SnakeApp.mount
               (SnakeApp.localStorage (games_over finalScores s))))
       = SnakeApp.highScore (games_over finalScores s)
    /\ (finalScores <> [] ->
        SnakeApp.status (games_over finalScores s) = GAME_OVER).
Proof.
  induction finalScores as [|finalScore finalScores IH]; intros s Hsync.
  - by cbn.
  - unfold games_over in *. cbn [foldl].
    destruct (handleGameOver_highScore finalScore s) as (Hhigh & Hst & Hls).
    destruct (IH (SnakeApp.handleGameOver finalScore s))
      as (Hbest & Hreload & Hstatus).
    + rewrite Hls, Hhigh. unfold SnakeApp.loadHighScore in *.
      destruct (Z.ltb_spec (SnakeApp.highScore s) finalScore); simpl.
      * lia.
      * rewrite Z.max_l by lia. exact Hsync.
    + rewrite Hhigh in Hbest. split; [exact Hbest |].
      split; [exact Hreload |]. intros _.
      destruct finalScores as [|next finalScores]; [exact Hst |].
      by apply Hstatus.
Qed.

(** X22. The high score is the best final score, and it survives a
    reload.  From a freshly mounted component that has loaded what the
    browser stored, after any number of games the high score is the
    maximum of the loaded one and the final scores; the status is
    [GAME_OVER] after the last game; and mounting again over what is
    stored then loads the same high score. *)
Theorem high_score_is_best_and_stored (stored : option Z)
    (finalScores : list Z) :
  let s0 := SnakeApp.loadHighScore (SnakeApp.mount stored) in
  let s := games_over finalScores s0 in
  SnakeApp.highScore s0 = SnakeCounters.val_or_0 stored
  /\ SnakeApp.highScore s = foldl Z.max (SnakeApp.highScore s0) finalScores
  /\ SnakeApp.highScore
       (SnakeApp.loadHighScore (SnakeApp.mount (SnakeApp.localStorage s)))
     = SnakeApp.highScore s
  /\ (finalScores <> [] -> SnakeApp.status s = GAME_OVER).
Proof.
  intros s0 s. split; [by destruct stored |].
  apply games_over_stored. subst s0. by destruct stored.
Qed.

Lemma high_score_is_best_and_stored_witness :
  SnakeApp.highScore
    (games_over [30; 50; 20]
       (SnakeApp.loadHighScore (SnakeApp.mount (Some 40)))) = 50
  /\ SnakeApp.status
       (games_over [30; 50; 20]
          (SnakeApp.loadHighScore (SnakeApp.mount (Some 40)))) = GAME_OVER.
Proof.
  destruct (high_score_is_best_and_stored (Some 40) [30; 50; 20])
    as (_ & Hbest & _ & Hstatus).
  split; [exact Hbest | apply Hstatus; discriminate].
Defined.

Lemma plus_1_exact (currentCount : Z) :
  Z.abs (currentCount + 1) <= SnakeCounters.EXACT_LIMIT ->
  SnakeCounters.plus_1 currentCount = currentCount + 1.
Proof.
  intros Hsmall. unfold SnakeCounters.plus_1.
  apply Z.leb_le in Hsmall. by rewrite Hsmall.
Qed.

Lemma visits_None (n : nat) : visits n None = None.
Proof. induction n as [|n IH]; [done | exact IH]. Qed.

Lemma visits_Some (n : nat) :
  forall d,
    0 <= SnakeCounters.val_or_0 (SnakeCounters.snake_visitorCount d) ->
    SnakeCounters.val_or_0 (SnakeCounters.snake_visitorCount d) + Z.of_nat n
    <= SnakeCounters.EXACT_LIMIT ->
    exists d',
      visits n (Some d) = Some d'
      /\ SnakeCounters.snake_visitorCount d'
         = (if n is 0%nat then SnakeCounters.snake_visitorCount d
            else Some (SnakeCounters.val_or_0
                         (SnakeCounters.snake_visitorCount d)
                       + Z.of_nat n))
      /\ SnakeCounters.snake_gamesPlayed d'
         = SnakeCounters.snake_gamesPlayed d.
Proof.
  induction n as [|n IH]; intros d Hlow Hhigh; [by exists d |].
  cbn [visits SnakeCounters.incrementVisitorCount snd].
  rewrite plus_1_exact by lia.
  destruct (IH {| SnakeCounters.snake_visitorCount :=
                    Some (SnakeCounters.val_or_0
                            (SnakeCounters.snake_visitorCount d) + 1);
                  SnakeCounters.snake_gamesPlayed :=
                    SnakeCounters.snake_gamesPlayed d |})
    as (d' & Hd' & Hv & Hg).
  { cbn [SnakeCounters.snake_visitorCount SnakeCounters.val_or_0]. lia. }
  { cbn [SnakeCounters.snake_visitorCount SnakeCounters.val_or_0]. lia. }
  exists d'. split; [exact Hd' |]. split; [| exact Hg].
  rewrite Hv. cbn [SnakeCounters.snake_visitorCount SnakeCounters.val_or_0].
  destruct n; f_equal; lia.
Qed.

(** X23. The visitor counter counts visits, up to 2^53.  While the count
    stays within the integers that JavaScript numbers hold exactly, [n]
    increments leave the old count (0 when there was none) plus [n] in
    the store and the games counter untouched, and a mounting component
    increments once and then shows the new visitor count and the games
    count as stored.  At 2^53 an increment leaves the count as it is.
    With no store every call throws, nothing is shown and one error is
    logged. *)
Theorem visits_are_counted (n : nat) (d : SnakeCounters.Database)
    (s : SnakeApp.App) :
  0 <= SnakeCounters.val_or_0 (SnakeCounters.snake_visitorCount d) ->
  SnakeCounters.val_or_0 (SnakeCounters.snake_visitorCount d) + Z.of_nat n
  < SnakeCounters.EXACT_LIMIT ->
  SnakeCounters.getVisitorCount (visits n (Some d))
  = Returned (SnakeCounters.val_or_0 (SnakeCounters.snake_visitorCount d)
              + Z.of_nat n)
  /\ SnakeCounters.getGamesPlayed (visits n (Some d))
     = SnakeCounters.getGamesPlayed (Some d)
  /\ (exists s' d',
        SnakeApp.initCounters s (Some d) = (s', Some d', [])
        /\ Some d' = visits 1 (Some d)
        /\ SnakeApp.visitorCount s'
           = Some (SnakeCounters.val_or_0
                     (SnakeCounters.snake_visitorCount d) + 1)
        /\ SnakeApp.gamesPlayedCount s'
           = Some (SnakeCounters.val_or_0
                     (SnakeCounters.snake_gamesPlayed d)))
  /\ (forall games,
        SnakeCounters.getVisitorCount
          (visits 1
             (Some {| SnakeCounters.snake_visitorCount :=
                        Some SnakeCounters.EXACT_LIMIT;
                      SnakeCounters.snake_gamesPlayed := games |}))
        = Returned SnakeCounters.EXACT_LIMIT)
  /\ visits n None = None
  /\ SnakeCounters.getVisitorCount None = Thrown "Database not initialized"
  /\ SnakeApp.initCounters s None
     = (s, None, [SnakeApp.console_error "Failed to load counters:"]).
Proof.
  intros Hlow Hhigh.
  destruct (visits_Some n d Hlow) as (d' & Hd' & Hv & Hg); [lia |].
  split; [| split; [| split; [| split; [| split; [| by split]]]]].
  - rewrite Hd'. cbn [SnakeCounters.getVisitorCount]. rewrite Hv.
    destruct n; [| done]. f_equal. cbn. lia.
  - rewrite Hd'. cbn [SnakeCounters.getGamesPlayed]. by rewrite Hg.
  - unfold SnakeApp.initCounters.
    cbn [visits SnakeCounters.incrementVisitorCount snd
           SnakeCounters.getVisitorCount SnakeCounters.getGamesPlayed].
    rewrite plus_1_exact by (unfold SnakeCounters.EXACT_LIMIT in *; lia).
    eexists _, _. by repeat split.
  - intros games. by vm_compute.
  - apply visits_None.
Qed.

Lemma visits_are_counted_witness :
  SnakeCounters.getVisitorCount
    (visits 3
       (Some {| SnakeCounters.snake_visitorCount := Some 7;
                SnakeCounters.snake_gamesPlayed := None |}))
  = Returned 10.
Proof.
  apply (visits_are_counted 3
           {| SnakeCounters.snake_visitorCount := Some 7;
              SnakeCounters.snake_gamesPlayed := None |}
           (SnakeApp.mount None)).
  - simpl. lia.
  - unfold SnakeCounters.EXACT_LIMIT. simpl. lia.
Defined.

Lemma starts_cases (s : SnakeApp.App) (db : option SnakeCounters.Database) :
  SnakeApp.status (SnakeApp.startGame s db).1.1 = PLAYING
  /\ SnakeApp.score (SnakeApp.startGame s db).1.1 = 0
  /\ SnakeApp.highScore (SnakeApp.startGame s db).1.1 = SnakeApp.highScore s
  /\ match db with
     | None =>
         (SnakeApp.startGame s db).1.2 = None
         /\ SnakeApp.gamesPlayedCount (SnakeApp.startGame s db).1.1
            = SnakeApp.gamesPlayedCount s
     | Some d =>
         (SnakeApp.startGame s db).1.2
         = Some {| SnakeCounters.snake_visitorCount :=
                     SnakeCounters.snake_visitorCount d;
                   SnakeCounters.snake_gamesPlayed :=
                     Some (SnakeCounters.plus_1
                             (SnakeCounters.val_or_0
                                (SnakeCounters.snake_gamesPlayed d))) |}
         /\ SnakeApp.gamesPlayedCount (SnakeApp.startGame s db).1.1
            = Some (SnakeCounters.plus_1
                      (SnakeCounters.val_or_0
                         (SnakeCounters.snake_gamesPlayed d)))
     end.
Proof. by destruct db. Qed.

Lemma starts_step (n : nat) (s : SnakeApp.App)
    (db : option SnakeCounters.Database) :
  starts (S n) s db
  = starts n (SnakeApp.startGame s db).1.1 (SnakeApp.startGame s db).1.2.
Proof.
  cbn [starts]. by destruct (SnakeApp.startGame s db) as [[s1 db1] e1].
Qed.

Lemma starts_Some (n : nat) :
  forall s d,
    0 <= SnakeCounters.val_or_0 (SnakeCounters.snake_gamesPlayed d) ->
    SnakeCounters.val_or_0 (SnakeCounters.snake_gamesPlayed d)
    + Z.of_nat (S n) <= SnakeCounters.EXACT_LIMIT ->
    exists d',
      (starts (S n) s (Some d)).2 = Some d'
      /\ SnakeCounters.snake_gamesPlayed d'
         = Some (SnakeCounters.val_or_0 (SnakeCounters.snake_gamesPlayed d)
                 + Z.of_nat (S n))
      /\ SnakeCounters.snake_visitorCount d'
         = SnakeCounters.snake_visitorCount d
      /\ SnakeApp.gamesPlayedCount (starts (S n) s (Some d)).1
         = Some (SnakeCounters.val_or_0 (SnakeCounters.snake_gamesPlayed d)
                 + Z.of_nat (S n))
      /\ SnakeApp.status (starts (S n) s (Some d)).1 = PLAYING.
Proof.
  induction n as [|n IH]; intros s d Hlow Hhigh; rewrite starts_step;
    destruct (starts_cases s (Some d)) as (Hst & _ & _ & Hdb & Hcount);
    rewrite Hdb; rewrite plus_1_exact in * by lia.
  - cbn [starts fst snd]. eexists. split; [reflexivity |].
    rewrite Hcount, Hst. by repeat split.
  - destruct (IH (SnakeApp.startGame s (Some d)).1.1
                {| SnakeCounters.snake_visitorCount :=
                     SnakeCounters.snake_visitorCount d;
                   SnakeCounters.snake_gamesPlayed :=
                     Some (SnakeCounters.val_or_0
                             (SnakeCounters.snake_gamesPlayed d) + 1) |})
      as (d' & Hd' & Hg & Hv & Hc & Hs).
    { cbn [SnakeCounters.snake_gamesPlayed SnakeCounters.val_or_0]. lia. }
    { cbn [SnakeCounters.snake_gamesPlayed SnakeCounters.val_or_0]. lia. }
    exists d'. split; [exact Hd' |].
    cbn [SnakeCounters.snake_gamesPlayed SnakeCounters.snake_visitorCount
           SnakeCounters.val_or_0] in Hg, Hv, Hc.
    rewrite Hg, Hc. split; [f_equal; lia |]. split; [exact Hv |].
    split; [f_equal; lia | exact Hs].
Qed.

Lemma starts_None (n : nat) :
  forall s,
    (starts (S n) s None).2 = None
    /\ SnakeApp.gamesPlayedCount (starts (S n) s None).1
       = SnakeApp.gamesPlayedCount s
    /\ SnakeApp.status (starts (S n) s None).1 = PLAYING
    /\ SnakeApp.score (starts (S n) s None).1 = 0.
Proof.
  induction n as [|n IH]; intros s; rewrite starts_step;
    destruct (starts_cases s None) as (Hst & Hsc & _ & Hdb & Hcount);
    rewrite Hdb.
  - cbn [starts fst snd]. by rewrite Hcount.
  - destruct (IH (SnakeApp.startGame s None).1.1) as (H1 & H2 & H3 & H4).
    split; [exact H1 |]. split; [by rewrite H2 | by split].
Qed.

(** X24. Every start is counted, up to 2^53, and a game starts without
    the store.  While the count stays within the integers that JavaScript
    numbers hold exactly, after [n] clicks on a start button the store's
    games counter is the old count (0 when there was none) plus [n], the
    visitor counter is untouched and, once a start was made, the
    component shows that count; with no store the clicks still set the
    status to [PLAYING] and the score to 0, and the shown count stays as
    it was. *)
Theorem starts_are_counted (n : nat) (s : SnakeApp.App)
    (d : SnakeCounters.Database) :
  (0 < n)%nat ->
  0 <= SnakeCounters.val_or_0 (SnakeCounters.snake_gamesPlayed d) ->
  SnakeCounters.val_or_0 (SnakeCounters.snake_gamesPlayed d) + Z.of_nat n
  <= SnakeCounters.EXACT_LIMIT ->
  SnakeCounters.getGamesPlayed (starts n s (Some d)).2
  = Returned (SnakeCounters.val_or_0 (SnakeCounters.snake_gamesPlayed d)
              + Z.of_nat n)
  /\ SnakeCounters.getVisitorCount (starts n s (Some d)).2
     = SnakeCounters.getVisitorCount (Some d)
  /\ SnakeApp.gamesPlayedCount (starts n s (Some d)).1
     = Some (SnakeCounters.val_or_0 (SnakeCounters.snake_gamesPlayed d)
             + Z.of_nat n)
  /\ SnakeApp.status (starts n s (Some d)).1 = PLAYING
  /\ (starts n s None).2 = None
  /\ SnakeApp.gamesPlayedCount (starts n s None).1
     = SnakeApp.gamesPlayedCount s
  /\ SnakeApp.status (starts n s None).1 = PLAYING
  /\ SnakeApp.score (starts n s None).1 = 0.
Proof.
  intros Hn Hlow Hhigh. destruct n as [|n]; [lia |]. clear Hn.
  destruct (starts_Some n s d Hlow Hhigh)
    as (d' & Hd' & Hg & Hv & Hcount & Hst).
  destruct (starts_None n s) as (Hnone & Hcount' & Hst' & Hsc').
  rewrite Hd'. cbn [SnakeCounters.getGamesPlayed
                      SnakeCounters.getVisitorCount].
  rewrite Hg, Hv. by repeat (split; [done |]).
Qed.

Lemma starts_are_counted_witness :
  SnakeCounters.getGamesPlayed
    (starts 2 (SnakeApp.mount None)
       (Some {| SnakeCounters.snake_visitorCount := Some 7;
                SnakeCounters.snake_gamesPlayed := None |})).2
  = Returned 2.
Proof.
  apply (starts_are_counted 2 (SnakeApp.mount None)
           {| SnakeCounters.snake_visitorCount := Some 7;
              SnakeCounters.snake_gamesPlayed := None |}).
  - lia.
  - simpl. lia.
  - unfold SnakeCounters.EXACT_LIMIT. simpl. lia.
Defined.

End snake_game.
